(** * Schema generator

    A shallow embedding of the [SchemaGenerator] class (schemaGenerator.js):
    type inference on raw values, field-name sanitising, the per-extension
    content analysers, the domain table catalogue, the feature augmenters and
    the four dialect renderers, followed by the properties of the
    specification that were checked against them.  The file list of the
    upload form (app.js) and the handler of [POST /api/generate-schema]
    with its clean-up (server.js) are embedded after the generator.

    A JavaScript string is a sequence of 16-bit code units.  The embedding
    uses [string], whose characters are the code units 0..255; every
    character class below ([\s], [\d], [\w], the case mapping) is the
    restriction of the JavaScript one to that range. *)

From Stdlib Require Import Ascii String List Bool Arith ZArith Lia DecimalString Sorted.
From stdpp Require Import base strings list gmap.

Local Open Scope string_scope.
#[local] Set Warnings "-register-all".

(** ** JavaScript string primitives *)

Module Js.

Definition chars (s : string) : list ascii := list_ascii_of_string s.
Definition str (l : list ascii) : string := string_of_list_ascii l.

Definition LF : string := String (ascii_of_nat 10) "".
Definition DQ : string := String (ascii_of_nat 34) "".

Definition code (c : ascii) : nat := nat_of_ascii c.

Definition between (lo hi : nat) (c : ascii) : bool :=
  (lo <=? code c)%nat && (code c <=? hi)%nat.

(** [\s], and the set removed by [String.prototype.trim]: TAB, LF, VT, FF,
    CR, SPACE and NBSP. *)
Definition isWhiteSpace (c : ascii) : bool :=
  between 9 13 c || (code c =? 32)%nat || (code c =? 160)%nat.

(** [\d] *)
Definition isDigit (c : ascii) : bool := between 48 57 c.

(** [\w] is [A-Za-z0-9_] *)
Definition isWord (c : ascii) : bool :=
  between 65 90 c || between 97 122 c || isDigit c || (code c =? 95)%nat.

Fixpoint dropWhile {A} (p : A -> bool) (l : list A) : list A :=
  match l with
  | [] => []
  | x :: r => if p x then dropWhile p r else l
  end.

Fixpoint takeWhile {A} (p : A -> bool) (l : list A) : list A :=
  match l with
  | [] => []
  | x :: r => if p x then x :: takeWhile p r else []
  end.

Definition trimStartChars (l : list ascii) : list ascii := dropWhile isWhiteSpace l.
Definition trimEndChars (l : list ascii) : list ascii :=
  rev (dropWhile isWhiteSpace (rev l)).
Definition trimChars (l : list ascii) : list ascii := trimEndChars (trimStartChars l).

(** [s.trim()] *)
Definition trim (s : string) : string := str (trimChars (chars s)).

(** The case mapping of [toLowerCase] on one code unit: [A-Z], and the
    upper-case letters of the Latin-1 supplement (U+00C0..U+00DE without the
    multiplication sign U+00D7), move up by 32. *)
Definition lowerChar (c : ascii) : ascii :=
  if between 65 90 c || (between 192 222 c && negb (code c =? 215)%nat)
  then ascii_of_nat (code c + 32)
  else c.

(** [s.toLowerCase()] *)
Definition toLowerCase (s : string) : string := str (map lowerChar (chars s)).

(** [s.split(sep)] for a one-character separator. *)
Fixpoint splitChars (sep : ascii) (l : list ascii) : list (list ascii) :=
  match l with
  | [] => [[]]
  | c :: r =>
      if Ascii.eqb c sep then [] :: splitChars sep r
      else match splitChars sep r with
           | h :: t => (c :: h) :: t
           | [] => [[c]]
           end
  end.

Definition split (sep : ascii) (s : string) : list string :=
  map str (splitChars sep (chars s)).

(** [s.includes(c)] for a one-character needle. *)
Definition includes (c : ascii) (s : string) : bool :=
  existsb (Ascii.eqb c) (chars s).

(** [parts.join(sep)] *)
Definition join (sep : string) (parts : list string) : string :=
  String.concat sep parts.

Fixpoint startsWith (p l : list ascii) : bool :=
  match p, l with
  | [], _ => true
  | a :: p', b :: l' => Ascii.eqb a b && startsWith p' l'
  | _ :: _, [] => false
  end.

(** An own-property store, held in the order in which the language
    enumerates own keys: first the keys that are array indices, by
    ascending index, then the other keys in the order of their creation.
    [obj[k] = v] overwrites in place when [k] is already an own key and
    creates the property otherwise; the key [__proto__] reaches the
    prototype setter and creates no own property. *)
Definition object (V : Type) : Type := list (string * V).

Fixpoint getOwn {V} (k : string) (o : object V) : option V :=
  match o with
  | [] => None
  | (k', v) :: r => if String.eqb k' k then Some v else getOwn k r
  end.

(** The array index a key is, when it is one: a key that is the decimal
    text of an integer from 0 to 2^32 - 2, written without a sign and
    without leading zeros (the text printing the integer gives back). *)
Definition arrayIndex (k : string) : option N :=
  match NilZero.uint_of_string k with
  | Some u =>
      let n := N.of_uint u in
      if String.eqb (NilZero.string_of_uint (N.to_uint n)) k && (n <=? 4294967294)%N
      then Some n
      else None
  | None => None
  end.

(** A new property under the array index [n]: before the first key that is
    not a smaller index. *)
Fixpoint place {V} (n : N) (k : string) (v : V) (o : object V) : object V :=
  match o with
  | [] => [(k, v)]
  | (k', v') :: r =>
      match arrayIndex k' with
      | Some n' => if (n' <? n)%N then (k', v') :: place n k v r else (k, v) :: o
      | None => (k, v) :: o
      end
  end.

(** A new value for an own key, which keeps its place. *)
Fixpoint replace {V} (k : string) (v : V) (o : object V) : object V :=
  match o with
  | [] => []
  | (k', v') :: r =>
      if String.eqb k' k then (k', v) :: r else (k', v') :: replace k v r
  end.

Definition setOwn {V} (k : string) (v : V) (o : object V) : object V :=
  match getOwn k o with
  | Some _ => replace k v o
  | None =>
      match arrayIndex k with
      | Some n => place n k v o
      | None => (o ++ [(k, v)])%list
      end
  end.

Definition set {V} (k : string) (v : V) (o : object V) : object V :=
  if String.eqb k "__proto__" then o else setOwn k v o.

(** [Object.keys(o)]: the own keys, as they are enumerated. *)
Definition keys {V} (o : object V) : list string := map fst o.

(** The names every plain object inherits from [Object.prototype]; a read
    [o[k]] of one of them is truthy even when [k] is not an own key. *)
Definition inherited : list string :=
  [ "constructor"; "hasOwnProperty"; "isPrototypeOf"; "propertyIsEnumerable";
    "toLocaleString"; "toString"; "valueOf"; "__defineGetter__";
    "__defineSetter__"; "__lookupGetter__"; "__lookupSetter__"; "__proto__" ].

(** Truthiness of the read [o[k]] when every own value is an object. *)
Definition truthyAt {V} (k : string) (o : object V) : bool :=
  match getOwn k o with
  | Some _ => true
  | None => existsb (String.eqb k) inherited
  end.

End Js.

(** ** Numeric coercions

    Only whether the result is [NaN] matters to the generator, so the two
    coercions are embedded as recognisers of the grammars they accept. *)

Module Numeric.
Import Js.

Definition isSign (c : ascii) : bool := (code c =? 43)%nat || (code c =? 45)%nat.
Definition isExponentIndicator (c : ascii) : bool :=
  (code c =? 101)%nat || (code c =? 69)%nat.
Definition isBinaryDigit (c : ascii) : bool := between 48 49 c.
Definition isOctalDigit (c : ascii) : bool := between 48 55 c.
Definition isHexDigit (c : ascii) : bool :=
  isDigit c || between 65 70 c || between 97 102 c.

Definition nonEmptyAll (p : ascii -> bool) (l : list ascii) : bool :=
  match l with [] => false | _ => forallb p l end.

Definition Infinity : list ascii := chars "Infinity".

(** ExponentPart, optional, up to the end of the input. *)
Definition exponentOpt (l : list ascii) : bool :=
  match l with
  | [] => true
  | e :: r =>
      isExponentIndicator e &&
      match r with
      | s :: r' => if isSign s then nonEmptyAll isDigit r' else nonEmptyAll isDigit r
      | [] => false
      end
  end.

(** StrUnsignedDecimalLiteral, the whole input. *)
Definition strUnsignedDecimalLiteral (l : list ascii) : bool :=
  if startsWith Infinity l && (length l =? length Infinity)%nat then true
  else
    match takeWhile isDigit l, dropWhile isDigit l with
    | _ :: _, [] => true
    | _ :: _, c :: r =>
        if (code c =? 46)%nat then exponentOpt (dropWhile isDigit r)
        else exponentOpt (c :: r)
    | [], c :: r =>
        (code c =? 46)%nat &&
        match takeWhile isDigit r with
        | [] => false
        | _ :: _ => exponentOpt (dropWhile isDigit r)
        end
    | [], [] => false
    end.

(** StrDecimalLiteral: an optional sign and an unsigned literal. *)
Definition strDecimalLiteral (l : list ascii) : bool :=
  match l with
  | c :: r => if isSign c then strUnsignedDecimalLiteral r
              else strUnsignedDecimalLiteral l
  | [] => false
  end.

(** NonDecimalIntegerLiteral: [0b], [0o] and [0x] forms, unsigned. *)
Definition nonDecimalIntegerLiteral (l : list ascii) : bool :=
  match l with
  | z :: p :: r =>
      (code z =? 48)%nat &&
      (if (code p =? 98)%nat || (code p =? 66)%nat then nonEmptyAll isBinaryDigit r
       else if (code p =? 111)%nat || (code p =? 79)%nat then nonEmptyAll isOctalDigit r
       else if (code p =? 120)%nat || (code p =? 88)%nat then nonEmptyAll isHexDigit r
       else false)
  | _ => false
  end.

Definition strNumericLiteral (l : list ascii) : bool :=
  strDecimalLiteral l || nonDecimalIntegerLiteral l.

(** [isNaN(s)] on a string: [Number(s)] strips white space, reads the empty
    text as 0 and is [NaN] exactly when what remains is not a numeric
    literal. *)
Definition isNaN (s : string) : bool :=
  match trimChars (chars s) with
  | [] => false
  | l => negb (strNumericLiteral l)
  end.

(** [isNaN(parseFloat(s))]: [parseFloat] skips leading white space and reads
    the longest prefix that is a decimal literal; the result is [NaN]
    exactly when no prefix is one. *)
Definition hasDecimalPrefix (l : list ascii) : bool :=
  let u := match l with
           | c :: r => if isSign c then r else l
           | [] => []
           end in
  startsWith Infinity u ||
  match u with
  | c :: r =>
      isDigit c ||
      ((code c =? 46)%nat && match r with d :: _ => isDigit d | [] => false end)
  | [] => false
  end.

Definition parseFloatIsNaN (s : string) : bool :=
  negb (hasDecimalPrefix (trimStartChars (chars s))).

End Numeric.

(** ** Values and primitive types *)

(** The primitive values [inferType] is applied to: a CSV cell that may be
    absent, the text of an XML element, and the leaves of a parsed JSON
    document.  A number is carried by the text [String(n)] gives for it. *)
Inductive value : Type :=
  | VNull
  | VUndefined
  | VBool (b : bool)
  | VNumber (text : string)
  | VString (s : string).

(** [String(v)] *)
Definition String_ (v : value) : string :=
  match v with
  | VNull => "null"
  | VUndefined => "undefined"
  | VBool true => "true"
  | VBool false => "false"
  | VNumber text => text
  | VString s => s
  end.

Inductive PrimitiveType : Type :=
  | TInteger | TString | TText | TBoolean | TDate | TTimestamp | TDecimal
  | TJson | TRelation.

(** ** Type inferencer *)

Section TypeInferencer.
Import Js.

(** [/^\d{4}-\d{2}-\d{2}$/] *)
Definition isDateChars (l : list ascii) : bool :=
  match l with
  | [y1; y2; y3; y4; h1; m1; m2; h2; d1; d2] =>
      forallb isDigit [y1; y2; y3; y4; m1; m2; d1; d2] &&
      (code h1 =? 45)%nat && (code h2 =? 45)%nat
  | _ => false
  end.

Definition isDate (value : string) : bool := isDateChars (chars value).

(** [/^\d{4}-\d{2}-\d{2}[T ]\d{2}:\d{2}:\d{2}/]: a prefix match. *)
Definition isDateTimeChars (l : list ascii) : bool :=
  match l with
  | y1 :: y2 :: y3 :: y4 :: h1 :: m1 :: m2 :: h2 :: d1 :: d2 :: t ::
    hh1 :: hh2 :: c1 :: mm1 :: mm2 :: c2 :: s1 :: s2 :: _ =>
      forallb isDigit [y1; y2; y3; y4; m1; m2; d1; d2; hh1; hh2; mm1; mm2; s1; s2] &&
      (code h1 =? 45)%nat && (code h2 =? 45)%nat &&
      ((code t =? 84)%nat || (code t =? 32)%nat) &&
      (code c1 =? 58)%nat && (code c2 =? 58)%nat
  | _ => false
  end.

Definition isDateTime (value : string) : bool := isDateTimeChars (chars value).

(** [!isNaN(strValue) && !isNaN(parseFloat(strValue))] *)
Definition looksNumeric (strValue : string) : bool :=
  negb (Numeric.isNaN strValue) && negb (Numeric.parseFloatIsNaN strValue).

Definition inferType (v : value) : PrimitiveType :=
  match v with
  | VNull | VUndefined => TString
  | _ =>
      let strValue := trim (String_ v) in
      if String.eqb strValue "true" || String.eqb strValue "false" then TBoolean
      else if looksNumeric strValue then
        if includes "."%char strValue then TDecimal else TInteger
      else if isDate strValue then TDate
      else if isDateTime strValue then TTimestamp
      else if (255 <? String.length strValue)%nat then TText
      else TString
  end.

End TypeInferencer.

(** ** Field-name sanitiser *)

Section Sanitizer.
Import Js.

Definition isUnderscore (c : ascii) : bool := (code c =? 95)%nat.

(** The class [[a-z0-9_]]. *)
Definition isFieldChar (c : ascii) : bool :=
  between 97 122 c || isDigit c || isUnderscore c.

(** [.replace(/[^a-z0-9_]/g, '_')] *)
Definition replaceOutside (l : list ascii) : list ascii :=
  map (fun c => if isFieldChar c then c else "_"%char) l.

(** [.replace(/^_+|_+$/g, '')]: the first alternative removes the run of
    underscores at index 0, the second the run that ends the text. *)
Definition stripUnderscores (l : list ascii) : list ascii :=
  rev (dropWhile isUnderscore (rev (dropWhile isUnderscore l))).

(** [.replace(/_+/g, '_')]: every maximal run becomes one underscore (an
    underscore followed by another belongs to a run that is still going
    on, and is dropped; the last one of the run stands for the run). *)
Fixpoint collapseUnderscores (l : list ascii) : list ascii :=
  match l with
  | [] => []
  | c :: r =>
      if isUnderscore c && match r with c' :: _ => isUnderscore c' | [] => false end
      then collapseUnderscores r
      else c :: collapseUnderscores r
  end.

Definition sanitizeChars (l : list ascii) : list ascii :=
  collapseUnderscores (stripUnderscores (replaceOutside (map lowerChar l))).

Definition sanitizeFieldName (name : string) : string :=
  str (sanitizeChars (chars name)).

End Sanitizer.

(** ** Content analysers *)

(** The descriptor an analyser stores under a field name: [{type, required}],
    or [{type: 'relation', relatedTable, childStructure}] for an array-valued
    key of a JSON document. *)
Inductive shape : Type :=
  | Plain (type : PrimitiveType) (required : bool)
  | Relation (relatedTable : string) (childStructure : option (list (string * shape))).

Definition structure : Type := Js.object shape.

(** What [JSON.parse] returns: [Object.entries] order for the keys. *)
Inductive json : Type :=
  | JValue (v : value)
  | JArray (items : list json)
  | JObject (entries : list (string * json)).

Module FileInfo.
Record t : Type := make {
  path : string;
  originalName : string;
  mimeType : string;
  size : nat;
  extension : string
}.
End FileInfo.

Module Analysis.
Record t : Type := make {
  fields : structure;
  type : string;
  hasMetadata : bool;
  structure : option structure
}.
End Analysis.

Module AnalyzedData.
Record t : Type := make {
  content : list (FileInfo.t * Analysis.t);
  structure : structure;
  commonFields : gset string;
  mediaFiles : list FileInfo.t
}.
End AnalyzedData.

Section Analyzers.
Import Js.

(** [JSON.parse]: [None] when it throws a [SyntaxError]. *)
Variable JSON_parse : string -> option json.

Fixpoint inferStructureFromObject (obj : json) (depth : nat) {struct obj}
  : option structure :=
  if (3 <? depth)%nat then None
  else
    match obj with
    | JArray items =>
        match items with
        | first :: _ => inferStructureFromObject first (depth + 1)
        | [] => None
        end
    | JObject entries =>
        Some (fold_left
                (fun (acc : structure) (entry : string * json) =>
                   let fieldName := sanitizeFieldName (fst entry) in
                   match snd entry with
                   | JArray items =>
                       set fieldName
                         (Relation fieldName
                            match items with
                            | first :: _ => inferStructureFromObject first (depth + 1)
                            | [] => None
                            end) acc
                   | JObject _ => set fieldName (Plain TJson false) acc
                   | JValue v => set fieldName (Plain (inferType v) false) acc
                   end)
                entries [])
    | JValue _ => Some []
    end.

Definition analyzeJSON (content : string) : option structure :=
  match JSON_parse content with
  | Some data => inferStructureFromObject data 0
  | None => None
  end.

(** [fields[k].type = t] on an entry that holds [{type, required}]. *)
Definition setType (k : string) (t : PrimitiveType) (fields : structure) : structure :=
  map (fun kv : string * shape =>
         if String.eqb (fst kv) k then
           match snd kv with
           | Plain _ required => (fst kv, Plain t required)
           | Relation _ _ => kv
           end
         else kv) fields.

Fixpoint indexed {A} (i : nat) (l : list A) : list (nat * A) :=
  match l with
  | [] => []
  | x :: r => (i, x) :: indexed (S i) r
  end.

Definition analyzeCSV (content : string) : option structure :=
  let lines :=
    List.filter (fun line => negb (String.eqb (trim line) ""))
           (split (ascii_of_nat 10) content) in
  match lines with
  | [] => None
  | headerLine :: rest =>
      let headers := map trim (split ","%char headerLine) in
      let fields :=
        fold_left (fun acc header =>
                     set (sanitizeFieldName header) (Plain TString false) acc)
                  headers [] in
      match rest with
      | [] => Some fields
      | sampleLine :: _ =>
          let sampleRow := split ","%char sampleLine in
          Some (fold_left
                  (fun acc (ih : nat * string) =>
                     let value :=
                       match nth_error sampleRow (fst ih) with
                       | Some cell => VString (trim cell)
                       | None => VUndefined
                       end in
                     setType (sanitizeFieldName (snd ih)) (inferType value) acc)
                  (indexed 0 headers) fields)
      end
  end.

(** One attempt, at the head of [l], of the pattern of [analyzeXML]: [<],
    a tag of one or more [\w], [>], a text of any number of characters
    other than [<], then [</], the same tag again and [>].  The result is
    the tag, the text and the length of the match.  Both repetitions are
    followed by a character outside their class, so only the longest run
    can match. *)
Definition notLt (c : ascii) : bool := negb (code c =? 60)%nat.

Definition matchTagAt (l : list ascii) : option (list ascii * list ascii * nat) :=
  match l with
  | lt :: r =>
      if (code lt =? 60)%nat then
        let tag := takeWhile isWord r in
        match tag, dropWhile isWord r with
        | _ :: _, gt :: r2 =>
            if (code gt =? 62)%nat then
              let text := takeWhile notLt r2 in
              if startsWith (chars "</" ++ tag ++ chars ">") (dropWhile notLt r2)
              then Some (tag, text, length tag + length text + length tag + 5)
              else None
            else None
        | _, _ => None
        end
      else None
  | [] => None
  end.

(** The [exec] loop of a global pattern: the leftmost match at or after
    [lastIndex], then on from the end of that match. *)
Fixpoint scanTags (l : list ascii) (skip : nat) : list (list ascii * list ascii) :=
  match l with
  | [] => []
  | _ :: r =>
      match skip with
      | S k => scanTags r k
      | O =>
          match matchTagAt l with
          | Some (tag, text, len) => (tag, text) :: scanTags r (len - 1)
          | None => scanTags r 0
          end
      end
  end.

Definition analyzeXML (content : string) : structure :=
  fold_left
    (fun (fields : structure) (m : list ascii * list ascii) =>
       let fieldName := sanitizeFieldName (str (fst m)) in
       let value := str (snd m) in
       if truthyAt fieldName fields then fields
       else set fieldName (Plain (inferType (VString value)) false) fields)
    (scanTags (chars content) 0) [].

(** [/\d{4}-\d{2}-\d{2}/.test(content)]: the pattern anywhere in the text. *)
Fixpoint containsDate (l : list ascii) : bool :=
  isDateChars (firstn 10 l) ||
  match l with
  | [] => false
  | _ :: r => containsDate r
  end.

Definition analyzeText (content : string) : structure :=
  let fields : structure :=
    [ ("title", Plain TString true);
      ("content", Plain TText true);
      ("excerpt", Plain TText false) ] in
  let fields :=
    if includes "@"%char content && includes "."%char content
    then set "author_email" (Plain TString false) fields else fields in
  if containsDate (chars content)
  then set "published_date" (Plain TDate false) fields else fields.

Definition analyzeContent (content : string) (fileInfo : FileInfo.t) : Analysis.t :=
  let ext := FileInfo.extension fileInfo in
  if String.eqb ext ".json" then
    Analysis.make [] "structured" false (analyzeJSON content)
  else if String.eqb ext ".csv" then
    Analysis.make [] "tabular" false (analyzeCSV content)
  else if String.eqb ext ".xml" then
    Analysis.make [] "structured" false (Some (analyzeXML content))
  else if String.eqb ext ".md" || String.eqb ext ".txt" then
    Analysis.make [] "content" false (Some (analyzeText content))
  else
    Analysis.make [] "document" false (Some (analyzeText content)).

(** [fs.readFile(path, 'utf-8')]: [None] when the read is rejected. *)
Variable readFile : string -> option string.

(** One turn of the loop of [analyzeFiles]; a rejected read lands in the
    [catch], which leaves the aggregate as it was. *)
Definition analyzeFile (analyzedData : AnalyzedData.t) (fileInfo : FileInfo.t)
  : AnalyzedData.t :=
  match readFile (FileInfo.path fileInfo) with
  | Some content =>
      let analysis := analyzeContent content fileInfo in
      AnalyzedData.make
        (AnalyzedData.content analyzedData ++ [(fileInfo, analysis)])
        (AnalyzedData.structure analyzedData)
        (fold_left (fun (acc : gset string) field => acc ∪ {[ field ]})
                   (keys (Analysis.fields analysis))
                   (AnalyzedData.commonFields analyzedData))
        (AnalyzedData.mediaFiles analyzedData)
  | None => analyzedData
  end.

Definition analyzeFiles (fileInfos : list FileInfo.t) : AnalyzedData.t :=
  fold_left analyzeFile fileInfos (AnalyzedData.make [] [] ∅ []).

End Analyzers.

(** ** Tables, fields and configuration *)

(** A number of a field: an integer below 2^53 in absolute value, which a
    number of the language holds exactly and [`${n}`] prints as its decimal
    digits, with a minus sign when it is negative.  Fractions and larger
    numbers, which print otherwise, are outside the embedding; the catalogue
    holds none.  A numeral is read as such a number. *)
Module SafeInteger.
Definition limit : Z := 9007199254740992.

Record t : Type := make {
  value : Z;
  safe : Is_true (Z.abs value <? limit)%Z
}.

Definition ofZ (z : Z) : option t :=
  match (Z.abs z <? limit)%Z as b return (Is_true b -> t) -> option t with
  | true => fun k => Some (k I)
  | false => fun _ => None
  end (make z).

Definition of_int (i : Number.int) : option t := ofZ (Z.of_num_int i).
Definition to_int (n : t) : Number.int := Z.to_num_int (value n).
End SafeInteger.

Declare Scope safe_scope.
Delimit Scope safe_scope with safe.
Bind Scope safe_scope with SafeInteger.t.
Number Notation SafeInteger.t SafeInteger.of_int SafeInteger.to_int : safe_scope.

Definition printNumber (n : SafeInteger.t) : string :=
  NilZero.string_of_int (Z.to_int (SafeInteger.value n)).

(** A literal given as a column default; [`${d}`] prints it. *)
Inductive literal : Type :=
  | LString (s : string)
  | LBool (b : bool)
  | LNumber (n : SafeInteger.t).

Definition printLiteral (d : literal) : string :=
  match d with
  | LString s => s
  | LBool true => "true"
  | LBool false => "false"
  | LNumber n => printNumber n
  end.

Module Field.
Record t : Type := make {
  name : string;
  type : PrimitiveType;
  required : bool;
  primaryKey : bool;
  autoIncrement : bool;
  unique : bool;
  default : option literal;
  length : option SafeInteger.t;
  precision : option SafeInteger.t;
  scale : option SafeInteger.t
}.
End Field.

Module Table.
Record t : Type := make {
  name : string;
  fields : list Field.t
}.
End Table.

Module Config.
(** [projectName] is [None] when the request left it undefined. *)
Record t : Type := make {
  websiteType : string;
  projectName : option string;
  databaseType : string;
  includeImages : bool;
  includeMetadata : bool;
  tablePrefix : string
}.
End Config.

(** [{ name, type, required }], every other key absent. *)
Definition column (name : string) (type : PrimitiveType) (required : bool) : Field.t :=
  Field.make name type required false false false None None None None.

(** [primaryKey: true, autoIncrement: true] *)
Definition identity (f : Field.t) : Field.t :=
  Field.make (Field.name f) (Field.type f) (Field.required f) true true
    (Field.unique f) (Field.default f) (Field.length f) (Field.precision f)
    (Field.scale f).

(** [unique: true] *)
Definition uniq (f : Field.t) : Field.t :=
  Field.make (Field.name f) (Field.type f) (Field.required f) (Field.primaryKey f)
    (Field.autoIncrement f) true (Field.default f) (Field.length f)
    (Field.precision f) (Field.scale f).

(** [default: d] *)
Definition dflt (d : literal) (f : Field.t) : Field.t :=
  Field.make (Field.name f) (Field.type f) (Field.required f) (Field.primaryKey f)
    (Field.autoIncrement f) (Field.unique f) (Some d) (Field.length f)
    (Field.precision f) (Field.scale f).

(** [length: n] *)
Definition len (n : SafeInteger.t) (f : Field.t) : Field.t :=
  Field.make (Field.name f) (Field.type f) (Field.required f) (Field.primaryKey f)
    (Field.autoIncrement f) (Field.unique f) (Field.default f) (Some n)
    (Field.precision f) (Field.scale f).

(** [precision: p, scale: s] *)
Definition prec (p s : SafeInteger.t) (f : Field.t) : Field.t :=
  Field.make (Field.name f) (Field.type f) (Field.required f) (Field.primaryKey f)
    (Field.autoIncrement f) (Field.unique f) (Field.default f) (Field.length f)
    (Some p) (Some s).

(** ** The generator object *)

Module SchemaGenerator.
(** The instance fields.  [relationships] and [metadata] are created empty
    and no method writes them. *)
Record t : Type := make {
  config : Config.t;
  tables : list Table.t;
  relationships : list json;
  metadata : Js.object json
}.
End SchemaGenerator.

(** [new SchemaGenerator(config)] *)
Definition constructor (config : Config.t) : SchemaGenerator.t :=
  SchemaGenerator.make config [] [] [].

(** ** Domain template builder and feature augmenters

    Every method pushes onto [this.tables]; the embedding threads that array
    through as [tables]. *)

Section Templates.
Variable config : Config.t.

Definition tableName (name : string) : string :=
  Config.tablePrefix config +:+ name.

Definition generateBlogStructure (analyzedData : AnalyzedData.t) (tables : list Table.t)
  : list Table.t :=
  tables
  ++ [ Table.make (tableName "posts")
         [ identity (column "id" TInteger true);
           len 255 (column "title" TString true);
           uniq (len 255 (column "slug" TString true));
           column "content" TText true;
           column "excerpt" TText false;
           column "author_id" TInteger false;
           column "category_id" TInteger false;
           dflt (LString "draft") (len 20 (column "status" TString true));
           column "published_at" TTimestamp false;
           column "created_at" TTimestamp true;
           column "updated_at" TTimestamp true ] ]
  ++ [ Table.make (tableName "categories")
         [ identity (column "id" TInteger true);
           len 100 (column "name" TString true);
           uniq (len 100 (column "slug" TString true));
           column "description" TText false;
           column "parent_id" TInteger false;
           column "created_at" TTimestamp true ] ]
  ++ [ Table.make (tableName "tags")
         [ identity (column "id" TInteger true);
           uniq (len 50 (column "name" TString true));
           uniq (len 50 (column "slug" TString true));
           column "created_at" TTimestamp true ] ]
  ++ [ Table.make (tableName "post_tags")
         [ column "post_id" TInteger true;
           column "tag_id" TInteger true;
           column "created_at" TTimestamp true ] ]
  ++ [ Table.make (tableName "authors")
         [ identity (column "id" TInteger true);
           len 100 (column "name" TString true);
           uniq (len 255 (column "email" TString true));
           column "bio" TText false;
           len 500 (column "avatar_url" TString false);
           column "created_at" TTimestamp true ] ]
  ++ [ Table.make (tableName "comments")
         [ identity (column "id" TInteger true);
           column "post_id" TInteger true;
           len 100 (column "author_name" TString true);
           len 255 (column "author_email" TString true);
           column "content" TText true;
           dflt (LString "pending") (len 20 (column "status" TString true));
           column "parent_id" TInteger false;
           column "created_at" TTimestamp true ] ].

Definition generatePortfolioStructure (analyzedData : AnalyzedData.t) (tables : list Table.t)
  : list Table.t :=
  tables
  ++ [ Table.make (tableName "projects")
         [ identity (column "id" TInteger true);
           len 255 (column "title" TString true);
           uniq (len 255 (column "slug" TString true));
           column "description" TText true;
           len 100 (column "client" TString false);
           len 500 (column "project_url" TString false);
           len 500 (column "github_url" TString false);
           dflt (LBool false) (column "featured" TBoolean true);
           column "completed_at" TDate false;
           column "created_at" TTimestamp true;
           column "updated_at" TTimestamp true ] ]
  ++ [ Table.make (tableName "skills")
         [ identity (column "id" TInteger true);
           uniq (len 50 (column "name" TString true));
           len 50 (column "category" TString false);
           column "proficiency" TInteger false;
           column "created_at" TTimestamp true ] ]
  ++ [ Table.make (tableName "project_skills")
         [ column "project_id" TInteger true;
           column "skill_id" TInteger true ] ].

Definition generateEcommerceStructure (analyzedData : AnalyzedData.t) (tables : list Table.t)
  : list Table.t :=
  tables
  ++ [ Table.make (tableName "products")
         [ identity (column "id" TInteger true);
           len 255 (column "name" TString true);
           uniq (len 255 (column "slug" TString true));
           column "description" TText true;
           prec 10 2 (column "price" TDecimal true);
           prec 10 2 (column "compare_price" TDecimal false);
           uniq (len 100 (column "sku" TString false));
           dflt (LNumber 0) (column "stock_quantity" TInteger true);
           column "category_id" TInteger false;
           dflt (LString "active") (len 20 (column "status" TString true));
           column "created_at" TTimestamp true;
           column "updated_at" TTimestamp true ] ]
  ++ [ Table.make (tableName "categories")
         [ identity (column "id" TInteger true);
           len 100 (column "name" TString true);
           uniq (len 100 (column "slug" TString true));
           column "parent_id" TInteger false;
           column "created_at" TTimestamp true ] ]
  ++ [ Table.make (tableName "orders")
         [ identity (column "id" TInteger true);
           uniq (len 50 (column "order_number" TString true));
           column "customer_id" TInteger false;
           prec 10 2 (column "total" TDecimal true);
           dflt (LString "pending") (len 20 (column "status" TString true));
           column "created_at" TTimestamp true;
           column "updated_at" TTimestamp true ] ].

Definition generateDocumentationStructure (analyzedData : AnalyzedData.t) (tables : list Table.t)
  : list Table.t :=
  tables
  ++ [ Table.make (tableName "pages")
         [ identity (column "id" TInteger true);
           len 255 (column "title" TString true);
           uniq (len 255 (column "slug" TString true));
           column "content" TText true;
           column "parent_id" TInteger false;
           dflt (LNumber 0) (column "order" TInteger true);
           len 20 (column "version" TString false);
           column "created_at" TTimestamp true;
           column "updated_at" TTimestamp true ] ]
  ++ [ Table.make (tableName "sections")
         [ identity (column "id" TInteger true);
           len 100 (column "name" TString true);
           uniq (len 100 (column "slug" TString true));
           dflt (LNumber 0) (column "order" TInteger true);
           column "created_at" TTimestamp true ] ].

Definition generateCorporateStructure (analyzedData : AnalyzedData.t) (tables : list Table.t)
  : list Table.t :=
  tables
  ++ [ Table.make (tableName "pages")
         [ identity (column "id" TInteger true);
           len 255 (column "title" TString true);
           uniq (len 255 (column "slug" TString true));
           column "content" TText true;
           len 255 (column "meta_title" TString false);
           column "meta_description" TText false;
           len 50 (column "template" TString false);
           dflt (LString "draft") (len 20 (column "status" TString true));
           column "created_at" TTimestamp true;
           column "updated_at" TTimestamp true ] ]
  ++ [ Table.make (tableName "team_members")
         [ identity (column "id" TInteger true);
           len 100 (column "name" TString true);
           len 100 (column "position" TString true);
           column "bio" TText false;
           len 255 (column "email" TString false);
           len 500 (column "photo_url" TString false);
           dflt (LNumber 0) (column "order" TInteger true);
           column "created_at" TTimestamp true ] ]
  ++ [ Table.make (tableName "services")
         [ identity (column "id" TInteger true);
           len 255 (column "title" TString true);
           uniq (len 255 (column "slug" TString true));
           column "description" TText true;
           len 100 (column "icon" TString false);
           dflt (LBool false) (column "featured" TBoolean true);
           column "created_at" TTimestamp true ] ].

Definition generateCustomStructure (analyzedData : AnalyzedData.t) (tables : list Table.t)
  : list Table.t :=
  tables
  ++ [ Table.make (tableName "content")
         [ identity (column "id" TInteger true);
           len 255 (column "title" TString true);
           uniq (len 255 (column "slug" TString true));
           column "body" TText true;
           len 50 (column "type" TString true);
           dflt (LString "draft") (len 20 (column "status" TString true));
           column "created_at" TTimestamp true;
           column "updated_at" TTimestamp true ] ].

Definition addMetadataTables (tables : list Table.t) : list Table.t :=
  tables
  ++ [ Table.make (tableName "metadata")
         [ identity (column "id" TInteger true);
           len 50 (column "entity_type" TString true);
           column "entity_id" TInteger true;
           len 100 (column "meta_key" TString true);
           column "meta_value" TText false;
           column "created_at" TTimestamp true ] ].

Definition addMediaTables (tables : list Table.t) : list Table.t :=
  tables
  ++ [ Table.make (tableName "media")
         [ identity (column "id" TInteger true);
           len 255 (column "filename" TString true);
           len 255 (column "original_name" TString true);
           len 100 (column "mime_type" TString true);
           column "size" TInteger true;
           len 500 (column "url" TString true);
           len 255 (column "alt_text" TString false);
           column "width" TInteger false;
           column "height" TInteger false;
           column "uploaded_at" TTimestamp true ] ].

Definition generateStructure (analyzedData : AnalyzedData.t) (tables : list Table.t)
  : list Table.t :=
  let websiteType := Config.websiteType config in
  let tables :=
    if String.eqb websiteType "blog" then generateBlogStructure analyzedData tables
    else if String.eqb websiteType "portfolio" then
      generatePortfolioStructure analyzedData tables
    else if String.eqb websiteType "ecommerce" then
      generateEcommerceStructure analyzedData tables
    else if String.eqb websiteType "documentation" then
      generateDocumentationStructure analyzedData tables
    else if String.eqb websiteType "corporate" then
      generateCorporateStructure analyzedData tables
    else generateCustomStructure analyzedData tables in
  let tables :=
    if Config.includeMetadata config then addMetadataTables tables else tables in
  if Config.includeImages config then addMediaTables tables else tables.

End Templates.

(** ** Dialect renderers *)

(** The document handed to [JSON.stringify] by the document-store renderer. *)
Module Mongo.
Record property : Type := Property {
  propertyBsonType : string;
  description : string
}.
Record jsonSchema : Type := JsonSchema {
  bsonType : string;
  required : list string;
  properties : Js.object property
}.
Record collection : Type := Collection {
  name : string;
  validator : jsonSchema
}.
Record schema : Type := Schema {
  database : string;
  collections : list collection
}.
End Mongo.

(** How a call ends: with a value, or with a thrown error. *)
Inductive outcome (A : Type) : Type :=
  | Returned (a : A)
  | Thrown (error : string).
Arguments Returned {A} a.
Arguments Thrown {A} error.

Section Renderers.
Import Js.

(** [JSON.stringify(schema, null, 2)] *)
Variable JSON_stringify : Mongo.schema -> string.

Variable config : Config.t.

(** [new Date().toISOString()] at the time of the call. *)
Variable now : string.

(** [n || d] on an optional number: absent and 0 are falsy. *)
Definition orElse (n : option SafeInteger.t) (d : SafeInteger.t) : SafeInteger.t :=
  match n with
  | Some m => if (SafeInteger.value m =? 0)%Z then d else m
  | None => d
  end.

(** [`${this.config.projectName}`] *)
Definition printProjectName : string :=
  match Config.projectName config with
  | Some p => p
  | None => "undefined"
  end.

Definition when (b : bool) (s : string) : string := if b then s else "".

Definition defaultClause (field : Field.t) : string :=
  match Field.default field with
  | Some d => " DEFAULT '" +:+ printLiteral d +:+ "'"
  | None => ""
  end.

Definition header (dialect : string) : string :=
  "-- Generated " +:+ dialect +:+ " Schema for " +:+ printProjectName +:+ LF +:+
  "-- Generated at: " +:+ now +:+ LF +:+ LF.

Definition mapTypeToMySQL (field : Field.t) : string :=
  match Field.type field with
  | TInteger => "INT"
  | TString => "VARCHAR(" +:+ printNumber (orElse (Field.length field) 255) +:+ ")"
  | TText => "TEXT"
  | TBoolean => "BOOLEAN"
  | TDate => "DATE"
  | TTimestamp => "TIMESTAMP DEFAULT CURRENT_TIMESTAMP"
  | TDecimal => "DECIMAL(" +:+ printNumber (orElse (Field.precision field) 10) +:+ "," +:+
                printNumber (orElse (Field.scale field) 2) +:+ ")"
  | TJson | TRelation => "VARCHAR(255)"
  end.

Definition mapTypeToPostgreSQL (field : Field.t) : string :=
  match Field.type field with
  | TInteger => "INTEGER"
  | TString => "VARCHAR(" +:+ printNumber (orElse (Field.length field) 255) +:+ ")"
  | TText => "TEXT"
  | TBoolean => "BOOLEAN"
  | TDate => "DATE"
  | TTimestamp => "TIMESTAMP DEFAULT CURRENT_TIMESTAMP"
  | TDecimal => "DECIMAL(" +:+ printNumber (orElse (Field.precision field) 10) +:+ "," +:+
                printNumber (orElse (Field.scale field) 2) +:+ ")"
  | TJson | TRelation => "VARCHAR(255)"
  end.

Definition mapTypeToSQLite (field : Field.t) : string :=
  match Field.type field with
  | TInteger => "INTEGER"
  | TString => "TEXT"
  | TText => "TEXT"
  | TBoolean => "INTEGER"
  | TDate => "TEXT"
  | TTimestamp => "TEXT"
  | TDecimal => "REAL"
  | TJson | TRelation => "TEXT"
  end.

Definition mapTypeToMongo (type : PrimitiveType) : string :=
  match type with
  | TInteger => "int"
  | TString => "string"
  | TText => "string"
  | TBoolean => "bool"
  | TDate => "date"
  | TTimestamp => "date"
  | TDecimal => "double"
  | TJson | TRelation => "string"
  end.

(** *** Relational-A (mysql) *)

Definition mysqlFieldDefinition (field : Field.t) : string :=
  "  `" +:+ Field.name field +:+ "` " +:+ mapTypeToMySQL field +:+
  when (Field.required field) " NOT NULL" +:+
  when (Field.autoIncrement field) " AUTO_INCREMENT" +:+
  defaultClause field +:+
  when (Field.unique field) " UNIQUE".

Definition mysqlTable (table : Table.t) : string :=
  let fieldDefinitions := map mysqlFieldDefinition (Table.fields table) in
  let primaryKeys := List.filter Field.primaryKey (Table.fields table) in
  let fieldDefinitions :=
    match primaryKeys with
    | [] => fieldDefinitions
    | _ :: _ =>
        (fieldDefinitions ++
         [ "  PRIMARY KEY (`" +:+ join "`, `" (map Field.name primaryKeys) +:+ "`)" ])%list
    end in
  "CREATE TABLE IF NOT EXISTS `" +:+ Table.name table +:+ "` (" +:+ LF +:+
  join ("," +:+ LF) fieldDefinitions +:+
  LF +:+ ") ENGINE=InnoDB DEFAULT CHARSET=utf8mb4 COLLATE=utf8mb4_unicode_ci;" +:+
  LF +:+ LF.

Definition generateMySQLSchema (tables : list Table.t) : string :=
  fold_left (fun sql table => sql +:+ mysqlTable table) tables (header "MySQL").

(** *** Relational-B (postgresql) *)

Definition postgresFieldDefinition (field : Field.t) : string :=
  if Field.primaryKey field && Field.autoIncrement field
  then "  " +:+ DQ +:+ Field.name field +:+ DQ +:+ " SERIAL PRIMARY KEY"
  else
    "  " +:+ DQ +:+ Field.name field +:+ DQ +:+ " " +:+ mapTypeToPostgreSQL field +:+
    when (Field.required field) " NOT NULL" +:+
    defaultClause field +:+
    when (Field.unique field) " UNIQUE".

Definition postgresTable (table : Table.t) : string :=
  "CREATE TABLE IF NOT EXISTS " +:+ DQ +:+ Table.name table +:+ DQ +:+ " (" +:+ LF +:+
  join ("," +:+ LF) (map postgresFieldDefinition (Table.fields table)) +:+
  LF +:+ ");" +:+ LF +:+ LF.

Definition generatePostgreSQLSchema (tables : list Table.t) : string :=
  fold_left (fun sql table => sql +:+ postgresTable table) tables (header "PostgreSQL").

(** *** Embedded (sqlite) *)

Definition sqliteFieldDefinition (field : Field.t) : string :=
  "  " +:+ DQ +:+ Field.name field +:+ DQ +:+ " " +:+ mapTypeToSQLite field +:+
  when (Field.primaryKey field) " PRIMARY KEY" +:+
  when (Field.autoIncrement field) " AUTOINCREMENT" +:+
  when (Field.required field) " NOT NULL" +:+
  defaultClause field +:+
  when (Field.unique field) " UNIQUE".

Definition sqliteTable (table : Table.t) : string :=
  "CREATE TABLE IF NOT EXISTS " +:+ DQ +:+ Table.name table +:+ DQ +:+ " (" +:+ LF +:+
  join ("," +:+ LF) (map sqliteFieldDefinition (Table.fields table)) +:+
  LF +:+ ");" +:+ LF +:+ LF.

Definition generateSQLiteSchema (tables : list Table.t) : string :=
  fold_left (fun sql table => sql +:+ sqliteTable table) tables (header "SQLite").

(** *** Document store (mongodb) *)

(** [.replace(/\s+/g, '_')] *)
Fixpoint replaceWhiteSpaceRuns (l : list ascii) : list ascii :=
  match l with
  | [] => []
  | c :: r =>
      if isWhiteSpace c then
        if match r with c' :: _ => isWhiteSpace c' | [] => false end
        then replaceWhiteSpaceRuns r
        else "_"%char :: replaceWhiteSpaceRuns r
      else c :: replaceWhiteSpaceRuns r
  end.

Definition generateMongoProperties (fields : list Field.t) : Js.object Mongo.property :=
  fold_left
    (fun properties field =>
       if Field.autoIncrement field then properties
       else set (Field.name field)
                (Mongo.Property (mapTypeToMongo (Field.type field))
                                (Field.name field +:+ " field"))
                properties)
    fields [].

Definition mongoRequired (fields : list Field.t) : list string :=
  map Field.name
      (List.filter (fun f => Field.required f && negb (Field.autoIncrement f)) fields).

Definition mongoCollection (table : Table.t) : Mongo.collection :=
  Mongo.Collection (Table.name table)
    (Mongo.JsonSchema "object"
       (mongoRequired (Table.fields table))
       (generateMongoProperties (Table.fields table))).

(** The object built by [generateMongoDBSchema]; reading [toLowerCase] off
    an undefined [projectName] throws a [TypeError]. *)
Definition mongoSchema (tables : list Table.t) : outcome Mongo.schema :=
  match Config.projectName config with
  | Some projectName =>
      Returned
        (Mongo.Schema
           (str (replaceWhiteSpaceRuns (chars (toLowerCase projectName))))
           (map mongoCollection tables))
  | None => Thrown "TypeError"
  end.

Definition generateMongoDBSchema (tables : list Table.t) : outcome string :=
  match mongoSchema tables with
  | Returned schema => Returned (JSON_stringify schema)
  | Thrown e => Thrown e
  end.

Definition generateSQL (tables : list Table.t) : outcome string :=
  let dbType := Config.databaseType config in
  if String.eqb dbType "mysql" then Returned (generateMySQLSchema tables)
  else if String.eqb dbType "postgresql" then Returned (generatePostgreSQLSchema tables)
  else if String.eqb dbType "sqlite" then Returned (generateSQLiteSchema tables)
  else if String.eqb dbType "mongodb" then generateMongoDBSchema tables
  else Returned (generateMySQLSchema tables).

End Renderers.

(** ** Pipeline orchestrator *)

Module SchemaResult.
(** The object [generateFromFiles] resolves to.  [sql] and [totalFields]
    are computed at the time of the call; [tables], [metadata] and
    [relationships] are the generator's own array and objects, recorded
    here with the contents they have when the call returns. *)
Record t : Type := make {
  sql : string;
  tables : list Table.t;
  totalFields : nat;
  metadata : Js.object json;
  relationships : list json
}.
End SchemaResult.

(** What a caller holding [result] reads from it once the generator has moved
    on to the state [this]: the three shared members follow the generator. *)
Definition readLater (this : SchemaGenerator.t) (result : SchemaResult.t) : SchemaResult.t :=
  SchemaResult.make (SchemaResult.sql result) (SchemaGenerator.tables this)
    (SchemaResult.totalFields result) (SchemaGenerator.metadata this)
    (SchemaGenerator.relationships this).

Section Orchestrator.
Variable JSON_parse : string -> option json.
Variable JSON_stringify : Mongo.schema -> string.

(** The world of one call: the file system and the clock. *)
Variable readFile : string -> option string.
Variable now : string.

Definition countFields (tables : list Table.t) : nat :=
  fold_left (fun sum table => sum + length (Table.fields table)) tables 0.

(** [generateFromFiles]: the outcome of the call and the generator as the
    call leaves it.  The tables are pushed before rendering starts, so they
    stay on the generator when rendering throws. *)
Definition generateFromFiles (this : SchemaGenerator.t) (fileInfos : list FileInfo.t)
  : outcome SchemaResult.t * SchemaGenerator.t :=
  let config := SchemaGenerator.config this in
  let analyzedData := analyzeFiles JSON_parse readFile fileInfos in
  let this :=
    SchemaGenerator.make config
      (generateStructure config analyzedData (SchemaGenerator.tables this))
      (SchemaGenerator.relationships this)
      (SchemaGenerator.metadata this) in
  match generateSQL JSON_stringify config now (SchemaGenerator.tables this) with
  | Returned sql =>
      (Returned
         (SchemaResult.make sql
            (SchemaGenerator.tables this)
            (countFields (SchemaGenerator.tables this))
            (SchemaGenerator.metadata this)
            (SchemaGenerator.relationships this)),
       this)
  | Thrown e => (Thrown e, this)
  end.

End Orchestrator.

(** ** Vocabulary of the properties *)

(** Whether the first, and the last, character of a text is in a class. *)
Definition firstIs (p : ascii -> bool) (l : list ascii) : bool :=
  match l with
  | c :: _ => p c
  | [] => false
  end.

Fixpoint lastIs (p : ascii -> bool) (l : list ascii) : bool :=
  match l with
  | [] => false
  | c :: r => match r with [] => p c | _ :: _ => lastIs p r end
  end.

(** A class of characters removed from both ends of a text, as [trim] does
    with white space and the sanitiser with underscores. *)
Definition bothEnds (p : ascii -> bool) (l : list ascii) : list ascii :=
  rev (Js.dropWhile p (rev (Js.dropWhile p l))).

(** Whether two underscores stand side by side somewhere in a text. *)
Fixpoint hasDoubleUnderscore (l : list ascii) : bool :=
  match l with
  | [] => false
  | c :: r => (isUnderscore c && firstIs isUnderscore r) || hasDoubleUnderscore r
  end.

(** A text of white space only (the empty text included). *)
Definition blank (s : string) : Prop :=
  Forall (fun c => Js.isWhiteSpace c = true) (Js.chars s).

(** The one configuration under which rendering throws: the document-store
    dialect asked to lower-case a project name that is undefined. *)
Definition fatal (config : Config.t) : bool :=
  String.eqb (Config.databaseType config) "mongodb" &&
  match Config.projectName config with
  | Some _ => false
  | None => true
  end.

Definition isReturned {A} (o : outcome A) : bool :=
  match o with
  | Returned _ => true
  | Thrown _ => false
  end.

Definition returned {A} (o : outcome A) : option A :=
  match o with
  | Returned a => Some a
  | Thrown _ => None
  end.

(** The members of the result of a call, when the call returned one. *)
Definition resultTables (o : outcome SchemaResult.t) : option (list Table.t) :=
  option_map SchemaResult.tables (returned o).
Definition resultTotalFields (o : outcome SchemaResult.t) : option nat :=
  option_map SchemaResult.totalFields (returned o).
Definition resultMetadata (o : outcome SchemaResult.t) : option (Js.object json) :=
  option_map SchemaResult.metadata (returned o).

(** The entry [analyzeFiles] pushes for a file, when the file can be read. *)
Definition contentEntry (JSON_parse : string -> option json)
    (readFile : string -> option string) (fileInfo : FileInfo.t)
  : option (FileInfo.t * Analysis.t) :=
  match readFile (FileInfo.path fileInfo) with
  | Some content => Some (fileInfo, analyzeContent JSON_parse content fileInfo)
  | None => None
  end.

(** The configuration with both feature toggles off. *)
Definition withoutAugmenters (config : Config.t) : Config.t :=
  Config.make (Config.websiteType config) (Config.projectName config)
    (Config.databaseType config) false false (Config.tablePrefix config).

(** The aggregate before the first file. *)
Definition noAnalysis : AnalyzedData.t := AnalyzedData.make [] [] ∅ [].

(** *** Sample worlds

    A [JSON.parse] given by the documents it accepts: a text outside [known]
    is rejected.  A file system given by the files it holds: a path outside
    [files] cannot be read. *)
Definition parseKnown (known : list (string * json)) : string -> option json :=
  fun text => Js.getOwn text known.

Definition diskOf (files : list (string * string)) : string -> option string :=
  fun path => Js.getOwn path files.

(** A [JSON.stringify] for runs that never reach the document-store
    renderer. *)
Definition stringifyUnused : Mongo.schema -> string := fun _ => "".

(** *** Sample inputs *)

Definition goodJson : FileInfo.t :=
  FileInfo.make "/uploads/good.json" "good.json" "application/json" 2 ".json".
Definition badJson : FileInfo.t :=
  FileInfo.make "/uploads/bad.json" "bad.json" "application/json" 1 ".json".
Definition goneJson : FileInfo.t :=
  FileInfo.make "/uploads/gone.json" "gone.json" "application/json" 0 ".json".
Definition pricesCsv : FileInfo.t :=
  FileInfo.make "/uploads/prices.csv" "prices.csv" "text/csv" 23 ".csv".
Definition notesTxt : FileInfo.t :=
  FileInfo.make "/uploads/notes.txt" "notes.txt" "text/plain" 5 ".txt".

(** [good.json] holds an empty object, [bad.json] an object that is never
    closed, and nothing is stored under the path of [gone.json]. *)
Definition sampleDisk : string -> option string :=
  diskOf [ ("/uploads/good.json", "{}");
           ("/uploads/bad.json", "{");
           ("/uploads/prices.csv", "title,price" +:+ Js.LF +:+ "Widget,9.99");
           ("/uploads/notes.txt", "hello") ].

Definition sampleParse : string -> option json :=
  parseKnown [ ("{}", JObject []) ].

Definition sampleNow : string := "2026-01-01T00:00:00.000Z".

Definition storefront : Config.t :=
  Config.make "ecommerce" (Some "Shop") "mysql" false false "".
Definition customSite : Config.t :=
  Config.make "custom" (Some "Site") "postgresql" true true "app_".
Definition namelessStore : Config.t :=
  Config.make "blog" None "mongodb" false false "".

Definition ordersTable : Table.t :=
  Table.make "orders"
    [ identity (column "id" TInteger true);
      uniq (len 50 (column "order_number" TString true));
      column "customer_id" TInteger false;
      dflt (LString "pending") (len 20 (column "status" TString true)) ].

(** ** Vocabulary of the further properties *)

(** Whether a key is an array index, and the order of two keys that are. *)
Definition isArrayIndex (k : string) : bool :=
  match Js.arrayIndex k with
  | Some _ => true
  | None => false
  end.

Definition byIndex (a b : string) : Prop :=
  match Js.arrayIndex a, Js.arrayIndex b with
  | Some m, Some n => (m < n)%N
  | _, _ => False
  end.

(** [o] is the object whose properties are [entries], created in that
    order: read by enumeration, it holds the entries under an array index
    first, by ascending index, and then the others, as they were created. *)
Definition enumerationOf {V} (entries o : Js.object V) : Prop :=
  exists indices,
    o = (indices ++ List.filter (fun kv => negb (isArrayIndex (fst kv))) entries)%list /\
    StronglySorted (fun a b => byIndex (fst a) (fst b)) indices /\
    forall kv, In kv indices <-> In kv entries /\ isArrayIndex (fst kv) = true.

(** A descriptor [{type, required: false}]. *)
Definition optionalPlain (kv : string * shape) : Prop :=
  exists t, snd kv = Plain t false.

(** The number of [childStructure] levels below a descriptor, and below a
    structure. *)
Fixpoint nesting (sh : shape) : nat :=
  match sh with
  | Plain _ _ => 0
  | Relation _ None => 0
  | Relation _ (Some child) =>
      S (list_max (map (fun kv : string * shape => nesting (snd kv)) child))
  end.

Definition structureNesting (st : option structure) : nat :=
  match st with
  | None => 0
  | Some fields => list_max (map (fun kv : string * shape => nesting (snd kv)) fields)
  end.

(** The number of nodes of a parsed document. *)
Fixpoint jsonSize (j : json) : nat :=
  match j with
  | JValue _ => 1
  | JArray items => S (list_sum (map jsonSize items))
  | JObject entries =>
      S (list_sum (map (fun kv : string * json => jsonSize (snd kv)) entries))
  end.

#[global] Instance PrimitiveType_eq_dec : EqDecision PrimitiveType.
Proof. solve_decision. Defined.

(** What every field of the catalogue satisfies: a name the sanitiser leaves
    alone, a type every dialect maps, and the primary key and auto-increment
    marks on the column [id] and on no other. *)
Definition catalogField (f : Field.t) : Prop :=
  sanitizeFieldName (Field.name f) = Field.name f /\
  In (Field.type f) [TInteger; TString; TText; TBoolean; TDate; TTimestamp; TDecimal] /\
  Field.primaryKey f = Field.autoIncrement f /\
  (Field.primaryKey f = true <-> Field.name f = "id").

#[global] Instance catalogField_dec (f : Field.t) : Decision (catalogField f).
Proof. unfold catalogField. apply _. Defined.

(** A configuration with another domain tag, or another dialect tag. *)
Definition withWebsiteType (websiteType : string) (config : Config.t) : Config.t :=
  Config.make websiteType (Config.projectName config) (Config.databaseType config)
    (Config.includeImages config) (Config.includeMetadata config)
    (Config.tablePrefix config).

Definition withDatabaseType (databaseType : string) (config : Config.t) : Config.t :=
  Config.make (Config.websiteType config) (Config.projectName config) databaseType
    (Config.includeImages config) (Config.includeMetadata config)
    (Config.tablePrefix config).

(** ** The upload form (app.js)

    The list [selectedFiles] of the page, and the two functions that change
    it.  Of a browser [File] the code reads the name and the size. *)

Module BrowserFile.
Record t : Type := make {
  name : string;
  size : nat
}.
End BrowserFile.

Section UploadForm.
Import Js.

Definition validExtensions : list string :=
  ["pdf"; "doc"; "docx"; "txt"; "json"; "xml"; "csv"; "md"].

(** [file.name.split('.').pop().toLowerCase()] *)
Definition lastSegment (name : string) : string :=
  toLowerCase (List.last (split "."%char name) "").

Definition isValidFile (file : BrowserFile.t) : bool :=
  existsb (String.eqb (lastSegment (BrowserFile.name file))) validExtensions.

(** [f.name === file.name && f.size === file.size] *)
Definition sameFile (f file : BrowserFile.t) : bool :=
  String.eqb (BrowserFile.name f) (BrowserFile.name file) &&
  (BrowserFile.size f =? BrowserFile.size file)%nat.

Definition addFiles (files selectedFiles : list BrowserFile.t) : list BrowserFile.t :=
  let validFiles := List.filter isValidFile files in
  fold_left
    (fun selectedFiles file =>
       if existsb (fun f => sameFile f file) selectedFiles then selectedFiles
       else (selectedFiles ++ [file])%list)
    validFiles selectedFiles.

(** [selectedFiles.splice(index, 1)] for an index the page wrote into a
    Remove button, which is never negative. *)
Definition removeFile (index : nat) (selectedFiles : list BrowserFile.t)
  : list BrowserFile.t :=
  (firstn index selectedFiles ++ skipn (S index) selectedFiles)%list.

End UploadForm.

(** ** The request handler (server.js) *)

Module Upload.
(** A file as the upload middleware leaves it on disk. *)
Record t : Type := make {
  path : string;
  originalname : string;
  mimetype : string;
  size : nat
}.
End Upload.

(** A value of the parsed form.  The upload middleware gives a text for a
    field sent once under a plain name, an array for a name sent more than
    once and an object for a name in brackets; it gives nothing else. *)
Inductive formValue : Type :=
  | FText (s : string)
  | FArray (items : list formValue)
  | FObject (entries : list (string * formValue)).

Module Body.
(** The form fields the handler or the generator goes on to read; a field
    is [None] when the request does not have it.  The handler copies four
    more fields into the configuration (inputMethod, generateAPI,
    autoRelations and encoding) without converting them, and nothing
    reads them. *)
Record t : Type := make {
  websiteType : option formValue;
  projectName : option formValue;
  databaseType : option formValue;
  includeImages : option formValue;
  includeMetadata : option formValue;
  tablePrefix : option formValue;
  maxFileSize : option formValue
}.
End Body.

Module Request.
Record t : Type := make {
  files : option (list Upload.t);
  body : Body.t
}.
End Request.

(** The three responses of the handler.  A [ServerError] is sent with the
    message of the error that was thrown; [thrown] names that error, the
    text of its message is the engine's. *)
Inductive response : Type :=
  | BadRequest (error message : string)
  | Success (projectName : option string) (databaseType : string) (schema : string)
            (tables : list Table.t) (totalFields : nat) (metadata : Js.object json)
            (timestamp : string)
  | ServerError (error thrown : string).

(** The text a form value is, when it is one. *)
Definition text (v : option formValue) : option string :=
  match v with
  | Some (FText s) => Some s
  | _ => None
  end.

Definition isText (v : option formValue) : bool :=
  match v with
  | Some (FArray _) | Some (FObject _) => false
  | _ => true
  end.

(** [v || d]: absent and the empty text are falsy. *)
Definition orText (v : option string) (d : string) : string :=
  match v with
  | Some s => if String.eqb s "" then d else s
  | None => d
  end.

(** [v === 'true'] *)
Definition isTrueText (v : option formValue) : bool :=
  match v with
  | Some (FText s) => String.eqb s "true"
  | _ => false
  end.

(** The forms on which this program alone determines the response.  An
    array or an object is converted to a text by [parseInt] when it is the
    maxFileSize, by [+] in [tableName] when it is the tablePrefix and by the
    header template of the three SQL renderers when it is the projectName,
    and it is sent back as it is when it is the databaseType; what such a
    value converts to, and whether the conversion throws, is the
    middleware's.  Under the document-store dialect the projectName is not
    converted: the renderer calls its [toLowerCase], which an array or an
    object does not have, so that the call throws a [TypeError] as it does
    on [undefined]. *)
Definition plainForm (body : Body.t) : bool :=
  isText (Body.databaseType body) && isText (Body.tablePrefix body) &&
  isText (Body.maxFileSize body) &&
  (isText (Body.projectName body) ||
   String.eqb (orText (text (Body.databaseType body)) "mysql") "mongodb").

(** The configuration object of the handler, as the generator reads it on a
    plain form.  A [websiteType] that is not a text matches no case of the
    generator's switch, like the empty text that stands for it here; a
    [projectName] that is not a text stands as [undefined] does, see
    [plainForm]. *)
Definition extractConfig (body : Body.t) : Config.t :=
  Config.make
    (match text (Body.websiteType body) with Some s => s | None => "" end)
    (text (Body.projectName body))
    (orText (text (Body.databaseType body)) "mysql")
    (isTrueText (Body.includeImages body))
    (isTrueText (Body.includeMetadata body))
    (orText (text (Body.tablePrefix body)) "").

Section Server.
Variable JSON_parse : string -> option json.
Variable JSON_stringify : Mongo.schema -> string.

(** [path.extname] *)
Variable extname : string -> string.

(** Whether [fs.unlink] succeeds on a path that is on the disk; on a path
    that is not there it is rejected. *)
Variable canUnlink : string -> bool.

Definition toFileInfo (file : Upload.t) : FileInfo.t :=
  FileInfo.make (Upload.path file) (Upload.originalname file) (Upload.mimetype file)
    (Upload.size file) (Js.toLowerCase (extname (Upload.originalname file))).

(** [cleanupFiles]: every unlink has a [catch] of its own, so a rejected
    one is logged and the others still run; they delete different entries
    or the same one, so the order in which they complete does not show. *)
Definition unlink (disk : gmap string string) (file : Upload.t) : gmap string string :=
  if canUnlink (Upload.path file) then delete (Upload.path file) disk else disk.

Definition cleanupFiles (files : list Upload.t) (disk : gmap string string)
  : gmap string string :=
  fold_left unlink files disk.

(** The handler of [POST /api/generate-schema]: the response and the disk
    it leaves.  [now] is the clock read by the renderer, [later] the clock
    read for the response.  Everything after the check of the files runs
    inside one [try] whose [catch] cleans up as the success path does, so
    the disk is the same whatever the form holds; the response is [None]
    on a form that is not plain, where this program does not determine
    it. *)
Definition generateSchemaHandler (req : Request.t) (disk : gmap string string)
    (now later : string) : option response * gmap string string :=
  match Request.files req with
  | None | Some [] =>
      (Some (BadRequest "No files uploaded" "Please upload at least one file"), disk)
  | Some files =>
      let config := extractConfig (Request.body req) in
      let fileInfos := map toFileInfo files in
      let generator := constructor config in
      (if plainForm (Request.body req) then
         match fst (generateFromFiles JSON_parse JSON_stringify
                      (fun path => disk !! path) now generator fileInfos) with
         | Returned schema =>
             Some (Success (Config.projectName config) (Config.databaseType config)
                     (SchemaResult.sql schema) (SchemaResult.tables schema)
                     (SchemaResult.totalFields schema) (SchemaResult.metadata schema)
                     later)
         | Thrown error => Some (ServerError "Schema generation failed" error)
         end
       else None,
       cleanupFiles files disk)
  end.

End Server.

(** A page's list holds no file twice, name and size taken together. *)
Definition distinctFiles (selectedFiles : list BrowserFile.t) : Prop :=
  NoDup (map (fun f => (BrowserFile.name f, BrowserFile.size f)) selectedFiles).

Definition sampleUpload : Upload.t :=
  Upload.make "/uploads/notes.txt" "notes.txt" "text/plain" 5.
Definition strayUpload : Upload.t :=
  Upload.make "/uploads/gone.json" "gone.json" "application/json" 0.

Definition sampleDiskMap : gmap string string :=
  {[ "/uploads/notes.txt" := "hello"; "/etc/hosts" := "localhost" ]}.

Definition sampleBody : Body.t :=
  Body.make (Some (FText "blog")) (Some (FText "Site")) None (Some (FText "true"))
    (Some (FText "on")) None None.

(** A form with the project name sent twice. *)
Definition repeatedName : Body.t :=
  Body.make (Some (FText "blog")) (Some (FArray [FText "Site"; FText "Site"]))
    (Some (FText "mongodb")) None None None None.

(** The files of a request, none when the middleware left no array. *)
Definition uploaded (req : Request.t) : list Upload.t :=
  match Request.files req with
  | Some files => files
  | None => []
  end.

(** The HTTP status a response is sent with; [res.json] alone sends 200. *)
Definition status (r : response) : nat :=
  match r with
  | BadRequest _ _ => 400
  | Success _ _ _ _ _ _ _ => 200
  | ServerError _ _ => 500
  end.

(** Whether some file of the list lies at [path] and can be unlinked. *)
Definition unlinked (canUnlink : string -> bool) (files : list Upload.t)
    (path : string) : bool :=
  existsb (fun file => String.eqb (Upload.path file) path && canUnlink path) files.


(** * The embedding at work

    The reference values of the specification, computed by the embedding. *)

Example inferType_reference_values :
  map inferType
      [ VString "true"; VString "42"; VString "3.14"; VString "2024-01-15";
        VString "2024-01-15T10:00:00"; VString "hello"; VNull; VUndefined;
        VBool false; VNumber "7"; VNumber "0.5"; VString "0x1F"; VString "1e5";
        VString "12abc"; VString "-" ] =
  [ TBoolean; TInteger; TDecimal; TDate; TTimestamp; TString; TString; TString;
    TBoolean; TInteger; TDecimal; TInteger; TInteger; TString; TString ].
Proof. reflexivity. Qed.

Example sanitizeFieldName_reference_values :
  map sanitizeFieldName
      [ "Hello World"; "__a__b__"; "___"; ""; "First-Name!"; "x y  z"; "__proto__" ] =
  [ "hello_world"; "a_b"; ""; ""; "first_name"; "x_y_z"; "proto" ].
Proof. reflexivity. Qed.

Example analyzeCSV_reference_value :
  analyzeCSV ("name,age" +:+ Js.LF +:+ "Alice,30") =
  Some [ ("name", Plain TString false); ("age", Plain TInteger false) ].
Proof. reflexivity. Qed.

Example analyzeXML_first_occurrence_wins :
  analyzeXML "<a>1</a><b>x</b><a>zz</a><c>2</d><constructor>1</constructor>" =
  [ ("a", Plain TInteger false); ("b", Plain TString false) ].
Proof. reflexivity. Qed.

Example analyzeText_reference_value :
  analyzeText "mail me@example.org before 2024-01-15" =
  [ ("title", Plain TString true); ("content", Plain TText true);
    ("excerpt", Plain TText false); ("author_email", Plain TString false);
    ("published_date", Plain TDate false) ].
Proof. reflexivity. Qed.

Example inferStructureFromObject_depth_cap :
  inferStructureFromObject (JArray [JArray [JArray [JObject []]]]) 0 = Some [] /\
  inferStructureFromObject (JArray [JArray [JArray [JArray [JObject []]]]]) 0 = None.
Proof. split; reflexivity. Qed.

(** The end-to-end scenario: one CSV file, the storefront domain and the
    Relational-A dialect. *)
Example storefront_end_to_end :
  option_map (fun r => (map Table.name (SchemaResult.tables r), SchemaResult.totalFields r))
    (returned (fst (generateFromFiles sampleParse stringifyUnused sampleDisk sampleNow
                      (constructor storefront) [pricesCsv]))) =
  Some (["products"; "categories"; "orders"], 24) /\
  mysqlFieldDefinition (identity (column "id" TInteger true)) =
  "  `id` INT NOT NULL AUTO_INCREMENT".
Proof. split; reflexivity. Qed.

(** The fatal configuration: the document-store dialect without a project
    name throws, whatever the files are. *)
Example nameless_document_store_throws :
  fst (generateFromFiles sampleParse stringifyUnused sampleDisk sampleNow
         (constructor namelessStore) [pricesCsv]) = Thrown "TypeError".
Proof. reflexivity. Qed.


(** * Properties *)

(** ** Strings and their character lists *)

Section StringFacts.
Import Js.

Lemma chars_str l : chars (str l) = l.
Proof. apply list_ascii_of_string_of_list_ascii. Qed.

Lemma str_chars s : str (chars s) = s.
Proof. apply string_of_list_ascii_of_string. Qed.

Lemma chars_append s t : chars (s +:+ t) = (chars s ++ chars t)%list.
Proof. induction s as [|c s IH]; simpl; [done | by rewrite <- IH]. Qed.

Lemma dropWhile_head {A} (p : A -> bool) (l : list A) x r :
  dropWhile p l = x :: r -> p x = false.
Proof.
  induction l as [|y l IH]; simpl; [done |].
  destruct (p y) eqn:E; [exact IH | intros [= <- _]; exact E].
Qed.

Lemma dropWhile_all {A} (p : A -> bool) (l : list A) :
  forallb p l = true -> dropWhile p l = [].
Proof.
  induction l as [|x l IH]; simpl; [done |].
  intros [Hx Hl]%andb_prop. rewrite Hx. by apply IH.
Qed.

Lemma dropWhile_suffix {A} (p : A -> bool) (l : list A) :
  exists t, l = (t ++ dropWhile p l)%list.
Proof.
  induction l as [|x l [t IH]]; simpl; [by exists [] |].
  destruct (p x); [exists (x :: t); simpl; by rewrite <- IH | by exists []].
Qed.

Lemma forallb_dropWhile {A} (p q : A -> bool) l :
  forallb p l = true -> forallb p (dropWhile q l) = true.
Proof.
  induction l as [|c l IH]; simpl; [done |].
  intros [Hc Hl]%andb_prop. destruct (q c); [by apply IH | simpl; by rewrite Hc, Hl].
Qed.

Lemma forallb_rev {A} (p : A -> bool) l : forallb p (rev l) = forallb p l.
Proof.
  induction l as [|c l IH]; simpl; [done |].
  rewrite forallb_app, IH. simpl. rewrite andb_true_r. apply andb_comm.
Qed.

(** Removing a class of characters from both ends, as [trim] does for
    white space and the sanitiser for underscores. *)
Section BothEnds.
Variable p : ascii -> bool.

Local Abbreviation strip := (bothEnds p).

Lemma lastIs_snoc l c : lastIs p (l ++ [c]) = p c.
Proof.
  induction l as [|a l IH]; simpl; [done |].
  destruct (l ++ [c])%list eqn:E; [by destruct l | exact IH].
Qed.

Lemma lastIs_rev l : lastIs p (rev l) = firstIs p l.
Proof. destruct l as [|c l]; simpl; [done | apply lastIs_snoc]. Qed.

Lemma firstIs_rev l : firstIs p (rev l) = lastIs p l.
Proof. by rewrite <- lastIs_rev, rev_involutive. Qed.

Lemma strip_last l : lastIs p (strip l) = false.
Proof.
  unfold bothEnds. rewrite lastIs_rev.
  destruct (dropWhile p (rev _)) as [|c r] eqn:E; [done |].
  simpl. by apply dropWhile_head in E.
Qed.

Lemma strip_first l : firstIs p (strip l) = false.
Proof.
  unfold bothEnds.
  destruct (dropWhile_suffix p (rev (dropWhile p l))) as [t Ht].
  apply (f_equal (@rev ascii)) in Ht.
  rewrite rev_involutive, rev_app_distr in Ht.
  destruct (rev (dropWhile p (rev (dropWhile p l)))) as [|c r]; [done |].
  simpl in *. by apply dropWhile_head in Ht.
Qed.

Lemma strip_id l : firstIs p l = false -> lastIs p l = false -> strip l = l.
Proof.
  intros Hf Hl. unfold bothEnds.
  assert (dropWhile p l = l) as -> by (destruct l; simpl in *; by rewrite ?Hf).
  rewrite <- firstIs_rev in Hl.
  assert (dropWhile p (rev l) = rev l) as ->
    by (destruct (rev l); simpl in *; by rewrite ?Hl).
  apply rev_involutive.
Qed.

Lemma strip_strip l : strip (strip l) = strip l.
Proof. apply strip_id; [apply strip_first | apply strip_last]. Qed.
End BothEnds.

Lemma trim_trim s : trim (trim s) = trim s.
Proof.
  unfold trim. rewrite chars_str. f_equal. apply (strip_strip isWhiteSpace).
Qed.

Lemma trim_blank s : blank s -> trim s = "".
Proof.
  intros H. unfold trim, trimChars, trimEndChars, trimStartChars.
  rewrite (dropWhile_all isWhiteSpace (chars s)); [done |].
  unfold blank in H. rewrite List.Forall_forall in H.
  apply forallb_forall. intros c Hc. by apply H.
Qed.
End StringFacts.


(** ** Field-name sanitiser *)

Section SanitizerFacts.
Import Js.

Lemma lowerChar_fieldChar c : isFieldChar c = true -> lowerChar c = c.
Proof. destruct c as [[] [] [] [] [] [] [] []]; vm_compute; congruence. Qed.

Lemma replaceOutside_fieldChars l : forallb isFieldChar (replaceOutside l) = true.
Proof.
  induction l as [|c l IH]; simpl; [done |].
  rewrite IH, andb_true_r. destruct (isFieldChar c) eqn:E; [exact E | reflexivity].
Qed.

Lemma stripUnderscores_fieldChars l :
  forallb isFieldChar l = true -> forallb isFieldChar (stripUnderscores l) = true.
Proof.
  intros H. unfold stripUnderscores.
  rewrite forallb_rev. apply forallb_dropWhile. rewrite forallb_rev.
  by apply forallb_dropWhile.
Qed.

Lemma collapseUnderscores_fieldChars l :
  forallb isFieldChar l = true -> forallb isFieldChar (collapseUnderscores l) = true.
Proof.
  induction l as [|c l IH]; simpl; [done |].
  intros [Hc Hl]%andb_prop.
  destruct (isUnderscore c && _); [by apply IH | simpl; by rewrite Hc, IH].
Qed.

Lemma collapseUnderscores_first l :
  firstIs isUnderscore l = false ->
  firstIs isUnderscore (collapseUnderscores l) = false.
Proof.
  destruct l as [|c l]; simpl; [done |]. intros E. rewrite E. simpl. exact E.
Qed.

Lemma collapseUnderscores_nil l : collapseUnderscores l = [] -> l = [].
Proof.
  induction l as [|c l IH]; simpl; [done |].
  destruct (isUnderscore c && _) eqn:E; [| done].
  intros H. apply IH in H. subst l. by rewrite andb_false_r in E.
Qed.

(** A run keeps its last underscore, so the last character stays. *)
Lemma collapseUnderscores_last l :
  lastIs isUnderscore (collapseUnderscores l) = lastIs isUnderscore l.
Proof.
  induction l as [|c l IH]; simpl; [done |].
  destruct l as [|c' l].
  - by rewrite andb_false_r.
  - destruct (isUnderscore c && _); [exact IH |].
    cbn [lastIs].
    destruct (collapseUnderscores (c' :: l)) eqn:E; [| exact IH].
    by apply collapseUnderscores_nil in E.
Qed.

Lemma collapseUnderscores_single l :
  hasDoubleUnderscore (collapseUnderscores l) = false.
Proof.
  induction l as [|c l IH]; simpl; [done |].
  destruct (isUnderscore c) eqn:Ec; simpl.
  - destruct (firstIs isUnderscore l) eqn:El.
    + destruct l; [done |]. simpl in El. rewrite El. exact IH.
    + assert (match l with c' :: _ => isUnderscore c' | [] => false end = false) as ->
        by (by destruct l).
      simpl. rewrite Ec, IH. simpl.
      by rewrite (collapseUnderscores_first l El).
  - simpl. by rewrite Ec, IH.
Qed.

(** On a text that already has the shape, every stage is the identity. *)
Lemma map_lowerChar_id l : forallb isFieldChar l = true -> map lowerChar l = l.
Proof.
  induction l as [|c l IH]; simpl; [done |].
  intros [Hc Hl]%andb_prop. by rewrite lowerChar_fieldChar, IH.
Qed.

Lemma replaceOutside_id l : forallb isFieldChar l = true -> replaceOutside l = l.
Proof.
  unfold replaceOutside. induction l as [|c l IH]; simpl; [done |].
  intros [Hc Hl]%andb_prop. rewrite Hc. f_equal. by apply IH.
Qed.

Lemma collapseUnderscores_id l :
  hasDoubleUnderscore l = false -> collapseUnderscores l = l.
Proof.
  induction l as [|c l IH]; simpl; [done |].
  intros [H1 H2]%orb_false_elim.
  assert (isUnderscore c && match l with c' :: _ => isUnderscore c' | [] => false end = false)
    as -> by (by destruct l).
  by rewrite IH.
Qed.

Lemma sanitizeChars_shape l :
  forallb isFieldChar (sanitizeChars l) = true /\
  firstIs isUnderscore (sanitizeChars l) = false /\
  lastIs isUnderscore (sanitizeChars l) = false /\
  hasDoubleUnderscore (sanitizeChars l) = false.
Proof.
  unfold sanitizeChars. repeat split.
  - apply collapseUnderscores_fieldChars, stripUnderscores_fieldChars,
      replaceOutside_fieldChars.
  - apply collapseUnderscores_first, (strip_first isUnderscore).
  - rewrite collapseUnderscores_last. apply (strip_last isUnderscore).
  - apply collapseUnderscores_single.
Qed.

Lemma sanitizeChars_fixed l :
  forallb isFieldChar l = true -> firstIs isUnderscore l = false ->
  lastIs isUnderscore l = false -> hasDoubleUnderscore l = false ->
  sanitizeChars l = l.
Proof.
  intros H1 H2 H3 H4. unfold sanitizeChars.
  rewrite map_lowerChar_id, replaceOutside_id by done.
  change (stripUnderscores l) with (bothEnds isUnderscore l).
  rewrite (strip_id isUnderscore) by done.
  by apply collapseUnderscores_id.
Qed.

(** The underscore conditions, read off the text itself. *)
Lemma lastIs_underscore_append front :
  lastIs isUnderscore (chars (front +:+ "_")) = true.
Proof. rewrite chars_append. apply lastIs_snoc. Qed.

Lemma hasDoubleUnderscore_app l1 l2 :
  hasDoubleUnderscore l2 = true -> hasDoubleUnderscore (l1 ++ l2) = true.
Proof.
  intros H. induction l1 as [|c l1 IH]; simpl; [done |].
  rewrite IH. apply orb_true_r.
Qed.

Lemma hasDoubleUnderscore_infix front rest :
  hasDoubleUnderscore (chars (front +:+ "__" +:+ rest)) = true.
Proof. rewrite chars_append. by apply hasDoubleUnderscore_app. Qed.

(** A sanitised name never is [__proto__], so the analysers' stores always
    take it as an own key. *)
Lemma sanitizeFieldName_not_proto name :
  String.eqb (sanitizeFieldName name) "__proto__" = false.
Proof.
  destruct (String.eqb_spec (sanitizeFieldName name) "__proto__") as [E|]; [| done].
  destruct (sanitizeChars_shape (chars name)) as (_ & H & _).
  apply (f_equal chars) in E. unfold sanitizeFieldName in E.
  rewrite chars_str in E. rewrite E in H. discriminate.
Qed.
End SanitizerFacts.

(** C5. For every text [x], [sanitizeFieldName x] consists of characters of
    [[a-z0-9_]] only, neither starts nor ends with an underscore, contains
    no two underscores in a row, and is left unchanged by a second pass. *)
Theorem sanitizeFieldName_shape_idempotent (x : string) :
  Forall (fun c => isFieldChar c = true) (Js.chars (sanitizeFieldName x)) /\
  (forall rest, sanitizeFieldName x = String "_" rest -> False) /\
  (forall front, sanitizeFieldName x = front +:+ "_" -> False) /\
  (forall front rest, sanitizeFieldName x = front +:+ "__" +:+ rest -> False) /\
  sanitizeFieldName (sanitizeFieldName x) = sanitizeFieldName x.
Proof.
  destruct (sanitizeChars_shape (Js.chars x)) as (H1 & H2 & H3 & H4).
  unfold sanitizeFieldName. repeat split.
  - rewrite chars_str. apply List.Forall_forall. intros c Hc.
    rewrite forallb_forall in H1. by apply H1.
  - intros rest E. apply (f_equal Js.chars) in E. rewrite chars_str in E.
    rewrite E in H2. discriminate.
  - intros front E. apply (f_equal Js.chars) in E. rewrite chars_str in E.
    rewrite E, lastIs_underscore_append in H3. discriminate.
  - intros front rest E. apply (f_equal Js.chars) in E. rewrite chars_str in E.
    rewrite E, hasDoubleUnderscore_infix in H4. discriminate.
  - rewrite chars_str. by rewrite sanitizeChars_fixed.
Qed.

(** The sanitiser at work on a header with capitals, blanks, punctuation and
    underscores at both ends. *)
Lemma sanitizeFieldName_shape_idempotent_witness :
  sanitizeFieldName "__First  Name!_" = "first_name" /\
  (forall front, sanitizeFieldName "__First  Name!_" = front +:+ "_" -> False) /\
  sanitizeFieldName (sanitizeFieldName "__First  Name!_") =
  sanitizeFieldName "__First  Name!_".
Proof.
  split; [reflexivity |].
  split; apply (sanitizeFieldName_shape_idempotent "__First  Name!_").
Defined.


(** ** Type inferencer *)

Section InferTypeFacts.
Import Js.

(** [inferType] reads its argument through [trim]. *)
Lemma inferType_trim s : inferType (VString (trim s)) = inferType (VString s).
Proof. unfold inferType. simpl. by rewrite trim_trim. Qed.

(** The branches of [inferType] below the boolean test never answer
    [boolean]. *)
Lemma inferType_boolean_inv s :
  inferType (VString s) = TBoolean -> trim s = "true" \/ trim s = "false".
Proof.
  unfold inferType. simpl.
  destruct (String.eqb_spec (trim s) "true") as [E1|_]; [by left |].
  destruct (String.eqb_spec (trim s) "false") as [E2|_]; [by right |].
  simpl. repeat (match goal with |- context [if ?b then _ else _] => destruct b end);
    discriminate.
Qed.

(** The empty text is a number for [Number] and none for [parseFloat]. *)
Lemma empty_coercions :
  Numeric.isNaN "" = false /\ Numeric.parseFloatIsNaN "" = true.
Proof. split; reflexivity. Qed.
End InferTypeFacts.

(** C2, as amended.  [inferType] answers [boolean] for exactly the texts
    that, once trimmed, are [true] or [false] letter for letter: the
    comparison is case-sensitive. *)
Theorem inferType_boolean_exact (s : string) :
  inferType (VString s) = TBoolean <->
  (Js.trim s = "true" \/ Js.trim s = "false").
Proof.
  split; [apply inferType_boolean_inv |].
  unfold inferType. simpl. intros [-> | ->]; reflexivity.
Qed.

Lemma inferType_boolean_exact_witness :
  inferType (VString "true") = TBoolean /\ inferType (VString " false ") = TBoolean.
Proof.
  split; apply inferType_boolean_exact; [left | right]; reflexivity.
Defined.

(** C2, as stated, fails: [TRUE] and [False] are classified as [string]. *)
Lemma inferType_boolean_counterexample :
  inferType (VString "TRUE") = TString /\ inferType (VString "False") = TString.
Proof. split; reflexivity. Qed.

(** C9.  A text of white space only, the empty text included, trims to the
    empty text, fails the numeric test and is classified as [string];
    [inferType] sees every text through [trim], so [" 42 "] is an
    [integer]. *)
Theorem inferType_blank_is_string (s : string) :
  blank s ->
  Js.trim s = "" /\
  looksNumeric (Js.trim s) = false /\
  inferType (VString s) = TString /\
  inferType (VString "") = TString /\
  inferType (VString " 42 ") = TInteger /\
  (forall t, inferType (VString t) = inferType (VString (Js.trim t))).
Proof.
  intros H. apply trim_blank in H. rewrite H.
  repeat split; try reflexivity.
  - unfold inferType. simpl. by rewrite H.
  - intros t. by rewrite inferType_trim.
Qed.

Lemma inferType_blank_is_string_witness :
  blank "   " /\ inferType (VString "   ") = TString.
Proof.
  assert (blank "   ") as H by (repeat constructor).
  split; [exact H | apply (inferType_blank_is_string "   " H)].
Defined.


(** ** Analysis of the uploaded files *)

Section AnalysisFacts.
Variable JSON_parse : string -> option json.
Variable readFile : string -> option string.

(** No analyser writes [analysis.fields]. *)
Lemma analyzeContent_fields content fileInfo :
  Analysis.fields (analyzeContent JSON_parse content fileInfo) = [].
Proof.
  unfold analyzeContent.
  repeat (match goal with |- context [if ?b then _ else _] => destruct b end);
    reflexivity.
Qed.

Lemma analyzeFile_commonFields analyzedData fileInfo :
  AnalyzedData.commonFields (analyzeFile JSON_parse readFile analyzedData fileInfo) =
  AnalyzedData.commonFields analyzedData.
Proof.
  unfold analyzeFile. destruct (readFile _) as [content|]; [| done].
  simpl. by rewrite analyzeContent_fields.
Qed.

Lemma analyzeFile_content analyzedData fileInfo :
  AnalyzedData.content (analyzeFile JSON_parse readFile analyzedData fileInfo) =
  (AnalyzedData.content analyzedData ++
   match contentEntry JSON_parse readFile fileInfo with
   | Some entry => [entry]
   | None => []
   end)%list.
Proof.
  unfold analyzeFile, contentEntry.
  destruct (readFile _) as [content|]; simpl; [done | by rewrite app_nil_r].
Qed.

Lemma analyzeFiles_from analyzedData fileInfos :
  let final := fold_left (analyzeFile JSON_parse readFile) fileInfos analyzedData in
  AnalyzedData.commonFields final = AnalyzedData.commonFields analyzedData /\
  AnalyzedData.content final =
  (AnalyzedData.content analyzedData ++
   omap (contentEntry JSON_parse readFile) fileInfos)%list.
Proof.
  revert analyzedData. induction fileInfos as [|f fileInfos IH]; intros a; simpl.
  - by rewrite app_nil_r.
  - destruct (IH (analyzeFile JSON_parse readFile a f)) as [IH1 IH2].
    rewrite IH1, IH2, analyzeFile_commonFields, analyzeFile_content.
    split; [done |].
    rewrite <- app_assoc. by destruct (contentEntry _ _ f).
Qed.

Lemma analyzeFiles_commonFields fileInfos :
  AnalyzedData.commonFields (analyzeFiles JSON_parse readFile fileInfos) = ∅.
Proof. apply (analyzeFiles_from noAnalysis fileInfos). Qed.

Lemma analyzeFiles_content fileInfos :
  AnalyzedData.content (analyzeFiles JSON_parse readFile fileInfos) =
  omap (contentEntry JSON_parse readFile) fileInfos.
Proof. apply (analyzeFiles_from noAnalysis fileInfos). Qed.
End AnalysisFacts.

(** ** Table set *)

Section StructureFacts.
Variable config : Config.t.

(** The table set is appended to what the generator holds, and no template
    looks at the analysis. *)
Lemma generateStructure_appends analyzedData tables :
  generateStructure config analyzedData tables =
  (tables ++ generateStructure config noAnalysis [])%list.
Proof.
  unfold generateStructure.
  repeat (match goal with |- context [if ?b then _ else _] => destruct b end);
    unfold generateBlogStructure, generatePortfolioStructure,
      generateEcommerceStructure, generateDocumentationStructure,
      generateCorporateStructure, generateCustomStructure,
      addMetadataTables, addMediaTables;
    rewrite <- ?app_assoc; reflexivity.
Qed.

Lemma countFields_from tables n :
  fold_left (fun sum table => sum + length (Table.fields table)) tables n =
  n + countFields tables.
Proof.
  unfold countFields. revert n.
  induction tables as [|t tables IH]; intros n; simpl; [lia |].
  rewrite IH, (IH (length _)). lia.
Qed.

Lemma countFields_app tables1 tables2 :
  countFields (tables1 ++ tables2) = countFields tables1 + countFields tables2.
Proof.
  unfold countFields at 1. rewrite fold_left_app, countFields_from.
  reflexivity.
Qed.

(** The table set is never empty and always has fields. *)
Lemma generateStructure_fields :
  0 < countFields (generateStructure config noAnalysis []).
Proof.
  unfold generateStructure.
  repeat (match goal with |- context [if ?b then _ else _] => destruct b end);
    vm_compute; lia.
Qed.
End StructureFacts.

(** ** Rendering *)

Section RenderingFacts.
Variable JSON_stringify : Mongo.schema -> string.
Variable config : Config.t.
Variable now : string.

(** Rendering throws under the fatal configuration and under no other. *)
Lemma generateSQL_returns tables :
  isReturned (generateSQL JSON_stringify config now tables) = negb (fatal config).
Proof.
  unfold generateSQL, fatal, generateMongoDBSchema, mongoSchema.
  destruct (String.eqb_spec (Config.databaseType config) "mysql") as [->|]; [done |].
  destruct (String.eqb_spec (Config.databaseType config) "postgresql") as [->|]; [done |].
  destruct (String.eqb_spec (Config.databaseType config) "sqlite") as [->|]; [done |].
  destruct (String.eqb (Config.databaseType config) "mongodb"); [| done].
  by destruct (Config.projectName config).
Qed.
End RenderingFacts.


(** ** The pipeline *)

Section PipelineFacts.
Variable JSON_parse : string -> option json.
Variable JSON_stringify : Mongo.schema -> string.
Variable readFile : string -> option string.
Variable now : string.

Local Abbreviation run := (generateFromFiles JSON_parse JSON_stringify readFile now).

(** What a call leaves on the generator. *)
Lemma generateFromFiles_state this fileInfos :
  snd (run this fileInfos) =
  SchemaGenerator.make (SchemaGenerator.config this)
    (SchemaGenerator.tables this ++
     generateStructure (SchemaGenerator.config this) noAnalysis [])
    (SchemaGenerator.relationships this) (SchemaGenerator.metadata this).
Proof.
  unfold generateFromFiles. rewrite generateStructure_appends.
  simpl. by destruct (generateSQL _ _ _ _).
Qed.

(** What a call hands back. *)
Lemma generateFromFiles_outcome this fileInfos :
  let config := SchemaGenerator.config this in
  let tables := (SchemaGenerator.tables this ++
                 generateStructure config noAnalysis [])%list in
  fst (run this fileInfos) =
  match generateSQL JSON_stringify config now tables with
  | Returned sql =>
      Returned (SchemaResult.make sql tables (countFields tables)
                  (SchemaGenerator.metadata this) (SchemaGenerator.relationships this))
  | Thrown e => Thrown e
  end.
Proof.
  unfold generateFromFiles. rewrite generateStructure_appends.
  simpl. by destruct (generateSQL _ _ _ _).
Qed.

Lemma generateFromFiles_returns this fileInfos :
  isReturned (fst (run this fileInfos)) = negb (fatal (SchemaGenerator.config this)).
Proof.
  rewrite generateFromFiles_outcome. cbv zeta.
  rewrite <- (generateSQL_returns JSON_stringify _ now
                (SchemaGenerator.tables this ++
                 generateStructure (SchemaGenerator.config this) noAnalysis [])).
  by destruct (generateSQL _ _ _ _).
Qed.

Lemma generateFromFiles_members this fileInfos :
  let config := SchemaGenerator.config this in
  let tables := (SchemaGenerator.tables this ++
                 generateStructure config noAnalysis [])%list in
  resultTables (fst (run this fileInfos)) =
    (if fatal config then None else Some tables) /\
  resultTotalFields (fst (run this fileInfos)) =
    (if fatal config then None else Some (countFields tables)) /\
  resultMetadata (fst (run this fileInfos)) =
    (if fatal config then None else Some (SchemaGenerator.metadata this)).
Proof.
  intros config tables.
  pose proof (generateFromFiles_returns this fileInfos) as R.
  rewrite generateFromFiles_outcome in *. cbv zeta in *. fold config tables in R |- *.
  unfold resultTables, resultTotalFields, resultMetadata.
  destruct (generateSQL _ _ _ _); simpl in *; destruct (fatal config); done.
Qed.
End PipelineFacts.


(** C1.  The tables of the result are the tables the generator held before
    the call followed by the table set of its configuration: two calls that
    differ in the files, their contents and the time of the call, hand back
    the same tables (or both throw, under the fatal configuration). *)
Theorem tables_depend_on_configuration_only
    (JSON_parse : string -> option json) (JSON_stringify : Mongo.schema -> string)
    (this : SchemaGenerator.t)
    (readFile1 readFile2 : string -> option string) (now1 now2 : string)
    (files1 files2 : list FileInfo.t) :
  resultTables
    (fst (generateFromFiles JSON_parse JSON_stringify readFile1 now1 this files1)) =
  resultTables
    (fst (generateFromFiles JSON_parse JSON_stringify readFile2 now2 this files2)) /\
  resultTables
    (fst (generateFromFiles JSON_parse JSON_stringify readFile1 now1 this files1)) =
  (if fatal (SchemaGenerator.config this) then None
   else Some (SchemaGenerator.tables this ++
              generateStructure (SchemaGenerator.config this) noAnalysis [])%list).
Proof.
  destruct (generateFromFiles_members JSON_parse JSON_stringify readFile1 now1 this files1)
    as (T1 & _).
  destruct (generateFromFiles_members JSON_parse JSON_stringify readFile2 now2 this files2)
    as (T2 & _).
  cbv zeta in T1, T2. by rewrite T1, T2.
Qed.

(** C10.  The set of common fields is empty after any analysis, every
    analysis that is kept has an empty [fields] object, and the [metadata]
    of the result of a new generator is the empty object. *)
Theorem nothing_of_the_analysis_reaches_the_caller
    (JSON_parse : string -> option json) (JSON_stringify : Mongo.schema -> string)
    (readFile : string -> option string) (now : string)
    (config : Config.t) (fileInfos : list FileInfo.t) :
  AnalyzedData.commonFields (analyzeFiles JSON_parse readFile fileInfos) = ∅ /\
  Forall (fun entry => Analysis.fields (snd entry) = [])
         (AnalyzedData.content (analyzeFiles JSON_parse readFile fileInfos)) /\
  resultMetadata
    (fst (generateFromFiles JSON_parse JSON_stringify readFile now
            (constructor config) fileInfos)) =
  (if fatal config then None else Some []).
Proof.
  split; [apply analyzeFiles_commonFields |]. split.
  - rewrite analyzeFiles_content.
    apply Forall_forall. intros entry (f & _ & E)%list_elem_of_omap.
    unfold contentEntry in E. destruct (readFile _); [| done].
    injection E as <-. apply analyzeContent_fields.
  - by destruct (generateFromFiles_members JSON_parse JSON_stringify readFile now
                   (constructor config) fileInfos) as (_ & _ & ->).
Qed.

(** C4, as amended.  The aggregate holds one entry for every file that can
    be read, in the order of the files: a file that cannot be read leaves no
    entry, a [.json] file that cannot be parsed keeps its entry, with a null
    structure, and the files after either are analysed all the same.  The
    call returns a result unless the configuration is the fatal one,
    whatever the files are. *)
Theorem file_failures_do_not_fail_the_run
    (JSON_parse : string -> option json) (JSON_stringify : Mongo.schema -> string)
    (readFile : string -> option string) (now : string)
    (this : SchemaGenerator.t) (fileInfos : list FileInfo.t) :
  let content := AnalyzedData.content (analyzeFiles JSON_parse readFile fileInfos) in
  content = omap (contentEntry JSON_parse readFile) fileInfos /\
  (forall f, readFile (FileInfo.path f) = None -> In f (map fst content) -> False) /\
  (forall f text, In f fileInfos -> readFile (FileInfo.path f) = Some text ->
     In (f, analyzeContent JSON_parse text f) content) /\
  (forall f text, FileInfo.extension f = ".json" -> JSON_parse text = None ->
     analyzeContent JSON_parse text f = Analysis.make [] "structured" false None) /\
  isReturned
    (fst (generateFromFiles JSON_parse JSON_stringify readFile now this fileInfos)) =
  negb (fatal (SchemaGenerator.config this)).
Proof.
  intros content.
  assert (content = omap (contentEntry JSON_parse readFile) fileInfos) as E.
  { apply analyzeFiles_content. }
  split; [exact E |]. rewrite E. repeat split.
  - intros f Hnone (entry & <- & Hin)%in_map_iff.
    apply list_elem_of_In, list_elem_of_omap in Hin as (f' & _ & Hf').
    unfold contentEntry in Hf'. destruct (readFile (FileInfo.path f')) eqn:R; [| done].
    injection Hf' as <-. simpl in Hnone. congruence.
  - intros f text Hin Hread. apply list_elem_of_In, list_elem_of_omap.
    exists f. split; [by apply list_elem_of_In |].
    unfold contentEntry. by rewrite Hread.
  - intros f text Hext Hparse. unfold analyzeContent, analyzeJSON.
    by rewrite Hext, Hparse.
  - apply generateFromFiles_returns.
Qed.

Lemma file_failures_do_not_fail_the_run_witness :
  (In goneJson
      (map fst (AnalyzedData.content
                  (analyzeFiles sampleParse sampleDisk [goneJson; badJson; goodJson]))) ->
   False) /\
  In (badJson, Analysis.make [] "structured" false None)
     (AnalyzedData.content (analyzeFiles sampleParse sampleDisk [goneJson; badJson; goodJson])) /\
  In (goodJson, Analysis.make [] "structured" false (Some []))
     (AnalyzedData.content (analyzeFiles sampleParse sampleDisk [goneJson; badJson; goodJson])) /\
  isReturned
    (fst (generateFromFiles sampleParse stringifyUnused sampleDisk sampleNow
            (constructor storefront) [goneJson; badJson; goodJson])) = true.
Proof.
  destruct (file_failures_do_not_fail_the_run sampleParse stringifyUnused sampleDisk
              sampleNow (constructor storefront) [goneJson; badJson; goodJson])
    as (_ & Hgone & Hkept & _ & Hret).
  split; [exact (Hgone goneJson eq_refl) |].
  split; [exact (Hkept badJson "{" (or_intror (or_introl eq_refl)) eq_refl) |].
  split; [exact (Hkept goodJson "{}" (or_intror (or_intror (or_introl eq_refl))) eq_refl) |].
  exact Hret.
Defined.

(** C4, as stated, fails: the entry of a [.json] file that cannot be parsed
    stays in the aggregate. *)
Lemma unparsable_file_stays_in_the_aggregate :
  AnalyzedData.content (analyzeFiles sampleParse sampleDisk [goneJson; badJson; goodJson]) =
  [ (badJson, Analysis.make [] "structured" false None);
    (goodJson, Analysis.make [] "structured" false (Some [])) ].
Proof. reflexivity. Qed.


(** C6, as amended.  A call on a new generator hands back the same tables
    and the same field count whenever the configuration is the same, and
    the same result altogether when the clock reads the same, which makes
    runs on generators of their own independent and repeatable.  A second
    call on the same generator starts from the tables the first one left:
    its result holds them twice, and its field count is twice the first. *)
Theorem runs_on_one_generator_accumulate
    (JSON_parse : string -> option json) (JSON_stringify : Mongo.schema -> string)
    (config : Config.t)
    (readFile1 readFile2 : string -> option string) (now1 now2 : string)
    (files1 files2 : list FileInfo.t) :
  let first :=
    generateFromFiles JSON_parse JSON_stringify readFile1 now1 (constructor config) files1 in
  let again :=
    generateFromFiles JSON_parse JSON_stringify readFile2 now2 (snd first) files2 in
  let fresh :=
    generateFromFiles JSON_parse JSON_stringify readFile2 now2 (constructor config) files2 in
  (resultTables (fst fresh) = resultTables (fst first) /\
   resultTotalFields (fst fresh) = resultTotalFields (fst first) /\
   (now1 = now2 -> fst fresh = fst first)) /\
  (resultTables (fst again) =
     option_map (fun tables => tables ++ tables)%list (resultTables (fst first)) /\
   resultTotalFields (fst again) =
     option_map (fun n => n + n) (resultTotalFields (fst first)) /\
   SchemaGenerator.tables (snd again) =
     (SchemaGenerator.tables (snd first) ++ SchemaGenerator.tables (snd first))%list).
Proof.
  intros first again fresh.
  destruct (generateFromFiles_members JSON_parse JSON_stringify readFile1 now1
              (constructor config) files1) as (T1 & N1 & _).
  destruct (generateFromFiles_members JSON_parse JSON_stringify readFile2 now2
              (constructor config) files2) as (T3 & N3 & _).
  destruct (generateFromFiles_members JSON_parse JSON_stringify readFile2 now2
              (snd first) files2) as (T2 & N2 & _).
  pose proof (generateFromFiles_state JSON_parse JSON_stringify readFile1 now1
                (constructor config) files1) as S1.
  pose proof (generateFromFiles_state JSON_parse JSON_stringify readFile2 now2
                (snd first) files2) as S2.
  fold first in T1, N1, S1, T2, N2, S2. fold again in T2, N2, S2. fold fresh in T3, N3.
  cbv zeta in *. rewrite S1 in T2, N2, S2. simpl in *.
  split; [split; [| split] | split; [| split]].
  - by rewrite T1, T3.
  - by rewrite N1, N3.
  - intros <-. subst first fresh.
    by rewrite !generateFromFiles_outcome.
  - rewrite T1, T2. by destruct (fatal config).
  - rewrite N1, N2, countFields_app. by destruct (fatal config).
  - by rewrite S2, S1.
Qed.

Lemma runs_on_one_generator_accumulate_witness :
  fst (generateFromFiles sampleParse stringifyUnused sampleDisk sampleNow
         (constructor storefront) [notesTxt]) =
  fst (generateFromFiles sampleParse stringifyUnused sampleDisk sampleNow
         (constructor storefront) [pricesCsv]).
Proof.
  exact (proj2 (proj2 (proj1
    (runs_on_one_generator_accumulate sampleParse stringifyUnused storefront
       sampleDisk sampleDisk sampleNow sampleNow [pricesCsv] [notesTxt]))) eq_refl).
Defined.

(** C6, as stated, fails: the second call on the same generator, with the
    same file and configuration, reports twice the tables and twice the
    fields of the first.  Read again after the second call, the first result
    shows the tables of the second and still its own field count. *)
Lemma second_run_on_the_same_generator_differs :
  let first :=
    generateFromFiles sampleParse stringifyUnused sampleDisk sampleNow
      (constructor storefront) [pricesCsv] in
  let again :=
    generateFromFiles sampleParse stringifyUnused sampleDisk sampleNow
      (snd first) [pricesCsv] in
  (resultTotalFields (fst first) = Some 24 /\
   resultTotalFields (fst again) = Some 48) /\
  (option_map (map Table.name) (resultTables (fst first)) =
     Some ["products"; "categories"; "orders"] /\
   option_map (map Table.name) (resultTables (fst again)) =
     Some ["products"; "categories"; "orders"; "products"; "categories"; "orders"]) /\
  (option_map (fun r => SchemaResult.totalFields (readLater (snd again) r))
     (returned (fst first)) = Some 24 /\
   option_map (fun r => map Table.name (SchemaResult.tables (readLater (snd again) r)))
     (returned (fst first)) =
     Some ["products"; "categories"; "orders"; "products"; "categories"; "orders"]).
Proof. vm_compute. repeat split. Qed.

(** C3, as amended.  Whatever the domain tag, the table set is the one built
    with both toggles off, followed by one metadata table when
    [includeMetadata] is set, followed by one media table when
    [includeImages] is set.  Both carry the table prefix; the fields of the
    first are [id], [entity_type], [entity_id], [meta_key], [meta_value] and
    [created_at], those of the second [id], [filename], [original_name],
    [mime_type], [size], [url], [alt_text], [width], [height] and
    [uploaded_at]. *)
Theorem augmenters_append_one_table_each
    (config : Config.t) (analyzedData : AnalyzedData.t) (tables : list Table.t) :
  exists metadataTable mediaTable : Table.t,
    generateStructure config analyzedData tables =
      (generateStructure (withoutAugmenters config) analyzedData tables ++
       (if Config.includeMetadata config then [metadataTable] else []) ++
       (if Config.includeImages config then [mediaTable] else []))%list /\
    Table.name metadataTable = Config.tablePrefix config +:+ "metadata" /\
    map Field.name (Table.fields metadataTable) =
      ["id"; "entity_type"; "entity_id"; "meta_key"; "meta_value"; "created_at"] /\
    Table.name mediaTable = Config.tablePrefix config +:+ "media" /\
    map Field.name (Table.fields mediaTable) =
      ["id"; "filename"; "original_name"; "mime_type"; "size"; "url"; "alt_text";
       "width"; "height"; "uploaded_at"].
Proof.
  exists (hd (Table.make "" []) (addMetadataTables config [])),
         (hd (Table.make "" []) (addMediaTables config [])).
  split; [| repeat split].
  unfold generateStructure, withoutAugmenters. simpl.
  unfold addMetadataTables, addMediaTables, tableName.
  destruct (Config.includeMetadata config), (Config.includeImages config);
    simpl; rewrite <- ?app_assoc, ?app_nil_r; reflexivity.
Qed.

(** C3, as stated, fails: both appended tables have the column [id] besides
    the listed fields. *)
Lemma appended_tables_have_an_id_column :
  map (fun table => (Table.name table, map Field.name (Table.fields table)))
      (generateStructure customSite noAnalysis []) =
  [ ("app_content",
     ["id"; "title"; "slug"; "body"; "type"; "status"; "created_at"; "updated_at"]);
    ("app_metadata",
     ["id"; "entity_type"; "entity_id"; "meta_key"; "meta_value"; "created_at"]);
    ("app_media",
     ["id"; "filename"; "original_name"; "mime_type"; "size"; "url"; "alt_text";
      "width"; "height"; "uploaded_at"]) ] /\
  (In "id" ["entity_type"; "entity_id"; "meta_key"; "meta_value"; "created_at"] -> False) /\
  (In "id" ["filename"; "original_name"; "mime_type"; "size"; "url"; "alt_text";
            "width"; "height"; "uploaded_at"] -> False).
Proof.
  split; [reflexivity |].
  split; intros H; cbn in H; intuition discriminate.
Qed.


(** ** Document-store renderer *)

Section MongoFacts.
Import Js.

Lemma keys_replace {V} k (v : V) o : keys (replace k v o) = keys o.
Proof.
  induction o as [|[k0 v0] o IH]; simpl; [done |].
  destruct (String.eqb k0 k); simpl; [done | by f_equal].
Qed.

Lemma keys_place {V} n k (v : V) o k' :
  In k' (keys (place n k v o)) <-> k' = k \/ In k' (keys o).
Proof.
  induction o as [|[k0 v0] o IH]; simpl; [intuition |].
  destruct (arrayIndex k0) as [n0|]; [destruct (n0 <? n)%N |]; simpl;
    [| intuition | intuition].
  unfold keys in IH. rewrite IH. intuition.
Qed.

Lemma keys_setOwn {V} k (v : V) o k' :
  In k' (keys (setOwn k v o)) <-> k' = k \/ In k' (keys o).
Proof.
  unfold setOwn. destruct (getOwn k o) as [w|] eqn:E.
  - rewrite keys_replace. split; [by right |]. intros [-> | H]; [| done].
    clear -E. induction o as [|[k0 v0] o IH]; simpl in *; [done |].
    destruct (String.eqb_spec k0 k) as [->|Hne]; [by left | right; by apply IH].
  - destruct (arrayIndex k); [apply keys_place |].
    unfold keys. rewrite map_app, in_app_iff. simpl. intuition.
Qed.

Lemma keys_set {V} k (v : V) o k' :
  In k' (keys (set k v o)) -> k' = k \/ In k' (keys o).
Proof.
  unfold set. destruct (String.eqb k "__proto__"); [by right |].
  apply keys_setOwn.
Qed.

(** Every key of the property map is the name of a field that is not
    auto-increment. *)
Lemma generateMongoProperties_keys fields k :
  In k (keys (generateMongoProperties fields)) ->
  exists f, In f fields /\ Field.name f = k /\ Field.autoIncrement f = false.
Proof.
  unfold generateMongoProperties.
  assert (forall acc,
    In k (keys (fold_left
                  (fun properties field =>
                     if Field.autoIncrement field then properties
                     else set (Field.name field)
                            (Mongo.Property (mapTypeToMongo (Field.type field))
                               (Field.name field +:+ " field")) properties)
                  fields acc)) ->
    In k (keys acc) \/
    exists f, In f fields /\ Field.name f = k /\ Field.autoIncrement f = false) as G.
  { induction fields as [|f fields IH]; intros acc; simpl; [by left |].
    intros [H | (f' & Hin & Hf')]%IH; [| right; exists f'; tauto].
    destruct (Field.autoIncrement f) eqn:Ea; [by left |].
    apply keys_set in H as [-> | H]; [| by left].
    right. exists f. tauto. }
  intros [[] | H]%G. exact H.
Qed.

(** And every such field is there, unless its name is [__proto__]. *)
Lemma generateMongoProperties_complete fields f :
  In f fields -> Field.autoIncrement f = false ->
  String.eqb (Field.name f) "__proto__" = false ->
  In (Field.name f) (keys (generateMongoProperties fields)).
Proof.
  unfold generateMongoProperties. intros Hin Ha Hp.
  assert (forall acc,
    In (Field.name f) (keys acc) \/ In f fields ->
    In (Field.name f)
       (keys (fold_left
                (fun properties field =>
                   if Field.autoIncrement field then properties
                   else set (Field.name field)
                          (Mongo.Property (mapTypeToMongo (Field.type field))
                             (Field.name field +:+ " field")) properties)
                fields acc))) as G.
  { clear Hin. induction fields as [|g fields IH]; intros acc; simpl; [tauto |].
    intros H. apply IH.
    destruct H as [H | [-> | H]]; [| | by right].
    - left. destruct (Field.autoIncrement g); [done |].
      unfold set. destruct (String.eqb (Field.name g) "__proto__"); [done |].
      apply keys_setOwn. by right.
    - left. rewrite Ha. unfold set. rewrite Hp. apply keys_setOwn. by left. }
  apply G. by right.
Qed.

Lemma mongoRequired_spec fields n :
  In n (mongoRequired fields) <->
  exists f, In f fields /\ Field.name f = n /\
            Field.required f = true /\ Field.autoIncrement f = false.
Proof.
  unfold mongoRequired. rewrite in_map_iff. split.
  - intros (f & <- & [Hin [Hr Ha%negb_true_iff]%andb_prop]%filter_In). by exists f.
  - intros (f & Hin & <- & Hr & Ha). exists f. split; [done |].
    apply filter_In. by rewrite Hr, Ha.
Qed.

Lemma NoDup_names_inj (fields : list Field.t) f g :
  NoDup (map Field.name fields) -> In f fields -> In g fields ->
  Field.name f = Field.name g -> f = g.
Proof.
  induction fields as [|h fields IH]; simpl; [done |].
  intros [Hh Hnd]%NoDup_cons [-> | Hf] [-> | Hg] E; try done.
  - destruct Hh. apply list_elem_of_In, in_map_iff. by exists g.
  - destruct Hh. apply list_elem_of_In, in_map_iff. by exists f.
  - by apply IH.
Qed.
End MongoFacts.

(** The validator of one collection. *)
Lemma mongoCollection_validator (table : Table.t) :
  NoDup (map Field.name (Table.fields table)) ->
  let schema := Mongo.validator (mongoCollection table) in
  Mongo.required schema =
    map Field.name
      (List.filter (fun f => Field.required f && negb (Field.autoIncrement f))
                   (Table.fields table)) /\
  (forall n, In n (Mongo.required schema) <->
     exists f, In f (Table.fields table) /\ Field.name f = n /\
               Field.required f = true /\ Field.autoIncrement f = false) /\
  (forall k, In k (Js.keys (Mongo.properties schema)) ->
     exists f, In f (Table.fields table) /\ Field.name f = k /\
               Field.autoIncrement f = false) /\
  (forall f, In f (Table.fields table) -> Field.autoIncrement f = true ->
     (In (Field.name f) (Mongo.required schema) -> False) /\
     (In (Field.name f) (Js.keys (Mongo.properties schema)) -> False)) /\
  (forall f, In f (Table.fields table) -> Field.autoIncrement f = false ->
     String.eqb (Field.name f) "__proto__" = false ->
     In (Field.name f) (Js.keys (Mongo.properties schema))).
Proof.
  intros Hnd schema. subst schema. simpl.
  split; [reflexivity |]. split; [apply mongoRequired_spec |].
  split; [apply generateMongoProperties_keys |].
  split; [| apply generateMongoProperties_complete].
  intros f Hin Ha. split.
  - intros (g & Hg & E & _ & Hga)%mongoRequired_spec.
    rewrite (NoDup_names_inj _ g f Hnd Hg Hin E) in Hga. congruence.
  - intros (g & Hg & E & Hga)%generateMongoProperties_keys.
    rewrite (NoDup_names_inj _ g f Hnd Hg Hin E) in Hga. congruence.
Qed.

(** C7.  Under the document-store dialect with a project name, the text
    the renderer returns is that of a document with one collection per
    table, in the order of the tables and under the table's name; when the
    field names of a table are distinct, the validator emitted for it has a
    required list that holds exactly the names of the fields that are
    required and not auto-increment, every key of its property map names a
    field that is not auto-increment, the name of an auto-increment field
    is in neither, and every other field has its key in the property map,
    unless it is named [__proto__]. *)
Theorem mongo_validator_leaves_out_autoIncrement
    (JSON_stringify : Mongo.schema -> string) (config : Config.t)
    (projectName now : string) (tables : list Table.t) :
  Config.databaseType config = "mongodb" ->
  Config.projectName config = Some projectName ->
  exists schema,
    generateSQL JSON_stringify config now tables = Returned (JSON_stringify schema) /\
    Forall2
      (fun table collection =>
         Mongo.name collection = Table.name table /\
         Mongo.bsonType (Mongo.validator collection) = "object" /\
         (NoDup (map Field.name (Table.fields table)) ->
          let validator := Mongo.validator collection in
          Mongo.required validator =
            map Field.name
              (List.filter (fun f => Field.required f && negb (Field.autoIncrement f))
                           (Table.fields table)) /\
          (forall n, In n (Mongo.required validator) <->
             exists f, In f (Table.fields table) /\ Field.name f = n /\
                       Field.required f = true /\ Field.autoIncrement f = false) /\
          (forall k, In k (Js.keys (Mongo.properties validator)) ->
             exists f, In f (Table.fields table) /\ Field.name f = k /\
                       Field.autoIncrement f = false) /\
          (forall f, In f (Table.fields table) -> Field.autoIncrement f = true ->
             (In (Field.name f) (Mongo.required validator) -> False) /\
             (In (Field.name f) (Js.keys (Mongo.properties validator)) -> False)) /\
          (forall f, In f (Table.fields table) -> Field.autoIncrement f = false ->
             String.eqb (Field.name f) "__proto__" = false ->
             In (Field.name f) (Js.keys (Mongo.properties validator)))))
      tables (Mongo.collections schema).
Proof.
  intros Hd Hp.
  exists (Mongo.Schema
            (Js.str (replaceWhiteSpaceRuns (Js.chars (Js.toLowerCase projectName))))
            (map mongoCollection tables)).
  split.
  - unfold generateSQL, generateMongoDBSchema, mongoSchema. by rewrite Hd, Hp.
  - cbn [Mongo.collections]. induction tables as [|table tables IH]; simpl.
    + constructor.
    + constructor; [| exact IH].
      split; [reflexivity |]. split; [reflexivity |].
      exact (mongoCollection_validator table).
Qed.

Lemma mongo_validator_leaves_out_autoIncrement_witness :
  exists schema,
    generateSQL (fun s => Mongo.database s)
      (Config.make "ecommerce" (Some "Shop") "mongodb" false false "")
      sampleNow [ordersTable] =
    Returned ((fun s => Mongo.database s) schema) /\
    Forall2
      (fun table collection =>
         Mongo.name collection = Table.name table /\
         Mongo.required (Mongo.validator collection) = ["order_number"; "status"] /\
         (In "id" (Js.keys (Mongo.properties (Mongo.validator collection))) -> False))
      [ordersTable] (Mongo.collections schema).
Proof.
  destruct (mongo_validator_leaves_out_autoIncrement (fun s => Mongo.database s)
              (Config.make "ecommerce" (Some "Shop") "mongodb" false false "")
              "Shop" sampleNow [ordersTable] eq_refl eq_refl)
    as (schema & Htext & Hcollections).
  exists schema. split; [exact Htext |].
  destruct (Mongo.collections schema) as [|collection [|? ?]];
    [exfalso; inversion Hcollections
    | | exfalso; inversion Hcollections as [|? ? ? ? ? Htail]; inversion Htail].
  constructor; [| constructor].
  assert (Mongo.name collection = Table.name ordersTable /\
          Mongo.bsonType (Mongo.validator collection) = "object" /\
          (NoDup (map Field.name (Table.fields ordersTable)) -> _)) as (Hname & _ & H)
    by (inversion Hcollections; eassumption).
  assert (NoDup (map Field.name (Table.fields ordersTable))) as Hnd
    by (refine (bool_decide_unpack _ _); vm_compute; exact I).
  destruct (H Hnd) as (Hreq & _ & _ & Hauto & _).
  split; [exact Hname |]. split; [exact Hreq |].
  exact (proj2 (Hauto (identity (column "id" TInteger true)) (or_introl eq_refl) eq_refl)).
Defined.


(** ** Relational-B renderer *)

Section PostgresFacts.
Import Js.

Lemma append_assoc s t u : (s +:+ t) +:+ u = s +:+ (t +:+ u).
Proof.
  induction s as [|c s IH]; [done |].
  change (String c ((s +:+ t) +:+ u) = String c (s +:+ (t +:+ u))).
  by f_equal.
Qed.

Lemma append_empty_r s : s +:+ "" = s.
Proof.
  induction s as [|c s IH]; [done |].
  change (String c (s +:+ "") = String c s). by f_equal.
Qed.

(** A loop that appends one block per table yields the start text followed
    by the blocks in the order of the tables. *)
Lemma fold_append {A} (block : A -> string) (items : list A) (start : string) :
  fold_left (fun sql item => sql +:+ block item) items start =
  start +:+ String.concat "" (map block items).
Proof.
  revert start. induction items as [|x items IH]; intros start; simpl.
  - by rewrite append_empty_r.
  - rewrite IH, append_assoc. f_equal.
    destruct items as [|y items]; simpl; [by rewrite append_empty_r | done].
Qed.
End PostgresFacts.

(** C8.  The Relational-B renderer writes a field that is both primary key
    and auto-increment as the quoted name followed by SERIAL PRIMARY KEY and
    nothing else, whatever its other attributes are; any other field gets
    its mapped type followed by NOT NULL when required, a quoted DEFAULT
    when it has one, and UNIQUE when unique.  The schema text is the header
    followed by one block per table, whose lines are the fields' in order. *)
Theorem postgres_identity_column_has_no_other_clause
    (JSON_stringify : Mongo.schema -> string) (config : Config.t) (now : string)
    (tables : list Table.t) (field : Field.t) :
  Config.databaseType config = "postgresql" ->
  (Field.primaryKey field && Field.autoIncrement field = true ->
   postgresFieldDefinition field =
     "  " +:+ Js.DQ +:+ Field.name field +:+ Js.DQ +:+ " SERIAL PRIMARY KEY") /\
  (Field.primaryKey field && Field.autoIncrement field = false ->
   postgresFieldDefinition field =
     "  " +:+ Js.DQ +:+ Field.name field +:+ Js.DQ +:+ " " +:+
     mapTypeToPostgreSQL field +:+
     (if Field.required field then " NOT NULL" else "") +:+
     match Field.default field with
     | Some d => " DEFAULT '" +:+ printLiteral d +:+ "'"
     | None => ""
     end +:+
     (if Field.unique field then " UNIQUE" else "")) /\
  generateSQL JSON_stringify config now tables =
    Returned
      (header config now "PostgreSQL" +:+
       String.concat ""
         (map (fun table =>
                 "CREATE TABLE IF NOT EXISTS " +:+ Js.DQ +:+ Table.name table +:+ Js.DQ +:+
                 " (" +:+ Js.LF +:+
                 Js.join ("," +:+ Js.LF)
                   (map postgresFieldDefinition (Table.fields table)) +:+
                 Js.LF +:+ ");" +:+ Js.LF +:+ Js.LF)
              tables)).
Proof.
  intros Hdb. unfold postgresFieldDefinition. repeat split.
  - by intros ->.
  - by intros ->.
  - unfold generateSQL. rewrite Hdb. simpl.
    unfold generatePostgreSQLSchema. by rewrite fold_append.
Qed.

Lemma postgres_identity_column_has_no_other_clause_witness :
  postgresFieldDefinition (identity (uniq (dflt (LNumber 7) (column "id" TInteger true)))) =
    "  " +:+ Js.DQ +:+ "id" +:+ Js.DQ +:+ " SERIAL PRIMARY KEY" /\
  postgresFieldDefinition (dflt (LString "pending") (len 20 (column "status" TString true))) =
    "  " +:+ Js.DQ +:+ "status" +:+ Js.DQ +:+ " VARCHAR(20) NOT NULL DEFAULT 'pending'".
Proof.
  split.
  - exact (proj1 (postgres_identity_column_has_no_other_clause stringifyUnused
                    customSite sampleNow []
                    (identity (uniq (dflt (LNumber 7) (column "id" TInteger true))))
                    eq_refl) eq_refl).
  - exact (proj1 (proj2 (postgres_identity_column_has_no_other_clause stringifyUnused
                    customSite sampleNow []
                    (dflt (LString "pending") (len 20 (column "status" TString true)))
                    eq_refl)) eq_refl).
Defined.


(** * Further properties *)

(** ** The numeric test and the order of the rules of [inferType] *)

Section NumericFacts.
Import Js Numeric.

Lemma takeWhile_cons {A} (p : A -> bool) l x r :
  takeWhile p l = x :: r -> exists l', l = x :: l' /\ p x = true.
Proof.
  destruct l as [|y l]; simpl; [done |].
  destruct (p y) eqn:E; [| done]. intros [= <- _]. by exists l.
Qed.

Lemma takeWhile_nil {A} (p : A -> bool) l : takeWhile p l = [] -> dropWhile p l = l.
Proof. destruct l as [|y l]; simpl; [done |]. by destruct (p y). Qed.

Lemma startsWith_app p l t : startsWith p l = true -> startsWith p (l ++ t) = true.
Proof.
  revert l. induction p as [|a p IH]; intros [|b l]; simpl; try done.
  intros [-> H]%andb_prop. simpl. by apply IH.
Qed.

Lemma digit_not_sign c : isDigit c = true -> isSign c = false.
Proof. destruct c as [[] [] [] [] [] [] [] []]; vm_compute; congruence. Qed.

(** A numeric literal starts like a decimal literal: after its sign with
    [Infinity], a digit, or a point and a digit. *)
Lemma unsigned_literal_prefix l :
  strUnsignedDecimalLiteral l = true ->
  startsWith Infinity l ||
  match l with
  | c :: r =>
      isDigit c ||
      ((code c =? 46)%nat && match r with d :: _ => isDigit d | [] => false end)
  | [] => false
  end = true.
Proof.
  unfold strUnsignedDecimalLiteral.
  destruct (startsWith Infinity l) eqn:EI; [done |]. simpl.
  destruct (takeWhile isDigit l) as [|d ds] eqn:ET.
  - rewrite (takeWhile_nil _ _ ET). destruct l as [|c r]; [done |].
    intros [-> H]%andb_prop. rewrite orb_true_r || simpl.
    destruct (takeWhile isDigit r) as [|d ds] eqn:ER; [done |].
    apply takeWhile_cons in ER as (r' & -> & ->). by rewrite orb_true_r.
  - apply takeWhile_cons in ET as (l' & -> & ->). done.
Qed.

Lemma literal_prefix l : strNumericLiteral l = true -> hasDecimalPrefix l = true.
Proof.
  unfold strNumericLiteral, hasDecimalPrefix.
  intros [H | H]%orb_prop.
  - unfold strDecimalLiteral in H. destruct l as [|c r]; [done |].
    destruct (isSign c); by apply unsigned_literal_prefix.
  - unfold nonDecimalIntegerLiteral in H.
    destruct l as [|z [|p r]]; try done.
    apply andb_prop in H as [Hz _].
    assert (isDigit z = true) as Hd.
    { unfold isDigit, between. apply Nat.eqb_eq in Hz. by rewrite Hz. }
    rewrite (digit_not_sign z Hd), Hd. apply orb_true_r.
Qed.

Lemma decimal_start_app u t :
  startsWith Infinity u ||
  match u with
  | c :: r =>
      isDigit c ||
      ((code c =? 46)%nat && match r with d :: _ => isDigit d | [] => false end)
  | [] => false
  end = true ->
  startsWith Infinity (u ++ t) ||
  match (u ++ t)%list with
  | c :: r =>
      isDigit c ||
      ((code c =? 46)%nat && match r with d :: _ => isDigit d | [] => false end)
  | [] => false
  end = true.
Proof.
  intros [H | H]%orb_prop; [by rewrite (startsWith_app _ _ _ H) |].
  apply orb_true_iff. right.
  destruct u as [|c r]; [done |]. cbn [app].
  destruct (isDigit c); [done |].
  destruct (code c =? 46)%nat; [| done].
  destruct r as [|d r]; [done |]. exact H.
Qed.

Lemma hasDecimalPrefix_app l t :
  hasDecimalPrefix l = true -> hasDecimalPrefix (l ++ t) = true.
Proof.
  unfold hasDecimalPrefix. destruct l as [|c r]; [done |]. cbn [app].
  destruct (isSign c); intros H;
    [exact (decimal_start_app r t H) | exact (decimal_start_app (c :: r) t H)].
Qed.

Lemma trimEnd_prefix l : exists t, l = (trimEndChars l ++ t)%list.
Proof.
  unfold trimEndChars.
  destruct (dropWhile_suffix isWhiteSpace (rev l)) as [t Ht].
  exists (rev t). rewrite <- rev_app_distr, <- Ht. by rewrite rev_involutive.
Qed.

Lemma trimChars_nil l : trimChars l = [] -> trimStartChars l = [].
Proof.
  unfold trimChars, trimEndChars. intros H.
  apply (f_equal (@rev ascii)) in H. rewrite rev_involutive in H. simpl in H.
  destruct (rev (trimStartChars l)) as [|c r] eqn:E.
  - apply (f_equal (@rev ascii)) in E. by rewrite rev_involutive in E.
  - pose proof (strip_first isWhiteSpace l) as F. unfold bothEnds in F.
    fold (trimStartChars l) in F. rewrite E in F.
    (* the reversed text is all white space, so the text starts with some *)
    assert (forallb isWhiteSpace (c :: r) = true) as W.
    { clear -H. induction (c :: r) as [|x xs IH]; [done |]. simpl in *.
      destruct (isWhiteSpace x); [by apply IH | done]. }
    rewrite <- E, forallb_rev in W.
    unfold trimStartChars in *.
    destruct (dropWhile isWhiteSpace l) as [|x xs] eqn:D; [done |].
    apply dropWhile_head in D. simpl in W. by rewrite D in W.
Qed.
Lemma looksNumeric_parts s :
  looksNumeric s = Numeric.strNumericLiteral (Js.chars (Js.trim s)) /\
  looksNumeric s = negb (Numeric.isNaN s) && negb (String.eqb (Js.trim s) "").
Proof.
  unfold Js.trim. rewrite chars_str.
  unfold looksNumeric, Numeric.isNaN, Numeric.parseFloatIsNaN.
  destruct (Js.trimChars (Js.chars s)) as [|c r] eqn:E.
  - apply trimChars_nil in E. rewrite E. by split.
  - assert (String.eqb (Js.str (c :: r)) "" = false) as -> by done.
    rewrite andb_true_r, !negb_involutive.
    destruct (Numeric.strNumericLiteral (c :: r)) eqn:L; [| by split].
    apply literal_prefix in L.
    assert (Numeric.hasDecimalPrefix (Js.trimStartChars (Js.chars s)) = true) as ->.
    { destruct (trimEnd_prefix (Js.trimStartChars (Js.chars s))) as [t Ht].
      fold (Js.trimChars (Js.chars s)) in Ht. rewrite E in Ht. rewrite Ht.
      by apply hasDecimalPrefix_app. }
    by split.
Qed.
End NumericFacts.

(** X1.  The double test [!isNaN(s) && !isNaN(parseFloat(s))] accepts a text
    exactly when the text, trimmed, is a numeric literal; the [parseFloat]
    half only takes the blank texts away, which [Number] reads as 0. *)
Theorem looksNumeric_iff_numeric_literal (s : string) :
  (looksNumeric s = true <->
   Numeric.strNumericLiteral (Js.chars (Js.trim s)) = true) /\
  looksNumeric s = negb (Numeric.isNaN s) && negb (String.eqb (Js.trim s) "").
Proof.
  destruct (looksNumeric_parts s) as [E F]. split; [by rewrite E | exact F].
Qed.

Section RuleOrder.
Import Js Numeric.

Lemma looksNumeric_trim s :
  looksNumeric (trim s) = strNumericLiteral (chars (trim s)).
Proof.
  destruct (looksNumeric_parts (trim s)) as [H _]. by rewrite trim_trim in H.
Qed.

Lemma code_eq c n : (code c =? n)%nat = true -> c = ascii_of_nat n.
Proof.
  unfold code. intros H%Nat.eqb_eq. by rewrite <- H, ascii_nat_embedding.
Qed.

Lemma digit_not_Infinity c r : isDigit c = true -> startsWith Infinity (c :: r) = false.
Proof.
  intros H. unfold Infinity. cbn [chars list_ascii_of_string startsWith].
  assert (Ascii.eqb "I" c = false) as ->; [| done].
  revert H. destruct c as [[] [] [] [] [] [] [] []]; vm_compute; congruence.
Qed.

Lemma digit_not_radix c :
  isDigit c = true ->
  (code c =? 98)%nat || (code c =? 66)%nat = false /\
  (code c =? 111)%nat || (code c =? 79)%nat = false /\
  (code c =? 120)%nat || (code c =? 88)%nat = false.
Proof. destruct c as [[] [] [] [] [] [] [] []]; vm_compute; intuition congruence. Qed.

(** Four digits and a hyphen do not start a numeric literal. *)
Lemma year_and_hyphen_not_numeric y1 y2 y3 y4 h rest :
  forallb isDigit [y1; y2; y3; y4] = true -> (code h =? 45)%nat = true ->
  strNumericLiteral (y1 :: y2 :: y3 :: y4 :: h :: rest) = false.
Proof.
  intros D Hh. apply code_eq in Hh. subst h.
  cbn [forallb] in D.
  apply andb_prop in D as [D1 D]. apply andb_prop in D as [D2 D].
  apply andb_prop in D as [D3 D]. apply andb_prop in D as [D4 _].
  unfold strNumericLiteral, strDecimalLiteral, nonDecimalIntegerLiteral.
  destruct (digit_not_radix y2 D2) as (-> & -> & ->).
  rewrite andb_false_r, orb_false_r, (digit_not_sign y1 D1).
  unfold strUnsignedDecimalLiteral.
  rewrite (digit_not_Infinity y1 _ D1). cbn [andb].
  cbn [takeWhile dropWhile]. rewrite D1, D2, D3, D4.
  reflexivity.
Qed.

Lemma isDateChars_inv l :
  isDateChars l = true ->
  length l = 10 /\ strNumericLiteral l = false.
Proof.
  destruct l as [|y1 [|y2 [|y3 [|y4 [|h1 [|m1 [|m2 [|h2 [|d1 [|d2 [|x l]]]]]]]]]]];
    try done.
  unfold isDateChars. intros [[D H1]%andb_prop _]%andb_prop.
  split; [done |].
  apply year_and_hyphen_not_numeric; [| done].
  cbn [forallb] in *. repeat (apply andb_prop in D as [? D]).
  by repeat match goal with E : isDigit _ = true |- _ => rewrite E; clear E end.
Qed.

Lemma isDateTimeChars_inv l :
  isDateTimeChars l = true ->
  19 <= length l /\ strNumericLiteral l = false.
Proof.
  destruct l as [|y1 [|y2 [|y3 [|y4 [|h1 [|m1 [|m2 [|h2 [|d1 [|d2 [|t
    [|hh1 [|hh2 [|c1 [|mm1 [|mm2 [|c2 [|s1 [|s2 l]]]]]]]]]]]]]]]]]]];
    try done.
  unfold isDateTimeChars.
  intros [[[[[D H1]%andb_prop _]%andb_prop _]%andb_prop _]%andb_prop _]%andb_prop.
  split; [simpl; lia |].
  apply year_and_hyphen_not_numeric; [| done].
  cbn [forallb] in *. repeat (apply andb_prop in D as [? D]).
  by repeat match goal with E : isDigit _ = true |- _ => rewrite E; clear E end.
Qed.

Lemma length_chars s : length (chars s) = String.length s.
Proof. induction s as [|c s IH]; simpl; [done | by rewrite IH]. Qed.

Lemma not_boolean_by_length t :
  5 < length (chars t) ->
  String.eqb t "true" || String.eqb t "false" = false.
Proof.
  intros H.
  destruct (String.eqb_spec t "true") as [->|_]; [simpl in H; lia |].
  destruct (String.eqb_spec t "false") as [->|_]; [simpl in H; lia | done].
Qed.
End RuleOrder.

(** X2.  A text is classified as [date] exactly when, trimmed, it has the
    form dddd-dd-dd: no earlier rule takes such a text away. *)
Theorem inferType_date_iff (s : string) :
  inferType (VString s) = TDate <-> isDate (Js.trim s) = true.
Proof.
  unfold inferType. cbn [String_]. split.
  - repeat (match goal with |- context [if ?b then _ else _] => destruct b eqn:? end);
      done.
  - intros H. unfold isDate in H.
    destruct (isDateChars_inv _ H) as [Hlen Hnum].
    rewrite not_boolean_by_length by lia.
    rewrite looksNumeric_trim, Hnum. unfold isDate. by rewrite H.
Qed.

(** X3.  A text is classified as [timestamp] exactly when, trimmed, it
    starts with dddd-dd-dd, a [T] or a space, and dd:dd:dd. *)
Theorem inferType_timestamp_iff (s : string) :
  inferType (VString s) = TTimestamp <-> isDateTime (Js.trim s) = true.
Proof.
  unfold inferType. cbn [String_]. split.
  - repeat (match goal with |- context [if ?b then _ else _] => destruct b eqn:? end);
      done.
  - intros H. unfold isDateTime in H.
    destruct (isDateTimeChars_inv _ H) as [Hlen Hnum].
    rewrite not_boolean_by_length by lia.
    rewrite looksNumeric_trim, Hnum.
    assert (isDate (Js.trim s) = false) as ->.
    { unfold isDate. destruct (isDateChars _) eqn:E; [| done].
      apply isDateChars_inv in E as [E _]. lia. }
    unfold isDateTime. by rewrite H.
Qed.

(** X4.  A text is classified as a number exactly when, trimmed, it passes
    the numeric test: as [decimal] when it holds a point, as [integer] when
    it holds none. *)
Theorem inferType_number_iff (s : string) :
  (inferType (VString s) = TDecimal <->
   looksNumeric (Js.trim s) = true /\ Js.includes "."%char (Js.trim s) = true) /\
  (inferType (VString s) = TInteger <->
   looksNumeric (Js.trim s) = true /\ Js.includes "."%char (Js.trim s) = false).
Proof.
  assert (looksNumeric (Js.trim s) = true ->
          String.eqb (Js.trim s) "true" || String.eqb (Js.trim s) "false" = false) as B.
  { intros H.
    destruct (String.eqb_spec (Js.trim s) "true") as [E|_]; [by rewrite E in H |].
    destruct (String.eqb_spec (Js.trim s) "false") as [E|_]; [by rewrite E in H | done]. }
  unfold inferType. cbn [String_]. split; split.
  - repeat (match goal with |- context [if ?b then _ else _] => destruct b eqn:? end);
      done.
  - intros [H1 H2]. by rewrite (B H1), H1, H2.
  - repeat (match goal with |- context [if ?b then _ else _] => destruct b eqn:? end);
      done.
  - intros [H1 H2]. by rewrite (B H1), H1, H2.
Qed.


(** ** Own-property stores *)

Section ObjectFacts.
Import Js.
Context {V : Type}.

Lemma getOwn_None_keys k (o : object V) : getOwn k o = None <-> ~ In k (keys o).
Proof.
  induction o as [|[k' v] o IH]; simpl; [tauto |].
  destruct (String.eqb_spec k' k) as [->|Hne]; [split; [done | tauto] |].
  rewrite IH. tauto.
Qed.

Lemma getOwn_Some_keys k v (o : object V) : getOwn k o = Some v -> In k (keys o).
Proof.
  intros H. destruct (in_dec string_dec k (keys o)) as [|N]; [done |].
  apply getOwn_None_keys in N. congruence.
Qed.

(** A key is the array index of one number, and a number the index of one
    key. *)
Lemma arrayIndex_inj k k' n :
  arrayIndex k = Some n -> arrayIndex k' = Some n -> k = k'.
Proof.
  unfold arrayIndex. intros H H'.
  destruct (NilZero.uint_of_string k) as [u|]; [| done].
  destruct (NilZero.uint_of_string k') as [u'|]; [| done].
  cbv zeta in *.
  destruct (String.eqb_spec (NilZero.string_of_uint (N.to_uint (N.of_uint u))) k)
    as [E|]; [| done].
  destruct (String.eqb_spec (NilZero.string_of_uint (N.to_uint (N.of_uint u'))) k')
    as [E'|]; [| done].
  simpl in *.
  destruct (N.of_uint u <=? 4294967294)%N; [| done].
  destruct (N.of_uint u' <=? 4294967294)%N; [| done].
  congruence.
Qed.

Lemma isArrayIndex_true k : isArrayIndex k = true <-> exists n, arrayIndex k = Some n.
Proof.
  unfold isArrayIndex. destruct (arrayIndex k) as [n|]; split; try done.
  - by exists n.
  - by intros [? ?].
Qed.

Lemma isArrayIndex_false k : isArrayIndex k = false <-> arrayIndex k = None.
Proof. unfold isArrayIndex. by destruct (arrayIndex k). Qed.

(** Writing a key that is not there and is no array index appends it. *)
Lemma setOwn_fresh k v (o : object V) :
  getOwn k o = None -> arrayIndex k = None -> setOwn k v o = (o ++ [(k, v)])%list.
Proof. unfold setOwn. by intros -> ->. Qed.

Lemma getOwn_replace k v k' (o : object V) :
  getOwn k o <> None ->
  getOwn k' (replace k v o) = if String.eqb k k' then Some v else getOwn k' o.
Proof.
  induction o as [|[k0 v0] o IH]; simpl; [done |].
  destruct (String.eqb_spec k0 k) as [->|Hne]; simpl.
  - intros _. by destruct (String.eqb k k').
  - intros H. destruct (String.eqb_spec k0 k') as [->|Hne'].
    + by destruct (String.eqb_spec k k') as [->|].
    + by apply IH.
Qed.

Lemma getOwn_place n k v k' (o : object V) :
  getOwn k o = None ->
  getOwn k' (place n k v o) = if String.eqb k k' then Some v else getOwn k' o.
Proof.
  induction o as [|[k0 v0] o IH]; simpl; [done |].
  destruct (String.eqb_spec k0 k) as [->|Hne]; [done |]. intros H.
  destruct (arrayIndex k0) as [n0|]; [destruct (n0 <? n)%N |]; simpl; try done.
  destruct (String.eqb_spec k0 k') as [->|Hne'].
  - by destruct (String.eqb_spec k k') as [->|].
  - by apply IH.
Qed.

Lemma getOwn_append k v k' (o : object V) :
  getOwn k o = None ->
  getOwn k' (o ++ [(k, v)])%list = if String.eqb k k' then Some v else getOwn k' o.
Proof.
  induction o as [|[k0 v0] o IH]; simpl; [done |].
  destruct (String.eqb_spec k0 k) as [->|Hne]; [done |]. intros H.
  destruct (String.eqb_spec k0 k') as [->|Hne'].
  - by destruct (String.eqb_spec k k') as [->|].
  - by apply IH.
Qed.

(** Reading after writing. *)
Lemma getOwn_setOwn k v k' (o : object V) :
  getOwn k' (setOwn k v o) = if String.eqb k k' then Some v else getOwn k' o.
Proof.
  unfold setOwn. destruct (getOwn k o) as [w|] eqn:E.
  - apply getOwn_replace. by rewrite E.
  - destruct (arrayIndex k); [by apply getOwn_place | by apply getOwn_append].
Qed.

Lemma place_NoDup n k v (o : object V) :
  ~ In k (keys o) -> NoDup (keys o) -> NoDup (keys (place n k v o)).
Proof.
  induction o as [|[k0 v0] o IH]; simpl.
  - intros _ _. apply NoDup_singleton.
  - intros Hk [H0 Hnd]%NoDup_cons.
    assert (NoDup (k :: k0 :: keys o)) as Hfront.
    { apply NoDup_cons. split; [| apply NoDup_cons; by split].
      intros H%list_elem_of_In. simpl in H. tauto. }
    destruct (arrayIndex k0) as [n0|]; [destruct (n0 <? n)%N |]; simpl; try done.
    apply NoDup_cons. split; [| apply IH; [tauto | done]].
    intros H%list_elem_of_In%keys_place. destruct H as [-> | H]; [tauto |].
    apply H0. by apply list_elem_of_In.
Qed.

(** Writing never repeats a key. *)
Lemma setOwn_NoDup k v (o : object V) : NoDup (keys o) -> NoDup (keys (setOwn k v o)).
Proof.
  intros H. unfold setOwn. destruct (getOwn k o) as [w|] eqn:E.
  - by rewrite keys_replace.
  - apply getOwn_None_keys in E.
    destruct (arrayIndex k); [by apply place_NoDup |].
    unfold keys. rewrite map_app. simpl.
    apply NoDup_app. split; [done |]. split; [| apply NoDup_singleton].
    intros x Hx Hk. apply list_elem_of_In in Hk. simpl in Hk.
    destruct Hk as [<-|[]]. apply E. by apply list_elem_of_In.
Qed.

Lemma set_NoDup k v (o : object V) : NoDup (keys o) -> NoDup (keys (set k v o)).
Proof. unfold set. destruct (String.eqb k "__proto__"); [done | apply setOwn_NoDup]. Qed.

Lemma setOwn_Forall (P : string * V -> Prop) k v (o : object V) :
  P (k, v) -> (forall k' v', P (k', v') -> P (k', v)) ->
  Forall P o -> Forall P (setOwn k v o).
Proof.
  intros Hkv Hrep Ho. unfold setOwn. destruct (getOwn k o) as [w|].
  - induction Ho as [|[k' v'] o Hx Ho IH]; simpl; [constructor |].
    destruct (String.eqb k' k); constructor; eauto.
  - destruct (arrayIndex k) as [n|].
    + induction Ho as [|[k' v'] o Hx Ho IH]; simpl; [by repeat constructor |].
      destruct (arrayIndex k') as [n'|]; [destruct (n' <? n)%N |];
        repeat (constructor; try done).
    + apply Forall_app. split; [done | by repeat constructor].
Qed.

Lemma keys_setOwn_iff k v (o : object V) k' :
  In k' (keys (setOwn k v o)) <-> k' = k \/ In k' (keys o).
Proof. apply keys_setOwn. Qed.
End ObjectFacts.

(** ** The order of enumeration *)

Section EnumerationFacts.
Import Js.
Context {V : Type}.

Local Abbreviation indexed_ := (fun kv : string * V => isArrayIndex (fst kv) = true).
Local Abbreviation named := (fun kv : string * V => isArrayIndex (fst kv) = false).
Local Abbreviation before := (fun a b : string * V => byIndex (fst a) (fst b)).

Lemma In_place n k v (o : object V) kv :
  In kv (place n k v o) <-> kv = (k, v) \/ In kv o.
Proof.
  induction o as [|[k0 v0] o IH]; simpl; [intuition |].
  destruct (arrayIndex k0) as [n0|]; [destruct (n0 <? n)%N |]; simpl;
    [| intuition | intuition].
  rewrite IH. intuition.
Qed.

Lemma place_app n k v (idx rest : object V) :
  Forall named rest -> place n k v (idx ++ rest)%list = (place n k v idx ++ rest)%list.
Proof.
  intros Hrest. induction idx as [|[k0 v0] idx IH]; simpl.
  - destruct rest as [|[k1 v1] rest]; [done |]. simpl.
    apply Forall_cons in Hrest as [H1%isArrayIndex_false _]. simpl in H1.
    by rewrite H1.
  - destruct (arrayIndex k0) as [n0|]; [destruct (n0 <? n)%N |]; simpl; try done.
    by rewrite IH.
Qed.

Lemma place_sorted n k v (idx : object V) :
  arrayIndex k = Some n -> ~ In k (keys idx) ->
  Forall indexed_ idx -> StronglySorted before idx ->
  StronglySorted before (place n k v idx).
Proof.
  intros Hk. induction idx as [|[k0 v0] idx IH]; simpl; intros Hfresh Hidx Hs.
  - constructor; constructor.
  - apply Forall_cons in Hidx as [[n0 H0]%isArrayIndex_true Hidx]. simpl in H0.
    apply StronglySorted_inv in Hs as [Hs Hhead].
    rewrite H0. destruct (N.ltb_spec n0 n) as [Hlt|Hge].
    + constructor; [apply IH; tauto |].
      apply List.Forall_forall. intros kv [-> | Hin]%In_place.
      * unfold byIndex. simpl. by rewrite H0, Hk.
      * rewrite List.Forall_forall in Hhead. by apply Hhead.
    + assert (n <> n0) as Hne.
      { intros ->. apply Hfresh. left. by apply (arrayIndex_inj k0 k n0). }
      constructor; [by constructor |].
      constructor.
      * unfold byIndex. simpl. rewrite H0, Hk. lia.
      * rewrite List.Forall_forall in Hhead |- *. intros kv Hin.
        specialize (Hhead kv Hin). unfold byIndex in *. simpl in *.
        rewrite H0 in Hhead. rewrite Hk.
        destruct (arrayIndex (fst kv)); [lia | done].
Qed.

(** Creating a property in an object that is in enumeration order. *)
Lemma setOwn_enumerated k v (idx rest : object V) :
  ~ In k (keys (idx ++ rest)%list) ->
  Forall indexed_ idx -> Forall named rest -> StronglySorted before idx ->
  exists idx',
    setOwn k v (idx ++ rest)%list =
      (idx' ++ rest ++ if isArrayIndex k then [] else [(k, v)])%list /\
    Forall indexed_ idx' /\ StronglySorted before idx' /\
    forall kv, In kv idx' <-> (kv = (k, v) /\ isArrayIndex k = true) \/ In kv idx.
Proof.
  intros Hfresh Hidx Hrest Hs. unfold setOwn.
  rewrite (proj2 (getOwn_None_keys k _) Hfresh).
  unfold isArrayIndex. destruct (arrayIndex k) as [n|] eqn:Hk.
  - exists (place n k v idx). rewrite app_nil_r, place_app by done.
    assert (~ In k (keys idx)) as Hfresh'.
    { intros H. apply Hfresh. unfold keys in *. rewrite map_app, in_app_iff. by left. }
    split; [done |]. split; [| split; [by apply place_sorted |]].
    + apply List.Forall_forall. intros kv [-> | Hin]%In_place.
      * simpl. unfold isArrayIndex. by rewrite Hk.
      * rewrite List.Forall_forall in Hidx. by apply Hidx.
    + intros kv. rewrite In_place. intuition.
  - exists idx. rewrite <- app_assoc. split; [done |]. split; [done |].
    split; [done |]. intros kv. intuition. discriminate.
Qed.

(** Creating properties under distinct keys, one after the other. *)
Lemma fold_set_enumerated {A} (key : A -> string) (val : A -> V) items
    (idx rest : object V) :
  NoDup (map key items) ->
  Forall (fun x => String.eqb (key x) "__proto__" = false /\
                   ~ In (key x) (keys (idx ++ rest)%list)) items ->
  Forall indexed_ idx -> Forall named rest -> StronglySorted before idx ->
  exists idx',
    fold_left (fun acc x => set (key x) (val x) acc) items (idx ++ rest)%list =
      (idx' ++ rest ++
       List.filter (fun kv => negb (isArrayIndex (fst kv)))
                   (map (fun x => (key x, val x)) items))%list /\
    StronglySorted before idx' /\
    forall kv, In kv idx' <->
               In kv idx \/
               (In kv (map (fun x => (key x, val x)) items) /\
                isArrayIndex (fst kv) = true).
Proof.
  revert idx rest. induction items as [|x items IH]; intros idx rest Hnd Hall Hidx Hrest Hs.
  - exists idx. simpl. rewrite app_nil_r. split; [done |]. split; [done |].
    intros kv. intuition.
  - apply NoDup_cons in Hnd as [Hx Hnd]. apply Forall_cons in Hall as [[Hp Hfresh] Hall].
    cbn [fold_left]. unfold set at 2. rewrite Hp.
    destruct (setOwn_enumerated (key x) (val x) idx rest Hfresh Hidx Hrest Hs)
      as (idx1 & E1 & Hidx1 & Hs1 & Hin1).
    rewrite E1.
    destruct (IH idx1 (rest ++ if isArrayIndex (key x) then [] else [(key x, val x)])%list)
      as (idx' & E & Hs' & Hin'); try done.
    + apply Forall_forall. intros y Hy. rewrite Forall_forall in Hall.
      destruct (Hall y Hy) as [Hyp Hyf]. split; [done |].
      rewrite <- E1. intros [E' | H]%keys_setOwn; [| done].
      apply Hx. rewrite <- E'. apply list_elem_of_In, in_map. by apply list_elem_of_In.
    + apply Forall_app. split; [done |].
      destruct (isArrayIndex (key x)) eqn:Ex; [constructor |].
      constructor; [done | constructor].
    + exists idx'. split; [| split; [done |]].
      * rewrite E. cbn [map List.filter fst]. rewrite <- !app_assoc.
        by destruct (isArrayIndex (key x)).
      * intros kv. rewrite Hin', Hin1. cbn [map In]. split.
        -- intros [[[-> Hi] | H] | [H Hi]]; [right | by left | right]; simpl; tauto.
        -- intros [H | [[<- | H] Hi]]; simpl in *; tauto.
Qed.

Lemma fold_set_enumerationOf {A} (key : A -> string) (val : A -> V) items :
  NoDup (map key items) ->
  Forall (fun x => String.eqb (key x) "__proto__" = false) items ->
  enumerationOf (map (fun x => (key x, val x)) items)
    (fold_left (fun acc x => set (key x) (val x) acc) items []).
Proof.
  intros Hnd Hp.
  destruct (fold_set_enumerated key val items [] [] Hnd) as (idx & E & Hs & Hin).
  - apply Forall_forall. intros x Hx. rewrite Forall_forall in Hp.
    split; [by apply Hp | by intros []].
  - constructor.
  - constructor.
  - constructor.
  - exists idx. simpl in E. split; [exact E |]. split; [exact Hs |].
    intros kv. rewrite Hin. simpl. tauto.
Qed.

(** Without array indices among the keys, the order of creation is the
    order of enumeration. *)
Lemma enumerationOf_named (entries o : object V) :
  enumerationOf entries o -> Forall named entries -> o = entries.
Proof.
  intros (idx & -> & _ & Hin) Hall.
  assert (idx = []) as ->.
  { destruct idx as [|kv idx]; [done |].
    destruct (proj1 (Hin kv) (or_introl eq_refl)) as [Hkv Hi].
    rewrite List.Forall_forall in Hall. rewrite (Hall kv Hkv) in Hi. discriminate. }
  simpl. clear Hin. induction entries as [|kv entries IH]; simpl; [done |].
  apply Forall_cons in Hall as [-> Hall]. simpl. f_equal. by apply IH.
Qed.

(** A change of the values that keeps every key keeps the order. *)
Lemma enumerationOf_map (h : string * V -> string * V) (entries o : object V) :
  (forall kv, fst (h kv) = fst kv) ->
  enumerationOf entries o -> enumerationOf (map h entries) (map h o).
Proof.
  intros Hh (idx & -> & Hs & Hin). exists (map h idx). split; [| split].
  - rewrite map_app. f_equal.
    clear -Hh. induction entries as [|kv entries IH]; simpl; [done |].
    rewrite Hh. destruct (isArrayIndex (fst kv)); simpl; [done | by f_equal].
  - clear Hin. induction Hs as [|kv idx Hs IH Hhead]; simpl; constructor; [done |].
    rewrite List.Forall_forall in Hhead |- *. intros kv' (kv0 & <- & H0)%in_map_iff.
    rewrite !Hh. by apply Hhead.
  - intros kv. rewrite !in_map_iff. split.
    + intros (kv0 & <- & [H0 Hi]%Hin). rewrite Hh. split; [by exists kv0 | done].
    + intros [(kv0 & <- & H0) Hi]. rewrite Hh in Hi. exists kv0. split; [done |].
      by apply Hin.
Qed.
End EnumerationFacts.


(** ** Tabular analyser *)

Section CsvFacts.
Import Js.

Lemma blank_forallb s : blank s <-> forallb isWhiteSpace (chars s) = true.
Proof.
  unfold blank. rewrite forallb_forall, List.Forall_forall. done.
Qed.

Lemma dropWhile_nil_all {A} (p : A -> bool) l : dropWhile p l = [] -> forallb p l = true.
Proof.
  induction l as [|x l IH]; simpl; [done |].
  destruct (p x); [exact IH | done].
Qed.

Lemma trim_empty_iff s :
  String.eqb (trim s) "" = true <-> forallb isWhiteSpace (chars s) = true.
Proof.
  split.
  - intros H%String.eqb_eq. apply (f_equal chars) in H.
    unfold trim in H. rewrite chars_str in H.
    by apply dropWhile_nil_all, trimChars_nil.
  - intros H. apply String.eqb_eq, trim_blank. by apply blank_forallb.
Qed.

(** A text is white space only exactly when each of its lines is. *)
Lemma forallb_splitChars_lines l :
  forallb (forallb isWhiteSpace) (splitChars (ascii_of_nat 10) l) =
  forallb isWhiteSpace l.
Proof.
  induction l as [|c l IH]; [done |].
  cbn [splitChars forallb].
  destruct (Ascii.eqb_spec c (ascii_of_nat 10)) as [->|Hne].
  - cbn [forallb]. by rewrite IH.
  - destruct (splitChars (ascii_of_nat 10) l) as [|h t]; cbn [forallb] in *.
    + by rewrite <- IH, andb_true_r.
    + by rewrite <- IH, andb_assoc.
Qed.

Lemma filter_nil {A} (f : A -> bool) l :
  List.filter f l = [] <-> forallb (fun x => negb (f x)) l = true.
Proof.
  induction l as [|x l IH]; simpl; [done |].
  destruct (f x); simpl; [split; done | exact IH].
Qed.

Lemma forallb_map_pointwise {A B} (f : B -> bool) (g : A -> B) (h : A -> bool) l :
  (forall x, f (g x) = h x) -> forallb f (map g l) = forallb h l.
Proof. intros E. induction l as [|x l IH]; simpl; [done | by rewrite E, IH]. Qed.

Lemma nonBlankLines_nil content :
  List.filter (fun line => negb (String.eqb (trim line) ""))
              (split (ascii_of_nat 10) content) = [] <->
  blank content.
Proof.
  rewrite filter_nil, blank_forallb, <- forallb_splitChars_lines.
  unfold split.
  rewrite (forallb_map_pointwise _ str (forallb isWhiteSpace)); [done |].
  intros l. rewrite negb_involutive.
  pose proof (trim_empty_iff (str l)) as H. rewrite chars_str in H.
  destruct (String.eqb _ _), (forallb _ l); try done; [symmetry |]; by apply H.
Qed.
End CsvFacts.

(** X5.  The tabular analyser answers null exactly for a content of white
    space only (the empty content included); a content with a single line
    that is not blank gives every column the type [string]. *)
Theorem analyzeCSV_null_iff_blank (content : string) :
  (analyzeCSV content = None <-> blank content) /\
  (forall headerLine fields,
     List.filter (fun line => negb (String.eqb (Js.trim line) ""))
                 (Js.split (ascii_of_nat 10) content) = [headerLine] ->
     analyzeCSV content = Some fields ->
     Forall (fun kv => snd kv = Plain TString false) fields).
Proof.
  split.
  - rewrite <- nonBlankLines_nil. unfold analyzeCSV.
    destruct (List.filter _ _) as [|headerLine [|sampleLine rest]]; by split.
  - intros headerLine fields E. unfold analyzeCSV. rewrite E. intros [= <-].
    generalize (map Js.trim (Js.split ","%char headerLine)). intros headers.
    assert (forall acc : structure,
      Forall (fun kv => snd kv = Plain TString false) acc ->
      Forall (fun kv => snd kv = Plain TString false)
        (fold_left (fun acc header =>
                      Js.set (sanitizeFieldName header) (Plain TString false) acc)
                   headers acc)) as G; [| by apply G].
    induction headers as [|h headers IH]; intros acc Hacc; simpl; [done |].
    apply IH. unfold Js.set. destruct (String.eqb _ "__proto__"); [done |].
    by apply setOwn_Forall.
Qed.

Lemma analyzeCSV_null_iff_blank_witness :
  analyzeCSV (" " +:+ Js.LF +:+ Js.LF) = None /\
  Forall (fun kv => snd kv = Plain TString false)
         [ ("id", Plain TString false); ("full_name", Plain TString false) ].
Proof.
  split.
  - apply (proj1 (analyzeCSV_null_iff_blank (" " +:+ Js.LF +:+ Js.LF))).
    repeat constructor.
  - exact (proj2 (analyzeCSV_null_iff_blank ("ID,Full Name" +:+ Js.LF))
                 "ID,Full Name" _ eq_refl eq_refl).
Defined.


Section CsvFolds.
Import Js.

Lemma sanitizeFieldName_fixed name :
  sanitizeFieldName (sanitizeFieldName name) = sanitizeFieldName name.
Proof.
  destruct (sanitizeChars_shape (chars name)) as (H1 & H2 & H3 & H4).
  unfold sanitizeFieldName. rewrite chars_str. by rewrite sanitizeChars_fixed.
Qed.

Lemma keys_setType k t (fields : structure) : keys (setType k t fields) = keys fields.
Proof.
  induction fields as [|[k' v] fields IH]; simpl; [done |].
  f_equal; [| exact IH]. destruct (String.eqb k' k); [by destruct v | done].
Qed.

Lemma NoDup_map_inj {A} (key : A -> string) (items : list A) x y :
  NoDup (map key items) -> In x items -> In y items -> key x = key y -> x = y.
Proof.
  induction items as [|z items IH]; simpl; [done |].
  intros [Hz Hnd]%NoDup_cons [-> | Hx] [-> | Hy] E; try done.
  - destruct Hz. rewrite E. by apply list_elem_of_In, in_map.
  - destruct Hz. rewrite <- E. by apply list_elem_of_In, in_map.
  - by apply IH.
Qed.

(** The entry [kv] once every item has retyped the entry under its key. *)
Local Abbreviation retypeBy key ty items :=
  (fun kv : string * shape =>
     match find (fun x => String.eqb (key x) (fst kv)) items with
     | Some x =>
         (fst kv,
          match snd kv with
          | Plain _ required => Plain (ty x) required
          | Relation name child => Relation name child
          end)
     | None => kv
     end).

(** Retyping under distinct keys, one after the other, retypes each entry
    where it stands. *)
Lemma fold_setType_map {A} (key : A -> string) (ty : A -> PrimitiveType) items
    (fields : structure) :
  NoDup (map key items) ->
  fold_left (fun acc x => setType (key x) (ty x) acc) items fields =
  map (retypeBy key ty items) fields.
Proof.
  revert fields. induction items as [|x items IH]; intros fields Hnd.
  - simpl. by rewrite map_id.
  - apply NoDup_cons in Hnd as [Hx Hnd]. cbn [fold_left]. rewrite IH by done.
    unfold setType. rewrite map_map. apply map_ext. intros [k sh]. cbn [fst snd find].
    rewrite (String.eqb_sym k (key x)).
    destruct (String.eqb_spec (key x) k) as [<-|Hne]; [| done].
    assert (find (fun y => String.eqb (key y) (key x)) items = None) as Hnone.
    { destruct (find _ items) as [y|] eqn:F; [| done].
      apply find_some in F as [Hy E%String.eqb_eq]. destruct Hx.
      rewrite <- E. apply list_elem_of_In, in_map. exact Hy. }
    destruct sh; cbn [fst snd]; by rewrite Hnone.
Qed.

Lemma retypeBy_member {A} (key : A -> string) (ty t0 : A -> PrimitiveType)
    (r : A -> bool) items x :
  NoDup (map key items) -> In x items ->
  retypeBy key ty items (key x, Plain (t0 x) (r x)) = (key x, Plain (ty x) (r x)).
Proof.
  intros Hnd Hx. cbn [fst snd].
  destruct (find _ items) as [y|] eqn:F.
  - apply find_some in F as [Hy E%String.eqb_eq].
    by rewrite (NoDup_map_inj key items y x Hnd Hy Hx E).
  - apply (find_none _ _ F) in Hx. by rewrite String.eqb_refl in Hx.
Qed.

Lemma map_indexed {A B} (f : A -> B) (l : list A) i :
  map (fun ih => f (snd ih)) (indexed i l) = map f l.
Proof. revert i. induction l as [|x l IH]; intros i; simpl; [done | by rewrite IH]. Qed.

Lemma indexed_map {A B} (f : A -> B) (l : list A) i :
  indexed i (map f l) = map (fun ih => (fst ih, f (snd ih))) (indexed i l).
Proof. revert i. induction l as [|x l IH]; intros i; simpl; [done | by rewrite IH]. Qed.
End CsvFolds.

(** X6.  When the header names are distinct once sanitised, the object the
    tabular analyser returns holds one field per column, named by the
    sanitised header and not required; its type is [string] when there is
    no second line, and otherwise the type of the cell under the header in
    the second line, a cell that is not there counting as [string].  The
    object enumerates the names that are array indices first, by ascending
    index, and then the others in the order of the columns; when no name is
    an array index, that is the order of the columns. *)
Theorem analyzeCSV_distinct_headers (content headerLine : string) (rest : list string) :
  List.filter (fun line => negb (String.eqb (Js.trim line) ""))
              (Js.split (ascii_of_nat 10) content) = headerLine :: rest ->
  NoDup (map (fun h => sanitizeFieldName (Js.trim h)) (Js.split ","%char headerLine)) ->
  let columns :=
    map (fun ih : nat * string =>
           (sanitizeFieldName (Js.trim (snd ih)),
            Plain match rest with
                  | [] => TString
                  | sampleLine :: _ =>
                      match nth_error (Js.split ","%char sampleLine) (fst ih) with
                      | Some cell => inferType (VString (Js.trim cell))
                      | None => TString
                      end
                  end false))
        (indexed 0 (Js.split ","%char headerLine)) in
  exists fields,
    analyzeCSV content = Some fields /\
    enumerationOf columns fields /\
    (Forall (fun h => isArrayIndex (sanitizeFieldName (Js.trim h)) = false)
            (Js.split ","%char headerLine) ->
     fields = columns).
Proof.
  intros Elines Hnd columns.
  assert (exists fields, analyzeCSV content = Some fields /\ enumerationOf columns fields)
    as (fields & E & Henum).
  { unfold analyzeCSV. rewrite Elines.
    set (headers := map Js.trim (Js.split ","%char headerLine)).
    assert (NoDup (map sanitizeFieldName headers)) as Hnd'.
    { subst headers. by rewrite map_map. }
    pose proof (fold_set_enumerationOf sanitizeFieldName
                  (fun _ : string => Plain TString false) headers Hnd') as H0.
    assert (Forall (fun x => String.eqb (sanitizeFieldName x) "__proto__" = false) headers)
      as Hp by (apply Forall_forall; intros h _; apply sanitizeFieldName_not_proto).
    specialize (H0 Hp).
    destruct rest as [|sampleLine rest'].
    - eexists. split; [reflexivity |].
      assert (columns = map (fun x => (sanitizeFieldName x, Plain TString false)) headers)
        as ->; [| exact H0].
      subst columns headers. rewrite map_map.
      apply (map_indexed (fun h => (sanitizeFieldName (Js.trim h), Plain TString false))).
    - eexists. split; [reflexivity |].
      set (ty := fun ih : nat * string =>
                   inferType match nth_error (Js.split ","%char sampleLine) (fst ih) with
                             | Some cell => VString (Js.trim cell)
                             | None => VUndefined
                             end).
      assert (NoDup (map (fun ih : nat * string => sanitizeFieldName (snd ih))
                         (indexed 0 headers))) as Hnd''.
      { by rewrite (map_indexed sanitizeFieldName). }
      rewrite (fold_setType_map (fun ih : nat * string => sanitizeFieldName (snd ih)) ty
                 (indexed 0 headers) _ Hnd'').
      match goal with
      | |- enumerationOf _ (map ?h _) =>
          assert (forall kv, fst (h kv) = fst kv) as Hfst
            by (intros kv; cbn beta; by destruct (find _ _));
          apply (enumerationOf_map h _ _ Hfst) in H0
      end.
      assert (forall l1 l2 : structure,
                l1 = l2 -> forall o, enumerationOf l1 o -> enumerationOf l2 o)
        as Hcast by (by intros ? ? ->).
      refine (Hcast _ _ _ _ H0).
      rewrite <- (map_indexed (fun h => (sanitizeFieldName h, Plain TString false)) headers 0).
      rewrite map_map. subst columns headers.
      rewrite indexed_map, map_map.
      apply map_ext_in. intros [i h] Hin. cbn [fst snd].
      pose proof (retypeBy_member (fun ih : nat * string => sanitizeFieldName (snd ih)) ty
                    (fun _ => TString) (fun _ => false)
                    (indexed 0 (map Js.trim (Js.split ","%char headerLine)))
                    (i, Js.trim h) Hnd'') as R.
      cbn [fst snd] in R. rewrite <- indexed_map. rewrite R.
      + subst ty. cbn [fst]. by destruct (nth_error _ i).
      + rewrite indexed_map. apply in_map_iff. by exists (i, h). }
  exists fields. split; [exact E |]. split; [exact Henum |].
  intros Hnamed. apply (enumerationOf_named _ _ Henum).
  subst columns. apply List.Forall_map.
  clear -Hnamed. generalize 0. induction Hnamed as [|h l Hh Hl IH]; intros i; simpl.
  - constructor.
  - constructor; [exact Hh | apply IH].
Qed.

Lemma analyzeCSV_distinct_headers_witness :
  analyzeCSV ("b,2, A ,1" +:+ Js.LF +:+ Js.LF +:+ "x,30,2024-01-15") =
  Some [ ("1", Plain TString false); ("2", Plain TInteger false);
         ("b", Plain TString false); ("a", Plain TDate false) ] /\
  exists fields,
    analyzeCSV ("b,2, A ,1" +:+ Js.LF +:+ Js.LF +:+ "x,30,2024-01-15") = Some fields /\
    enumerationOf
      [ ("b", Plain TString false); ("2", Plain TInteger false);
        ("a", Plain TDate false); ("1", Plain TString false) ] fields.
Proof.
  split; [reflexivity |].
  destruct (analyzeCSV_distinct_headers
              ("b,2, A ,1" +:+ Js.LF +:+ Js.LF +:+ "x,30,2024-01-15")
              "b,2, A ,1" ["x,30,2024-01-15"] eq_refl)
    as (fields & E & Henum & _).
  - refine (bool_decide_unpack _ _). vm_compute. exact I.
  - exists fields. split; [exact E | exact Henum].
Defined.


Section CsvShape.
Import Js.

Lemma fold_set_headers headers (acc : structure) :
  let fields := fold_left (fun acc header =>
                             set (sanitizeFieldName header) (Plain TString false) acc)
                          headers acc in
  (NoDup (keys acc) -> NoDup (keys fields)) /\
  (Forall optionalPlain acc -> Forall optionalPlain fields) /\
  (forall k, In k (keys fields) <->
             In k (keys acc) \/ exists h, In h headers /\ sanitizeFieldName h = k).
Proof.
  revert acc. induction headers as [|h headers IH]; intros acc; simpl.
  - repeat split; try tauto. intros [H | (h & [] & _)]; done.
  - destruct (IH (set (sanitizeFieldName h) (Plain TString false) acc))
      as (IH1 & IH2 & IH3).
    unfold set in *. rewrite sanitizeFieldName_not_proto in *.
    repeat split.
    + intros H. by apply IH1, setOwn_NoDup.
    + intros H. apply IH2, setOwn_Forall; [by exists TString | | done].
      intros k' v' _. by exists TString.
    + intros [H | (h' & Hh' & E)]%IH3.
      * apply keys_setOwn_iff in H as [-> | H]; [| by left].
        right. exists h. split; [by left | done].
      * right. exists h'. split; [by right | done].
    + intros H. apply IH3. rewrite keys_setOwn_iff.
      destruct H as [H | (h' & [-> | Hh'] & E)]; [tauto | left; by left |].
      right. by exists h'.
Qed.

Lemma setType_optionalPlain k t (fields : structure) :
  Forall optionalPlain fields -> Forall optionalPlain (setType k t fields).
Proof.
  induction 1 as [|[k' v] fields [t' Hv] Hf IH]; simpl; [done |].
  constructor; [| exact IH]. simpl in Hv. subst v.
  destruct (String.eqb k' k); by eexists.
Qed.

Lemma fold_setType_shape {A} (key : A -> string) (ty : A -> PrimitiveType) items
    (fields : structure) :
  let final := fold_left (fun acc x => setType (key x) (ty x) acc) items fields in
  keys final = keys fields /\ (Forall optionalPlain fields -> Forall optionalPlain final).
Proof.
  revert fields. induction items as [|x items IH]; intros fields; simpl; [done |].
  destruct (IH (setType (key x) (ty x) fields)) as [IH1 IH2].
  split; [by rewrite IH1, keys_setType |].
  intros H. by apply IH2, setType_optionalPlain.
Qed.
End CsvShape.

(** X7.  Whatever the headers are, the fields the tabular analyser returns
    have distinct names, each the sanitised form of a header of the first
    line that is not blank and left unchanged by the sanitiser, every header
    gives a field, and every field is a plain descriptor that is not
    required. *)
Theorem analyzeCSV_fields_shape (content : string) (fields : structure) :
  analyzeCSV content = Some fields ->
  NoDup (Js.keys fields) /\
  Forall (fun kv => (exists t, snd kv = Plain t false) /\
                    sanitizeFieldName (fst kv) = fst kv) fields /\
  exists headerLine,
    hd_error (List.filter (fun line => negb (String.eqb (Js.trim line) ""))
                          (Js.split (ascii_of_nat 10) content)) = Some headerLine /\
    forall k, In k (Js.keys fields) <->
              exists h, In h (Js.split ","%char headerLine) /\
                        sanitizeFieldName (Js.trim h) = k.
Proof.
  unfold analyzeCSV.
  destruct (List.filter _ _) as [|headerLine rest]; [done |].
  set (headers := map Js.trim (Js.split ","%char headerLine)).
  destruct (fold_set_headers headers []) as (F1 & F2 & F3). cbv zeta in *.
  set (fields0 := fold_left
                    (fun (acc : Js.object shape) (header : string) =>
                       Js.set (sanitizeFieldName header) (Plain TString false) acc)
                    headers []) in *.
  assert (forall k, In k (Js.keys fields0) <->
                    exists h, In h (Js.split ","%char headerLine) /\
                              sanitizeFieldName (Js.trim h) = k) as Hkeys.
  { intros k. rewrite F3. subst headers. split.
    - intros [[] | (h & (h0 & <- & Hh0)%in_map_iff & E)]. by exists h0.
    - intros (h & Hh & E). right. exists (Js.trim h). split; [by apply in_map | done]. }
  assert (forall final : structure,
            Js.keys final = Js.keys fields0 -> Forall optionalPlain final ->
            NoDup (Js.keys final) /\
            Forall (fun kv => (exists t, snd kv = Plain t false) /\
                              sanitizeFieldName (fst kv) = fst kv) final /\
            exists headerLine0,
              hd_error (headerLine :: rest) = Some headerLine0 /\
              forall k, In k (Js.keys final) <->
                        exists h, In h (Js.split ","%char headerLine0) /\
                                  sanitizeFieldName (Js.trim h) = k) as Final.
  { intros final Ek Hp. split; [rewrite Ek; apply F1; constructor |].
    split.
    - apply Forall_forall. intros kv Hkv. split.
      + rewrite Forall_forall in Hp. by apply Hp.
      + assert (In (fst kv) (Js.keys fields0)) as Hin.
        { rewrite <- Ek. apply in_map. by apply list_elem_of_In. }
        apply Hkeys in Hin as (h & _ & <-). apply sanitizeFieldName_fixed.
    - exists headerLine. split; [done |]. intros k. by rewrite Ek. }
  destruct rest as [|sampleLine rest']; intros [= <-].
  - apply Final; [done | apply F2; constructor].
  - match goal with |- context [fold_left ?step ?items fields0] =>
      destruct (fold_setType_shape
                  (fun ih : nat * string => sanitizeFieldName (snd ih))
                  (fun ih : nat * string =>
                     inferType match nth_error (Js.split ","%char sampleLine) (fst ih) with
                               | Some cell => VString (Js.trim cell)
                               | None => VUndefined
                               end)
                  items fields0) as [S1 S2]
    end.
    apply Final; [exact S1 | apply S2, F2; constructor].
Qed.

Lemma analyzeCSV_fields_shape_witness :
  NoDup (Js.keys [ ("a", Plain TString false); ("b", Plain TString false) ]) /\
  analyzeCSV ("a, b ,A" +:+ Js.LF +:+ "1") =
  Some [ ("a", Plain TString false); ("b", Plain TString false) ].
Proof.
  split; [| reflexivity].
  exact (proj1 (analyzeCSV_fields_shape ("a, b ,A" +:+ Js.LF +:+ "1") _ eq_refl)).
Defined.


(** ** Markup analyser *)

Section XmlFacts.
Import Js.

Local Abbreviation record :=
  (fun (fields : structure) (m : list ascii * list ascii) =>
     let fieldName := sanitizeFieldName (str (fst m)) in
     let value := str (snd m) in
     if truthyAt fieldName fields then fields
     else set fieldName (Plain (inferType (VString value)) false) fields).

Lemma fold_record_NoDup matches (acc : structure) :
  NoDup (keys acc) -> NoDup (keys (fold_left record matches acc)).
Proof.
  revert acc. induction matches as [|m matches IH]; intros acc H; simpl; [done |].
  apply IH. destruct (truthyAt _ acc); [done | by apply set_NoDup].
Qed.

Lemma fold_record_lookup matches (acc : structure) k :
  getOwn k (fold_left record matches acc) =
  match getOwn k acc with
  | Some v => Some v
  | None =>
      if existsb (String.eqb k) inherited then None
      else option_map (fun m => Plain (inferType (VString (str (snd m)))) false)
             (find (fun m => String.eqb (sanitizeFieldName (str (fst m))) k) matches)
  end.
Proof.
  revert acc. induction matches as [|m matches IH]; intros acc.
  - cbn [fold_left find option_map]. destruct (getOwn k acc); [done |].
    destruct (existsb (String.eqb k) inherited); reflexivity.
  - cbn [fold_left find]. rewrite IH. clear IH. cbv zeta.
    unfold truthyAt, set. rewrite (sanitizeFieldName_not_proto (str (fst m))).
    set (f := sanitizeFieldName (str (fst m))).
    destruct (getOwn f acc) as [v|] eqn:Ef;
      [| destruct (existsb (String.eqb f) inherited) eqn:Ei].
    + destruct (String.eqb_spec f k) as [E|Hne]; [| done].
      rewrite <- E, Ef. done.
    + destruct (String.eqb_spec f k) as [E|Hne]; [| done].
      rewrite <- E, Ef, Ei. done.
    + rewrite getOwn_setOwn.
      destruct (String.eqb_spec f k) as [E|Hne]; [| done].
      rewrite <- E, Ef, Ei. done.
Qed.
End XmlFacts.

(** X8.  In the result of the markup analyser no name is there twice, a
    name every object inherits (such as [constructor]) is never recorded,
    and any other name stands for the first element whose sanitised tag it
    is, with the type of that element's text: the first occurrence wins. *)
Theorem analyzeXML_first_occurrence_wins_lookup (content k : string) :
  NoDup (Js.keys (analyzeXML content)) /\
  Js.getOwn k (analyzeXML content) =
  if existsb (String.eqb k) Js.inherited then None
  else option_map (fun m => Plain (inferType (VString (Js.str (snd m)))) false)
         (find (fun m => String.eqb (sanitizeFieldName (Js.str (fst m))) k)
               (scanTags (Js.chars content) 0)).
Proof.
  unfold analyzeXML. split.
  - apply fold_record_NoDup. constructor.
  - by rewrite fold_record_lookup.
Qed.

(** ** Free-text analyser *)

Section TextFacts.
Import Js.

Lemma includes_In c s : includes c s = true <-> In c (chars s).
Proof.
  unfold includes. rewrite existsb_exists. split.
  - intros (x & Hx & E%Ascii.eqb_eq). by subst.
  - intros H. exists c. split; [done | apply Ascii.eqb_refl].
Qed.

Lemma isDateChars_length l : isDateChars l = true -> length l = 10.
Proof.
  destruct l as [|y1 [|y2 [|y3 [|y4 [|h1 [|m1 [|m2 [|h2 [|d1 [|d2 [|x l]]]]]]]]]]];
    done.
Qed.

Lemma containsDate_iff l :
  containsDate l = true <->
  exists before date after,
    l = (before ++ date ++ after)%list /\ isDateChars date = true.
Proof.
  split.
  - induction l as [|c l IH].
    + simpl. done.
    + cbn [containsDate]. intros [H | H]%orb_prop.
      * exists [], (firstn 10 (c :: l)), (skipn 10 (c :: l)).
        split; [by rewrite app_nil_l, firstn_skipn | done].
      * destruct (IH H) as (before & date & after & -> & Hd).
        by exists (c :: before), date, after.
  - intros (before & date & after & -> & Hd).
    induction before as [|c before IH].
    + rewrite app_nil_l.
      assert (firstn 10 (date ++ after) = date) as E.
      { rewrite <- (isDateChars_length _ Hd). by rewrite firstn_app, Nat.sub_diag,
          firstn_all, firstn_O, app_nil_r. }
      destruct (date ++ after)%list; cbn [containsDate]; by rewrite E, Hd.
    + change ((c :: before) ++ date ++ after)%list
        with (c :: (before ++ date ++ after))%list.
      cbn [containsDate]. rewrite IH. apply orb_true_r.
Qed.
End TextFacts.

(** X9.  The free-text analyser always starts with [title], [content] and
    [excerpt]; it adds [author_email] exactly when the text holds an at sign
    and a full stop, wherever they stand, and [published_date] exactly when
    the text holds the form dddd-dd-dd somewhere. *)
Theorem analyzeText_fields (content : string) :
  (exists extra,
     analyzeText content =
     ([ ("title", Plain TString true); ("content", Plain TText true);
        ("excerpt", Plain TText false) ] ++ extra)%list) /\
  (In "author_email" (Js.keys (analyzeText content)) <->
   In "@"%char (Js.chars content) /\ In "."%char (Js.chars content)) /\
  (In "published_date" (Js.keys (analyzeText content)) <->
   exists before date after,
     Js.chars content = (before ++ date ++ after)%list /\ isDateChars date = true).
Proof.
  rewrite <- containsDate_iff, <- !includes_In.
  unfold analyzeText.
  destruct (Js.includes "@" content), (Js.includes "." content),
    (containsDate (Js.chars content)); cbn;
    (split; [by eexists |]); split; split; intros; intuition discriminate.
Qed.


(** ** Structured-object analyser *)

Section JsonFacts.
Import Js.

Local Abbreviation describe :=
  (fun (depth : nat) (acc : structure) (entry : string * json) =>
     let fieldName := sanitizeFieldName (fst entry) in
     match snd entry with
     | JArray items =>
         set fieldName
           (Relation fieldName
              match items with
              | first :: _ => inferStructureFromObject first (depth + 1)
              | [] => None
              end) acc
     | JObject _ => set fieldName (Plain TJson false) acc
     | JValue v => set fieldName (Plain (inferType v) false) acc
     end).

Lemma inferStructureFromObject_eq obj depth :
  inferStructureFromObject obj depth =
  if (3 <? depth)%nat then None
  else match obj with
       | JArray items =>
           match items with
           | first :: _ => inferStructureFromObject first (depth + 1)
           | [] => None
           end
       | JObject entries => Some (fold_left (describe depth) entries [])
       | JValue _ => Some []
       end.
Proof. destruct obj; reflexivity. Qed.

Lemma inferStructureFromObject_deep obj depth :
  3 < depth -> inferStructureFromObject obj depth = None.
Proof.
  intros H. rewrite inferStructureFromObject_eq.
  by destruct (Nat.ltb_spec 3 depth); [| lia].
Qed.

Lemma jsonSize_entry (entries : list (string * json)) kv :
  In kv entries ->
  jsonSize (snd kv) <= list_sum (map (fun kv : string * json => jsonSize (snd kv)) entries).
Proof.
  induction entries as [|e entries IH]; simpl; [done |].
  intros [-> | H]; [lia |]. apply IH in H. lia.
Qed.

Lemma nesting_bound_by_size n :
  forall obj depth, jsonSize obj <= n ->
                    structureNesting (inferStructureFromObject obj depth) <= 3 - depth.
Proof.
  induction n as [|n IH]; intros obj depth Hsize.
  { destruct obj; simpl in Hsize; lia. }
  rewrite inferStructureFromObject_eq.
  destruct (Nat.ltb_spec 3 depth) as [|Hd]; [simpl; lia |].
  destruct obj as [v | items | entries].
  - simpl. lia.
  - destruct items as [|first items]; [simpl; lia |].
    etransitivity; [apply IH; simpl in Hsize; lia | lia].
  - cbn [structureNesting]. apply list_max_le.
    assert (forall (sub : list (string * json)) (acc : structure),
      (forall kv, In kv sub -> jsonSize (snd kv) <= n) ->
      Forall (fun kv : string * shape => nesting (snd kv) <= 3 - depth) acc ->
      Forall (fun kv : string * shape => nesting (snd kv) <= 3 - depth)
             (fold_left (describe depth) sub acc)) as G.
    { induction sub as [|e sub IHsub]; intros acc Hsub Hacc; [done |].
      cbn [fold_left]. apply IHsub; [intros kv Hkv; apply Hsub; by right |].
      assert (jsonSize (snd e) <= n) as He by (apply Hsub; by left).
      cbv zeta. unfold set. rewrite sanitizeFieldName_not_proto.
      assert (forall k (sh : shape), nesting sh <= 3 - depth ->
                Forall (fun kv : string * shape => nesting (snd kv) <= 3 - depth)
                       (setOwn k sh acc)) as Hset.
      { intros k sh Hsh. apply setOwn_Forall; [done | by intros | done]. }
      destruct (snd e) as [v | items | sub'] eqn:Ee; apply Hset; cbn [nesting];
        [lia | | lia].
      destruct items as [|first items]; [lia |].
      destruct (inferStructureFromObject first (depth + 1)) as [child|] eqn:Ec; [| lia].
      assert (depth + 1 <= 3) as Hd1.
      { destruct (Nat.le_gt_cases (depth + 1) 3) as [|Hgt]; [done |].
        by rewrite (inferStructureFromObject_deep first _ Hgt) in Ec. }
      assert (structureNesting (inferStructureFromObject first (depth + 1))
              <= 3 - (depth + 1)) as B.
      { apply IH. simpl in He. lia. }
      rewrite Ec in B. cbn [structureNesting] in B. lia. }
    apply List.Forall_map. apply G; [| constructor].
    intros kv Hkv. apply jsonSize_entry in Hkv. simpl in Hsize. lia.
Qed.
End JsonFacts.

(** X10.  Below the depth bound the structured-object analyser answers
    null, and what it answers at a depth never holds more levels of child
    structures than are left to the bound: from depth 0, at most three. *)
Theorem inferStructureFromObject_nesting_bound (obj : json) (depth : nat) :
  (3 < depth -> inferStructureFromObject obj depth = None) /\
  structureNesting (inferStructureFromObject obj depth) <= 3 - depth.
Proof.
  split; [apply inferStructureFromObject_deep |].
  by apply (nesting_bound_by_size (jsonSize obj)).
Qed.

Lemma inferStructureFromObject_nesting_bound_witness :
  inferStructureFromObject (JObject [("a", JValue VNull)]) 4 = None /\
  structureNesting
    (inferStructureFromObject
       (JObject [("a", JArray [JObject [("b", JArray [JObject [("c", JArray [JObject
          [("d", JArray [JObject [("e", JValue VNull)]])]])]])]])]) 0) <= 3.
Proof.
  split.
  - apply (proj1 (inferStructureFromObject_nesting_bound _ 4)). lia.
  - apply (proj2 (inferStructureFromObject_nesting_bound _ 0)).
Defined.


Section JsonObjects.
Import Js.

Lemma fold_set_keys {A V} (key : A -> string) (val : A -> V) items (acc : object V) :
  let final := fold_left (fun acc x => set (key x) (val x) acc) items acc in
  (NoDup (keys acc) -> NoDup (keys final)) /\
  ((forall x, In x items -> String.eqb (key x) "__proto__" = false) ->
   forall k, In k (keys final) <-> In k (keys acc) \/ exists x, In x items /\ key x = k).
Proof.
  revert acc. induction items as [|x items IH]; intros acc; simpl.
  - split; [done |]. intros _ k. split; [tauto | intros [H | (x & [] & _)]; done].
  - destruct (IH (set (key x) (val x) acc)) as [IH1 IH2]. split.
    + intros H. by apply IH1, set_NoDup.
    + intros Hp k. rewrite IH2 by (intros y Hy; apply Hp; by right).
      unfold set. rewrite (Hp x) by (by left). rewrite keys_setOwn_iff. split.
      * intros [[-> | H] | (y & Hy & E)]; [right; exists x; tauto | tauto |].
        right. exists y. tauto.
      * intros [H | (y & [-> | Hy] & E)]; [tauto | left; by left |].
        right. by exists y.
Qed.

Lemma fold_left_pointwise {A B} (f g : B -> A -> B) items acc :
  (forall b a, f b a = g b a) -> fold_left f items acc = fold_left g items acc.
Proof.
  intros E. revert acc. induction items as [|x items IH]; intros acc; simpl; [done |].
  by rewrite E, IH.
Qed.
End JsonObjects.

(** X11.  For an object within the depth bound the structured-object
    analyser answers a structure whose names are distinct and are exactly
    the sanitised keys of the object.  When the sanitised keys are distinct,
    the structure holds one field per key: an array becomes a relation
    named after the field, with the structure of its first element as child
    (null for an empty array), an object becomes [json], and anything else
    gets the type of its value.  The structure enumerates the names that are
    array indices first, by ascending index, and then the others in the
    order of the keys; when no name is an array index, that is the order of
    the keys. *)
Theorem inferStructureFromObject_object
    (entries : list (string * json)) (depth : nat) :
  depth <= 3 ->
  let properties :=
    map (fun e : string * json =>
           (sanitizeFieldName (fst e),
            match snd e with
            | JArray items =>
                Relation (sanitizeFieldName (fst e))
                  match items with
                  | first :: _ => inferStructureFromObject first (depth + 1)
                  | [] => None
                  end
            | JObject _ => Plain TJson false
            | JValue v => Plain (inferType v) false
            end))
        entries in
  exists fields,
    inferStructureFromObject (JObject entries) depth = Some fields /\
    NoDup (Js.keys fields) /\
    (forall k, In k (Js.keys fields) <->
               exists e, In e entries /\ sanitizeFieldName (fst e) = k) /\
    (NoDup (map (fun e : string * json => sanitizeFieldName (fst e)) entries) ->
     enumerationOf properties fields /\
     (Forall (fun e : string * json => isArrayIndex (sanitizeFieldName (fst e)) = false)
             entries ->
      fields = properties)).
Proof.
  intros Hd properties. rewrite inferStructureFromObject_eq.
  destruct (Nat.ltb_spec 3 depth); [lia |].
  eexists. split; [reflexivity |].
  set (val := fun e : string * json =>
         match snd e with
         | JArray items =>
             Relation (sanitizeFieldName (fst e))
               match items with
               | first :: _ => inferStructureFromObject first (depth + 1)
               | [] => None
               end
         | JObject _ => Plain TJson false
         | JValue v => Plain (inferType v) false
         end).
  rewrite (fold_left_pointwise _
             (fun acc e => Js.set (sanitizeFieldName (fst e)) (val e) acc)).
  2:{ intros acc e. subst val. cbv beta zeta. by destruct (snd e). }
  destruct (fold_set_keys (fun e : string * json => sanitizeFieldName (fst e)) val
              entries []) as [K1 K2]. cbv zeta in K1, K2.
  split; [apply K1; constructor |]. split.
  - intros k. rewrite K2 by (intros; apply sanitizeFieldName_not_proto).
    split; [intros [[] | Hk]; exact Hk | by right].
  - intros Hnd.
    assert (enumerationOf properties
              (fold_left (fun acc e => Js.set (sanitizeFieldName (fst e)) (val e) acc)
                         entries [])) as Henum.
    { apply (fold_set_enumerationOf
               (fun e : string * json => sanitizeFieldName (fst e)) val entries Hnd).
      apply Forall_forall. intros e _. apply sanitizeFieldName_not_proto. }
    split; [exact Henum |].
    intros Hnamed. apply (enumerationOf_named _ _ Henum).
    subst properties. apply List.Forall_map.
    rewrite List.Forall_forall in Hnamed |- *. intros e He. by apply Hnamed.
Qed.

Lemma inferStructureFromObject_object_witness :
  inferStructureFromObject
    (JObject [ ("Title", JValue (VString "x")); ("#7", JArray []);
               ("Author", JObject [("name", JValue VNull)]);
               ("Items", JArray [JObject [("Qty", JValue (VNumber "2"))]]) ]) 0 =
  Some [ ("7", Relation "7" None); ("title", Plain TString false);
         ("author", Plain TJson false);
         ("items", Relation "items" (Some [("qty", Plain TInteger false)])) ] /\
  exists fields,
    inferStructureFromObject
      (JObject [ ("Title", JValue (VString "x")); ("#7", JArray []);
                 ("Author", JObject [("name", JValue VNull)]);
                 ("Items", JArray [JObject [("Qty", JValue (VNumber "2"))]]) ]) 0 =
    Some fields /\
    enumerationOf
      [ ("title", Plain TString false); ("7", Relation "7" None);
        ("author", Plain TJson false);
        ("items", Relation "items" (Some [("qty", Plain TInteger false)])) ] fields.
Proof.
  split; [reflexivity |].
  destruct (inferStructureFromObject_object
              [ ("Title", JValue (VString "x")); ("#7", JArray []);
                ("Author", JObject [("name", JValue VNull)]);
                ("Items", JArray [JObject [("Qty", JValue (VNumber "2"))]]) ] 0)
    as (fields & E & _ & _ & Hexact); [lia |].
  exists fields. split; [exact E |].
  apply Hexact. refine (bool_decide_unpack _ _). vm_compute. exact I.
Defined.


(** ** The catalogue *)

Section CatalogFacts.

Lemma NoDup_prefixed (prefix : string) (tables : list Table.t) (bases : list string) :
  Forall2 (fun table base => Table.name table = prefix +:+ base) tables bases ->
  NoDup bases -> NoDup (map Table.name tables).
Proof.
  intros H. induction H as [|t b tables bases Ht H IH]; simpl; [constructor |].
  intros [Hb Hnd]%NoDup_cons. apply NoDup_cons. split; [| by apply IH].
  intros Hin. apply Hb. apply list_elem_of_In, in_map_iff in Hin as (t' & E & Ht').
  apply list_elem_of_In.
  clear -H E Ht Ht'. induction H as [|t0 b0 tables bases Ht0 H IH]; [done |].
  destruct Ht' as [-> | Ht'].
  - left. rewrite Ht, Ht0 in E. by apply String.app_inj in E.
  - right. by apply IH.
Qed.
End CatalogFacts.

(** X12.  Whatever the configuration, every table of the table set has
    distinct field names, each of its fields has a name the sanitiser leaves
    alone and a type every dialect maps, and the primary key and
    auto-increment marks stand on the column [id] and on no other; the name
    of the table is the prefix followed by a name the sanitiser leaves
    alone, and no two tables of the set have the same name. *)
Theorem generateStructure_tables_well_formed
    (config : Config.t) (analyzedData : AnalyzedData.t) :
  Forall (fun table =>
            (NoDup (map Field.name (Table.fields table)) /\
             Forall catalogField (Table.fields table)) /\
            exists base, Table.name table = Config.tablePrefix config +:+ base /\
                         sanitizeFieldName base = base)
         (generateStructure config analyzedData []) /\
  NoDup (map Table.name (generateStructure config analyzedData [])).
Proof.
  unfold generateStructure.
  repeat (match goal with |- context [if ?b then _ else _] => destruct b end);
    unfold generateBlogStructure, generatePortfolioStructure,
      generateEcommerceStructure, generateDocumentationStructure,
      generateCorporateStructure, generateCustomStructure,
      addMetadataTables, addMediaTables, tableName;
    cbn [app]; (split;
    [ repeat (apply List.Forall_cons;
              [split; [refine (bool_decide_unpack _ _); vm_compute; exact I
                      | eexists; split; reflexivity] |]);
      apply List.Forall_nil
    | eapply (NoDup_prefixed (Config.tablePrefix config));
      [ repeat (econstructor; [reflexivity |]); constructor
      | refine (bool_decide_unpack _ _); vm_compute; exact I ] ]).
Qed.


(** ** Size of a result, and the fall-backs *)

Section SizeFacts.
Lemma generateStructure_size config :
  1 <= length (generateStructure config noAnalysis []) <= 8 /\
  8 <= countFields (generateStructure config noAnalysis []) <= 54.
Proof.
  unfold generateStructure.
  repeat (match goal with |- context [if ?b then _ else _] => destruct b end);
    vm_compute; lia.
Qed.
End SizeFacts.

(** X13.  Unless the configuration is the fatal one, a call on a new
    generator returns a result with one to eight tables, whose field count
    is the sum of the field counts of its tables and lies between 8 and 54:
    a result is never empty. *)
Theorem generateFromFiles_result_size
    (JSON_parse : string -> option json) (JSON_stringify : Mongo.schema -> string)
    (readFile : string -> option string) (now : string)
    (config : Config.t) (fileInfos : list FileInfo.t) :
  fatal config = false ->
  exists result,
    fst (generateFromFiles JSON_parse JSON_stringify readFile now
           (constructor config) fileInfos) = Returned result /\
    1 <= length (SchemaResult.tables result) <= 8 /\
    SchemaResult.totalFields result =
      list_sum (map (fun table => length (Table.fields table))
                    (SchemaResult.tables result)) /\
    8 <= SchemaResult.totalFields result <= 54.
Proof.
  intros Hf.
  pose proof (generateFromFiles_returns JSON_parse JSON_stringify readFile now
                (constructor config) fileInfos) as R.
  destruct (generateFromFiles_members JSON_parse JSON_stringify readFile now
              (constructor config) fileInfos) as (T & N & _).
  cbv zeta in T, N. simpl in R, T, N. rewrite Hf in R, T, N.
  destruct (fst (generateFromFiles _ _ _ _ _ _)) as [result|]; [| done].
  injection T as T. injection N as N.
  exists result. split; [done |]. rewrite T, N.
  destruct (generateStructure_size config) as [S1 S2].
  split; [done |]. split; [| done].
  generalize (generateStructure config noAnalysis []). intros tables.
  unfold countFields.
  assert (forall n, fold_left (fun sum table => sum + length (Table.fields table)) tables n =
                    n + list_sum (map (fun table => length (Table.fields table)) tables))
    as G; [| by rewrite G].
  induction tables as [|t tables IH]; intros n; simpl; [lia |]. rewrite IH. lia.
Qed.

Lemma generateFromFiles_result_size_witness :
  exists result,
    fst (generateFromFiles sampleParse stringifyUnused sampleDisk sampleNow
           (constructor customSite) [notesTxt]) = Returned result /\
    1 <= length (SchemaResult.tables result) <= 8 /\
    SchemaResult.totalFields result =
      list_sum (map (fun table => length (Table.fields table))
                    (SchemaResult.tables result)) /\
    8 <= SchemaResult.totalFields result <= 54.
Proof.
  exact (generateFromFiles_result_size sampleParse stringifyUnused sampleDisk sampleNow
           customSite [notesTxt] eq_refl).
Defined.

(** X14.  A domain tag that is none of the five named ones gives the table
    set of [custom], and a dialect tag that is none of the four named ones
    is rendered as [mysql]; the comparison is exact, so a tag in capitals
    falls back too. *)
Theorem unknown_tags_fall_back
    (JSON_stringify : Mongo.schema -> string) (config : Config.t) :
  (~ In (Config.websiteType config)
        ["blog"; "portfolio"; "ecommerce"; "documentation"; "corporate"] ->
   forall analyzedData tables,
     generateStructure config analyzedData tables =
     generateStructure (withWebsiteType "custom" config) analyzedData tables) /\
  (~ In (Config.databaseType config) ["mysql"; "postgresql"; "sqlite"; "mongodb"] ->
   forall now tables,
     generateSQL JSON_stringify config now tables =
     generateSQL JSON_stringify (withDatabaseType "mysql" config) now tables).
Proof.
  split.
  - intros H analyzedData tables. unfold generateStructure, withWebsiteType. simpl.
    assert (forall tag,
              In tag ["blog"; "portfolio"; "ecommerce"; "documentation"; "corporate"] ->
              String.eqb (Config.websiteType config) tag = false) as Hne.
    { intros tag Hin. destruct (String.eqb_spec (Config.websiteType config) tag) as [E|];
        [by rewrite <- E in Hin | done]. }
    rewrite !Hne by (simpl; tauto).
    unfold generateCustomStructure, addMetadataTables, addMediaTables, tableName.
    reflexivity.
  - intros H now tables. unfold generateSQL, withDatabaseType. simpl.
    assert (forall tag,
              In tag ["mysql"; "postgresql"; "sqlite"; "mongodb"] ->
              String.eqb (Config.databaseType config) tag = false) as Hne.
    { intros tag Hin. destruct (String.eqb_spec (Config.databaseType config) tag) as [E|];
        [by rewrite <- E in Hin | done]. }
    rewrite !Hne by (simpl; tauto).
    unfold generateMySQLSchema, header, printProjectName. reflexivity.
Qed.

Lemma unknown_tags_fall_back_witness :
  generateStructure (withWebsiteType "Blog" storefront) noAnalysis [] =
  generateStructure (withWebsiteType "custom" storefront) noAnalysis [] /\
  generateSQL stringifyUnused (withDatabaseType "MongoDB" storefront) sampleNow [ordersTable] =
  generateSQL stringifyUnused (withDatabaseType "mysql" storefront) sampleNow [ordersTable].
Proof.
  split.
  - apply (proj1 (unknown_tags_fall_back stringifyUnused (withWebsiteType "Blog" storefront))).
    simpl. intuition discriminate.
  - apply (proj2 (unknown_tags_fall_back stringifyUnused
                    (withDatabaseType "MongoDB" storefront))).
    simpl. intuition discriminate.
Defined.

(** ** Text of the renderers *)

(** X15.  For a dialect other than the document store, the schema text is
    the two comment lines of the header followed by one block per table, in
    the order of the tables, each block depending on its table alone; the
    time of the call shows in the second header line and nowhere else. *)
Theorem sql_text_is_header_then_blocks
    (JSON_stringify : Mongo.schema -> string) (config : Config.t) :
  String.eqb (Config.databaseType config) "mongodb" = false ->
  exists (dialect : string) (block : Table.t -> string),
    forall now tables,
      generateSQL JSON_stringify config now tables =
      Returned
        ("-- Generated " +:+ dialect +:+ " Schema for " +:+ printProjectName config +:+
         Js.LF +:+ "-- Generated at: " +:+ now +:+ Js.LF +:+ Js.LF +:+
         String.concat "" (map block tables)).
Proof.
  intros Hm. unfold generateSQL. rewrite Hm.
  assert (forall dialect now rest,
    header config now dialect +:+ rest =
    "-- Generated " +:+ dialect +:+ " Schema for " +:+ printProjectName config +:+
    Js.LF +:+ "-- Generated at: " +:+ now +:+ Js.LF +:+ Js.LF +:+ rest) as Hh.
  { intros. unfold header. by rewrite !append_assoc. }
  destruct (String.eqb (Config.databaseType config) "mysql");
    [| destruct (String.eqb (Config.databaseType config) "postgresql");
       [| destruct (String.eqb (Config.databaseType config) "sqlite")]].
  - exists "MySQL", mysqlTable. intros.
    unfold generateMySQLSchema. by rewrite fold_append, Hh.
  - exists "PostgreSQL", postgresTable. intros.
    unfold generatePostgreSQLSchema. by rewrite fold_append, Hh.
  - exists "SQLite", sqliteTable. intros.
    unfold generateSQLiteSchema. by rewrite fold_append, Hh.
  - exists "MySQL", mysqlTable. intros.
    unfold generateMySQLSchema. by rewrite fold_append, Hh.
Qed.

Lemma sql_text_is_header_then_blocks_witness :
  exists (dialect : string) (block : Table.t -> string),
    forall now tables,
      generateSQL stringifyUnused customSite now tables =
      Returned
        ("-- Generated " +:+ dialect +:+ " Schema for " +:+ printProjectName customSite +:+
         Js.LF +:+ "-- Generated at: " +:+ now +:+ Js.LF +:+ Js.LF +:+
         String.concat "" (map block tables)).
Proof. exact (sql_text_is_header_then_blocks stringifyUnused customSite eq_refl). Defined.


(** ** Document of the document-store renderer *)

Section MongoDocument.
Import Js.

Lemma lowerChar_not_upper c : between 65 90 (lowerChar c) = false.
Proof. destruct c as [[] [] [] [] [] [] [] []]; vm_compute; reflexivity. Qed.

Lemma replaceWhiteSpaceRuns_Forall (P : ascii -> Prop) l :
  P "_"%char -> Forall P l -> Forall P (replaceWhiteSpaceRuns l).
Proof.
  intros Hu. induction 1 as [|c l Hc Hl IH]; simpl; [constructor |].
  destruct (isWhiteSpace c); [| by constructor].
  destruct (match l with c' :: _ => isWhiteSpace c' | [] => false end);
    [done | by constructor].
Qed.

Lemma replaceWhiteSpaceRuns_no_white_space l :
  Forall (fun c => isWhiteSpace c = false) (replaceWhiteSpaceRuns l).
Proof.
  induction l as [|c l IH]; simpl; [constructor |].
  destruct (isWhiteSpace c) eqn:E; [| by constructor].
  destruct (match l with c' :: _ => isWhiteSpace c' | [] => false end);
    [done | by constructor].
Qed.

Local Abbreviation addProperty :=
  (fun (properties : object Mongo.property) (field : Field.t) =>
     if Field.autoIncrement field then properties
     else set (Field.name field)
            (Mongo.Property (mapTypeToMongo (Field.type field))
               (Field.name field +:+ " field")) properties).

Lemma fold_addProperty_other fields (acc : object Mongo.property) k :
  (forall f, In f fields -> Field.name f <> k) ->
  getOwn k (fold_left addProperty fields acc) = getOwn k acc.
Proof.
  revert acc. induction fields as [|g fields IH]; intros acc H; simpl; [done |].
  rewrite IH by (intros f Hf; apply H; by right).
  destruct (Field.autoIncrement g); [done |].
  unfold set. destruct (String.eqb (Field.name g) "__proto__"); [done |].
  rewrite getOwn_setOwn.
  destruct (String.eqb_spec (Field.name g) k) as [E|]; [| done].
  destruct (H g); [by left | done].
Qed.

Lemma fold_addProperty_lookup fields (acc : object Mongo.property) f :
  NoDup (map Field.name fields) -> In f fields ->
  Field.autoIncrement f = false -> String.eqb (Field.name f) "__proto__" = false ->
  getOwn (Field.name f) (fold_left addProperty fields acc) =
  Some (Mongo.Property (mapTypeToMongo (Field.type f)) (Field.name f +:+ " field")).
Proof.
  revert acc. induction fields as [|g fields IH]; intros acc Hnd Hin Ha Hp; [done |].
  apply NoDup_cons in Hnd as [Hg Hnd]. cbn [fold_left].
  destruct Hin as [-> | Hin]; [| by apply IH].
  rewrite fold_addProperty_other.
  - rewrite Ha. unfold set. rewrite Hp, getOwn_setOwn. by rewrite String.eqb_refl.
  - intros h Hh E. apply Hg. rewrite <- E.
    apply list_elem_of_In, in_map. exact Hh.
Qed.

Lemma fold_addProperty_keys fields (acc : object Mongo.property) :
  ~ In "__proto__" (keys acc) ->
  ~ In "__proto__" (keys (fold_left addProperty fields acc)).
Proof.
  revert acc. induction fields as [|g fields IH]; intros acc H; simpl; [done |].
  apply IH. destruct (Field.autoIncrement g); [done |].
  unfold set. destruct (String.eqb_spec (Field.name g) "__proto__") as [|Hne]; [done |].
  rewrite keys_setOwn_iff. intros [E | Hin]; [by apply Hne | by apply H].
Qed.
End MongoDocument.

(** X16.  Under the document-store dialect with a project name, the text is
    that of one document, whatever the time of the call: its database name
    holds no white space and no capital of [A-Z], and its collections are
    named after the tables, in their order. *)
Theorem mongo_document_shape
    (JSON_stringify : Mongo.schema -> string) (config : Config.t)
    (projectName : string) (tables : list Table.t) :
  Config.databaseType config = "mongodb" ->
  Config.projectName config = Some projectName ->
  exists schema,
    (forall now, generateSQL JSON_stringify config now tables =
                 Returned (JSON_stringify schema)) /\
    Forall (fun c => Js.isWhiteSpace c = false /\ Js.between 65 90 c = false)
           (Js.chars (Mongo.database schema)) /\
    map Mongo.name (Mongo.collections schema) = map Table.name tables.
Proof.
  intros Hd Hp.
  exists (Mongo.Schema
            (Js.str (replaceWhiteSpaceRuns (Js.chars (Js.toLowerCase projectName))))
            (map mongoCollection tables)).
  split; [| split].
  - intros now. unfold generateSQL, generateMongoDBSchema, mongoSchema.
    by rewrite Hd, Hp.
  - cbn [Mongo.database]. rewrite chars_str.
    apply Forall_and. split; [apply replaceWhiteSpaceRuns_no_white_space |].
    apply replaceWhiteSpaceRuns_Forall; [done |].
    unfold Js.toLowerCase. rewrite chars_str.
    apply List.Forall_map, Forall_forall. intros c _. apply lowerChar_not_upper.
  - cbn [Mongo.collections]. rewrite map_map. reflexivity.
Qed.

Lemma mongo_document_shape_witness :
  exists schema,
    (forall now,
       generateSQL (fun s => Mongo.database s)
         (Config.make "custom" (Some "My  Shop A") "mongodb" false false "") now
         [ordersTable] =
       Returned ((fun s => Mongo.database s) schema)) /\
    Forall (fun c => Js.isWhiteSpace c = false /\ Js.between 65 90 c = false)
           (Js.chars (Mongo.database schema)) /\
    map Mongo.name (Mongo.collections schema) = map Table.name [ordersTable].
Proof.
  exact (mongo_document_shape (fun s => Mongo.database s)
           (Config.make "custom" (Some "My  Shop A") "mongodb" false false "")
           "My  Shop A" [ordersTable] eq_refl eq_refl).
Defined.

(** X17.  In the validator of a table whose field names are distinct, every
    field that is not auto-increment and is not named [__proto__] has a
    property under its name, holding the document-store type of the field
    and the description made of its name; [__proto__] is never a key of the
    property map. *)
Theorem mongo_properties_lookup (table : Table.t) (f : Field.t) :
  NoDup (map Field.name (Table.fields table)) ->
  In f (Table.fields table) ->
  Field.autoIncrement f = false ->
  Field.name f <> "__proto__" ->
  Js.getOwn (Field.name f) (Mongo.properties (Mongo.validator (mongoCollection table))) =
    Some (Mongo.Property (mapTypeToMongo (Field.type f)) (Field.name f +:+ " field")) /\
  ~ In "__proto__" (Js.keys (Mongo.properties (Mongo.validator (mongoCollection table)))).
Proof.
  intros Hnd Hin Ha Hp. cbn [mongoCollection Mongo.validator Mongo.properties].
  unfold generateMongoProperties. split.
  - apply fold_addProperty_lookup; try done.
    by destruct (String.eqb_spec (Field.name f) "__proto__").
  - apply fold_addProperty_keys. intros [].
Qed.

Lemma mongo_properties_lookup_witness :
  Js.getOwn "order_number"
    (Mongo.properties (Mongo.validator (mongoCollection ordersTable))) =
  Some (Mongo.Property "string" "order_number field").
Proof.
  refine (proj1 (mongo_properties_lookup ordersTable
                   (uniq (len 50 (column "order_number" TString true)))
                   _ (or_intror (or_introl eq_refl)) eq_refl _)).
  - refine (bool_decide_unpack _ _). vm_compute. exact I.
  - discriminate.
Defined.


(** ** The upload form *)

Section UploadFormFacts.

Local Abbreviation key := (fun f => (BrowserFile.name f, BrowserFile.size f)).

Local Abbreviation push :=
  (fun (selectedFiles : list BrowserFile.t) (file : BrowserFile.t) =>
     if existsb (fun f => sameFile f file) selectedFiles then selectedFiles
     else (selectedFiles ++ [file])%list).

Lemma sameFile_key f g : sameFile f g = true <-> key f = key g.
Proof.
  unfold sameFile. rewrite andb_true_iff, String.eqb_eq, Nat.eqb_eq.
  split; [intros [-> ->]; done | intros [= -> ->]; done].
Qed.

Lemma listed_key selectedFiles g :
  existsb (fun f => sameFile f g) selectedFiles = true <->
  In (key g) (map key selectedFiles).
Proof.
  rewrite existsb_exists, in_map_iff. split.
  - intros (f & Hf & E%sameFile_key). by exists f.
  - intros (f & E & Hf). exists f. split; [done | by apply sameFile_key].
Qed.

Lemma fold_push_prefix files selectedFiles :
  exists added,
    fold_left push files selectedFiles = (selectedFiles ++ added)%list /\
    forall g, In g added -> In g files.
Proof.
  revert selectedFiles. induction files as [|g files IH]; intros sel; simpl.
  - exists []. by rewrite app_nil_r.
  - destruct (existsb _ sel).
    + destruct (IH sel) as (added & -> & H). exists added. split; [done |].
      intros; right; by apply H.
    + destruct (IH (sel ++ [g])%list) as (added & -> & H).
      exists (g :: added). rewrite <- app_assoc. split; [done |].
      intros h [-> | Hh]; [by left | right; by apply H].
Qed.

Lemma fold_push_distinct files selectedFiles :
  distinctFiles selectedFiles -> distinctFiles (fold_left push files selectedFiles).
Proof.
  revert selectedFiles. induction files as [|g files IH]; intros sel H; simpl; [done |].
  apply IH. destruct (existsb _ sel) eqn:E; [done |].
  unfold distinctFiles. rewrite map_app. apply NoDup_app. split; [done |].
  split; [| apply NoDup_singleton].
  intros k Hk Hg. apply list_elem_of_In in Hg. simpl in Hg. destruct Hg as [<- | []].
  apply list_elem_of_In, listed_key in Hk. congruence.
Qed.

Lemma fold_push_listed files selectedFiles g :
  existsb (fun f => sameFile f g) selectedFiles = true \/ In g files ->
  existsb (fun f => sameFile f g) (fold_left push files selectedFiles) = true.
Proof.
  revert selectedFiles. induction files as [|h files IH]; intros sel; simpl.
  - intros [H | []]. exact H.
  - intros H. apply IH.
    destruct H as [H | [-> | H]]; [| | by right].
    + left. destruct (existsb (fun f => sameFile f h) sel); [done |].
      rewrite existsb_app, H. done.
    + left. destruct (existsb (fun f => sameFile f g) sel) eqn:E; [done |].
      rewrite existsb_app. simpl.
      assert (sameFile g g = true) as -> by (by apply sameFile_key).
      by rewrite orb_true_r.
Qed.

Lemma fold_push_nothing_new files selectedFiles :
  (forall g, In g files -> existsb (fun f => sameFile f g) selectedFiles = true) ->
  fold_left push files selectedFiles = selectedFiles.
Proof.
  induction files as [|g files IH]; intros H; simpl; [done |].
  rewrite (H g) by (by left). apply IH. intros; apply H; by right.
Qed.
End UploadFormFacts.

(** X18.  [addFiles] leaves the files already selected where they are and
    appends only files of its argument whose last dot-separated segment,
    in lower case, is a supported extension; every such file of the
    argument is in the list afterwards, by name and size; a list that held
    no file twice still holds none twice; and adding the same files again
    changes nothing. *)
Theorem addFiles_keeps_the_list_distinct (files selectedFiles : list BrowserFile.t) :
  (exists added,
     addFiles files selectedFiles = (selectedFiles ++ added)%list /\
     Forall (fun g => isValidFile g = true /\ In g files) added) /\
  (distinctFiles selectedFiles -> distinctFiles (addFiles files selectedFiles)) /\
  (forall g, In g files -> isValidFile g = true ->
     exists f, In f (addFiles files selectedFiles) /\
               BrowserFile.name f = BrowserFile.name g /\
               BrowserFile.size f = BrowserFile.size g) /\
  addFiles files (addFiles files selectedFiles) = addFiles files selectedFiles.
Proof.
  unfold addFiles. cbv zeta. repeat split.
  - destruct (fold_push_prefix (List.filter isValidFile files) selectedFiles)
      as (added & E & H).
    exists added. split; [exact E |]. apply Forall_forall. intros g Hg.
    apply list_elem_of_In, H, filter_In in Hg. tauto.
  - apply fold_push_distinct.
  - intros g Hin Hv.
    assert (existsb (fun f => sameFile f g)
              (fold_left (fun sel file =>
                            if existsb (fun f => sameFile f file) sel then sel
                            else (sel ++ [file])%list)
                         (List.filter isValidFile files) selectedFiles) = true) as E.
    { apply fold_push_listed. right. by apply filter_In. }
    apply existsb_exists in E as (f & Hf & [= E1 E2]%sameFile_key). by exists f.
  - apply fold_push_nothing_new. intros g Hg.
    apply fold_push_listed. by right.
Qed.

Lemma addFiles_keeps_the_list_distinct_witness :
  addFiles [ BrowserFile.make "Report.PDF" 10; BrowserFile.make "run.exe" 7;
             BrowserFile.make "csv" 3; BrowserFile.make "a.txt" 1 ]
           [ BrowserFile.make "a.txt" 1 ] =
  [ BrowserFile.make "a.txt" 1; BrowserFile.make "Report.PDF" 10;
    BrowserFile.make "csv" 3 ] /\
  distinctFiles
    (addFiles [ BrowserFile.make "Report.PDF" 10; BrowserFile.make "run.exe" 7;
                BrowserFile.make "csv" 3; BrowserFile.make "a.txt" 1 ]
              [ BrowserFile.make "a.txt" 1 ]).
Proof.
  split; [reflexivity |].
  apply (proj1 (proj2 (addFiles_keeps_the_list_distinct _ _))).
  refine (bool_decide_unpack _ _). vm_compute. exact I.
Defined.

(** X19.  Removing the entry at the old length after adding one file gives
    the old list back, whether the file was added or not; removing at an
    index past the end changes nothing, removing at an index within the
    list takes exactly one entry away, and a list that held no file twice
    still holds none twice. *)
Theorem removeFile_undoes_addFiles
    (file : BrowserFile.t) (selectedFiles : list BrowserFile.t) (index : nat) :
  removeFile (length selectedFiles) (addFiles [file] selectedFiles) = selectedFiles /\
  (length selectedFiles <= index -> removeFile index selectedFiles = selectedFiles) /\
  (index < length selectedFiles ->
   S (length (removeFile index selectedFiles)) = length selectedFiles) /\
  (distinctFiles selectedFiles -> distinctFiles (removeFile index selectedFiles)).
Proof.
  unfold removeFile. repeat split.
  - unfold addFiles. cbn [List.filter].
    destruct (isValidFile file); cbn [fold_left];
      [destruct (existsb _ selectedFiles) |].
    + by rewrite firstn_all, skipn_all2, app_nil_r by lia.
    + rewrite firstn_app, Nat.sub_diag, firstn_all, firstn_O, app_nil_r.
      rewrite skipn_all2; [by rewrite app_nil_r |]. rewrite length_app. simpl. lia.
    + by rewrite firstn_all, skipn_all2, app_nil_r by lia.
  - intros H. by rewrite firstn_all2, skipn_all2, app_nil_r by lia.
  - intros H. rewrite length_app, length_firstn, length_skipn. lia.
  - unfold distinctFiles. intros H.
    rewrite <- (firstn_skipn index selectedFiles) in H.
    rewrite map_app in *. apply NoDup_app in H as (H1 & H2 & H3).
    apply NoDup_app. split; [done |].
    assert (forall k, In k (map (fun f => (BrowserFile.name f, BrowserFile.size f))
                                (skipn (S index) selectedFiles)) ->
                      In k (map (fun f => (BrowserFile.name f, BrowserFile.size f))
                                (skipn index selectedFiles))) as Hsub.
    { intros k. rewrite !in_map_iff. intros (f & E & Hf). exists f. split; [done |].
      clear -Hf. revert index Hf. induction selectedFiles as [|x l IH]; intros i Hf.
      - by rewrite skipn_nil in Hf.
      - destruct i as [|i]; [simpl in *; by right |]. simpl. by apply IH. }
    split.
    + intros k Hk Hk'. apply (H2 k Hk). apply list_elem_of_In, Hsub.
      by apply list_elem_of_In.
    + clear -H3. revert index H3. induction selectedFiles as [|x l IH]; intros i H.
      * rewrite skipn_nil. constructor.
      * destruct i as [|i]; simpl in *; [by apply NoDup_cons in H as [_ H] |].
        by apply IH.
Qed.

Lemma removeFile_undoes_addFiles_witness :
  removeFile 5 [BrowserFile.make "a.txt" 1; BrowserFile.make "b.md" 2] =
  [BrowserFile.make "a.txt" 1; BrowserFile.make "b.md" 2] /\
  S (length (removeFile 0 [BrowserFile.make "a.txt" 1; BrowserFile.make "b.md" 2])) = 2.
Proof.
  destruct (removeFile_undoes_addFiles (BrowserFile.make "c.csv" 3)
              [BrowserFile.make "a.txt" 1; BrowserFile.make "b.md" 2] 5)
    as (_ & Hpast & _).
  destruct (removeFile_undoes_addFiles (BrowserFile.make "c.csv" 3)
              [BrowserFile.make "a.txt" 1; BrowserFile.make "b.md" 2] 0)
    as (_ & _ & Hin & _).
  split; [apply Hpast; simpl; lia | apply Hin; simpl; lia].
Defined.


(** ** The request handler *)

Section ServerFacts.
Variable JSON_parse : string -> option json.
Variable JSON_stringify : Mongo.schema -> string.
Variable extname : string -> string.
Variable canUnlink : string -> bool.

Lemma orText_mongodb v d :
  d <> "mongodb" -> (orText v d = "mongodb" <-> v = Some "mongodb").
Proof.
  intros Hd. unfold orText. destruct v as [s|]; [| split; [done | discriminate]].
  destruct (String.eqb_spec s "") as [-> | Hs].
  - split; [done | discriminate].
  - split; [by intros -> | by intros [= ->]].
Qed.

Lemma text_Some v s : text v = Some s <-> v = Some (FText s).
Proof.
  destruct v as [[]|]; simpl; split; try done; by intros [= ->].
Qed.

Lemma fatal_extractConfig body :
  fatal (extractConfig body) = true <->
  Body.databaseType body = Some (FText "mongodb") /\ text (Body.projectName body) = None.
Proof.
  unfold fatal, extractConfig. cbn [Config.databaseType Config.projectName].
  rewrite andb_true_iff, String.eqb_eq, orText_mongodb, text_Some by discriminate.
  destruct (text (Body.projectName body)); split; intros [? ?]; done.
Qed.

Lemma unlink_lookup disk file path :
  unlink canUnlink disk file !! path =
  if String.eqb (Upload.path file) path && canUnlink path then None else disk !! path.
Proof.
  unfold unlink. destruct (String.eqb_spec (Upload.path file) path) as [<- | Hne].
  - destruct (canUnlink _); [apply lookup_delete_eq | done].
  - destruct (canUnlink _); [by apply lookup_delete_ne | done].
Qed.

Lemma cleanupFiles_lookup files disk path :
  cleanupFiles canUnlink files disk !! path =
  if unlinked canUnlink files path then None else disk !! path.
Proof.
  unfold cleanupFiles, unlinked. revert disk.
  induction files as [|file files IH]; intros disk; [done |].
  cbn [fold_left existsb]. rewrite IH, unlink_lookup.
  destruct (String.eqb _ _ && canUnlink _); [| done].
  by destruct (existsb _ files).
Qed.

Lemma handler_with_files req disk now later :
  uploaded req <> [] ->
  generateSchemaHandler JSON_parse JSON_stringify extname canUnlink req disk now later =
  let config := extractConfig (Request.body req) in
  let tables := generateStructure config noAnalysis [] in
  (if plainForm (Request.body req) then
     match generateSQL JSON_stringify config now tables with
     | Returned sql =>
         Some (Success (Config.projectName config) (Config.databaseType config) sql
                 tables (countFields tables) [] later)
     | Thrown error => Some (ServerError "Schema generation failed" error)
     end
   else None, cleanupFiles canUnlink (uploaded req) disk).
Proof.
  unfold generateSchemaHandler, uploaded.
  destruct (Request.files req) as [[|file files]|]; [done | | done]. intros _.
  cbv zeta. rewrite generateFromFiles_outcome. cbv zeta.
  cbn [SchemaGenerator.config SchemaGenerator.tables SchemaGenerator.metadata
       SchemaGenerator.relationships constructor app].
  by destruct (generateSQL _ _ _ _).
Qed.

Lemma handler_without_files req disk now later :
  uploaded req = [] ->
  generateSchemaHandler JSON_parse JSON_stringify extname canUnlink req disk now later =
  (Some (BadRequest "No files uploaded" "Please upload at least one file"), disk).
Proof.
  unfold generateSchemaHandler, uploaded.
  by destruct (Request.files req) as [[|file files]|].
Qed.
End ServerFacts.

(** X20.  A request without files is answered 400.  A request with files
    and a plain form (no array or object where a conversion to text would
    meet it) is answered 500 exactly when the form asks for mongodb and its
    project name is not a text, be it missing, sent more than once or sent
    under a name in brackets, and 200 otherwise; a 200 response carries the
    form's project name, the database type (mysql when the form gives none),
    the tables of the configuration alone with their number of fields, and
    an empty metadata object; and the response does not depend on what the
    disk holds. *)
Theorem handler_response_depends_on_the_form_only
    (JSON_parse : string -> option json) (JSON_stringify : Mongo.schema -> string)
    (extname : string -> string) (canUnlink : string -> bool)
    (req : Request.t) (disk : gmap string string) (now later : string) :
  let handler := generateSchemaHandler JSON_parse JSON_stringify extname canUnlink in
  let body := Request.body req in
  let tables := generateStructure (extractConfig body) noAnalysis [] in
  (uploaded req = [] ->
   fst (handler req disk now later) =
   Some (BadRequest "No files uploaded" "Please upload at least one file")) /\
  (uploaded req <> [] -> plainForm body = true ->
   exists response,
     (forall disk', fst (handler req disk' now later) = Some response) /\
     (status response = 500 <->
      Body.databaseType body = Some (FText "mongodb") /\
      text (Body.projectName body) = None) /\
     (status response = 200 \/ status response = 500) /\
     (status response = 200 ->
      exists schema,
        response =
        Success (text (Body.projectName body))
          (orText (text (Body.databaseType body)) "mysql")
          schema tables (countFields tables) [] later)).
Proof.
  intros handler body tables. subst handler. split.
  - intros E. by rewrite handler_without_files.
  - intros Hne Hplain.
    pose proof (generateSQL_returns JSON_stringify (extractConfig body) now tables) as R.
    pose proof (fatal_extractConfig body) as F.
    destruct (generateSQL JSON_stringify (extractConfig body) now tables)
      as [sql|error] eqn:Esql.
    + exists (Success (text (Body.projectName body))
                (orText (text (Body.databaseType body)) "mysql")
                sql tables (countFields tables) [] later).
      split; [| split; [| split]].
      * intros disk'. rewrite handler_with_files by done. cbv zeta.
        fold body tables. by rewrite Hplain, Esql.
      * simpl in *. split; [done |]. intros H%F.
        destruct (fatal (extractConfig body)); done.
      * by left.
      * intros _. by exists sql.
    + exists (ServerError "Schema generation failed" error).
      split; [| split; [| split]].
      * intros disk'. rewrite handler_with_files by done. cbv zeta.
        fold body tables. by rewrite Hplain, Esql.
      * simpl in *. split; [| done]. intros _. apply F.
        destruct (fatal (extractConfig body)); done.
      * by right.
      * done.
Qed.

Lemma handler_response_depends_on_the_form_only_witness :
  exists response,
    fst (generateSchemaHandler sampleParse (fun _ => "") (fun _ => ".txt") (fun _ => true)
           (Request.make (Some [sampleUpload]) repeatedName) sampleDiskMap
           sampleNow sampleNow) = Some response /\
    status response = 500.
Proof.
  destruct (proj2 (handler_response_depends_on_the_form_only sampleParse (fun _ => "")
                     (fun _ => ".txt") (fun _ => true)
                     (Request.make (Some [sampleUpload]) repeatedName) sampleDiskMap
                     sampleNow sampleNow))
    as (response & Hresponse & Hstatus & _).
  - discriminate.
  - reflexivity.
  - exists response. split; [apply Hresponse |].
    apply Hstatus. split; reflexivity.
Defined.

(** X21.  The disk the handler leaves: a path is gone when some uploaded
    file lies there and its unlink succeeds, and every other path holds
    what it held before, whether the generation succeeded or threw; a
    request without files leaves the disk as it was, and cleaning up twice
    is cleaning up once. *)
Theorem handler_cleans_up_the_uploads
    (JSON_parse : string -> option json) (JSON_stringify : Mongo.schema -> string)
    (extname : string -> string) (canUnlink : string -> bool)
    (req : Request.t) (disk : gmap string string) (now later : string) :
  let disk' :=
    snd (generateSchemaHandler JSON_parse JSON_stringify extname canUnlink
           req disk now later) in
  (forall path,
     disk' !! path =
     if unlinked canUnlink (uploaded req) path then None else disk !! path) /\
  disk' = cleanupFiles canUnlink (uploaded req) disk /\
  cleanupFiles canUnlink (uploaded req) disk' = disk'.
Proof.
  intros disk'.
  assert (disk' = cleanupFiles canUnlink (uploaded req) disk) as E.
  { subst disk'. destruct (uploaded req) as [|file files] eqn:E.
    - by rewrite handler_without_files.
    - rewrite handler_with_files by (by rewrite E). cbv zeta. cbn [snd]. by rewrite E. }
  repeat split; [| exact E |].
  - intros path. rewrite E. apply cleanupFiles_lookup.
  - rewrite E. apply map_eq. intros path. rewrite !cleanupFiles_lookup.
    by destruct (unlinked _ _ _).
Qed.
